(** * Renspired: the serial protocol engine of src/main.c

    A shallow embedding of the UART handshake, the request escaping, the
    chunked response receiver and the chat history of the TI-Nspire
    bridge, with the properties of the written specification stated and
    proved (or refuted) over it.

    The hardware is an explicit environment: the seconds register, the
    ESC key and the bytes reaching the receive FIFO are functions of a
    tick counter, and every primitive operation of the program takes one
    tick.  Busy-wait loops take fuel; a run that exhausts it yields
    [None] together with the state it reached. *)

From Stdlib Require Import ZArith Lia String Ascii Bool.
From stdpp Require Import base list.

Local Open Scope Z_scope.

(** ** Bytes and C strings *)

(** A [char] is kept as its byte value in [0, 256). *)
Definition str (s : string) : list Z :=
  map (fun a => Z.of_nat (nat_of_ascii a)) (list_ascii_of_string s).

(** The C string held by an array: the bytes before the first NUL. *)
Fixpoint cstr (l : list Z) : list Z :=
  match l with
  | [] => []
  | c :: r => if c =? 0 then [] else c :: cstr r
  end.

Fixpoint bytes_eqb (a b : list Z) : bool :=
  match a, b with
  | [], [] => true
  | x :: a', y :: b' => (x =? y) && bytes_eqb a' b'
  | _, _ => false
  end.

(** [strcmp(a, lit) == 0] for a literal without NUL. *)
Definition strcmp_eq (a : list Z) (lit : string) : bool :=
  bytes_eqb (cstr a) (str lit).

(** [strncmp(a, lit, n) == 0] for a literal of exactly [n] characters. *)
Definition strncmp_eq (a : list Z) (lit : string) (n : nat) : bool :=
  bytes_eqb (take n (cstr a)) (str lit).

(** [atoi] of the C library (newlib: [(int) strtol(s, NULL, 10)], which
    saturates at the ends of the [long] range, 32 bits on this target). *)
Definition INT_MAX : Z := 2147483647.
Definition INT_MIN : Z := -2147483648.

Definition isspace (c : Z) : bool := (c =? 32) || ((9 <=? c) && (c <=? 13)).
Definition isdigit (c : Z) : bool := (48 <=? c) && (c <=? 57).

Fixpoint skip_space (s : list Z) : list Z :=
  match s with
  | c :: r => if isspace c then skip_space r else s
  | [] => []
  end.

Fixpoint digits_val (acc : Z) (s : list Z) : Z :=
  match s with
  | c :: r => if isdigit c then digits_val (acc * 10 + (c - 48)) r else acc
  | [] => acc
  end.

Definition saturate (v : Z) : Z := Z.max INT_MIN (Z.min INT_MAX v).

Definition atoi (s : list Z) : Z :=
  match skip_space s with
  | 45 :: r => saturate (- digits_val 0 r)
  | 43 :: r => saturate (digits_val 0 r)
  | r => saturate (digits_val 0 r)
  end.

(** ** The machine *)

Definition EOT_CHAR : Z := 4.
Definition MAX_HISTORY_TURNS : Z := 20.
Definition MAX_RESPONSE_LEN : Z := 16384.
Definition CHUNK_SIZE : Z := 64.

(** What crossed the serial link, and what was sent to the display. *)
Inductive chan_ev := Rx (b : Z) | Tx (b : Z).

Inductive sink_ev :=
| Printf (s : list Z)
| AddLine (s : list Z)
| AddText (prefix s : list Z)
| ScrollToReply
| Redraw.

(** The environment: the value of the seconds counter and the state of
    the ESC key at each tick. *)
Record env := mkEnv {
  secs : nat -> Z;
  esc_key : nat -> bool }.

(** The state: the tick counter, the bytes still to come on the link
    (each with the tick at which it reaches the receive FIFO), the log of
    the link (newest first, with the tick of each event), the log of the
    display calls (newest first), the caller's response buffer and the log
    of the indices stored into it (newest first). *)
Record world := mkWorld {
  tick : nat;
  rx : list (nat * Z);
  chan : list (nat * chan_ev);
  sink : list sink_ev;
  buf : list Z;
  stores : list Z }.

Definition tock (w : world) : world :=
  mkWorld (S (tick w)) (rx w) (chan w) (sink w) (buf w) (stores w).

(** The link log in the order of events. *)
Definition trace (w : world) : list chan_ev := map snd (rev (chan w)).

Definition is_tx (e : chan_ev) : bool :=
  match e with Tx _ => true | Rx _ => false end.

Definition sent (w : world) : list chan_ev := filter is_tx (trace w).
Definition shown (w : world) : list sink_ev := rev (sink w).

(** Computations over the machine; [None] is a run out of fuel. *)
Definition M (A : Type) : Type := world -> option A * world.

#[global] Instance M_ret : MRet M := fun A a w => (Some a, w).
#[global] Instance M_bind : MBind M := fun A B k m w =>
  match m w with
  | (Some a, w') => k a w'
  | (None, w') => (None, w')
  end.

(** A C loop: [body] runs one iteration on the loop's variables and
    either continues with their new values or leaves the loop. *)
Fixpoint loop {S R : Type} (body : nat -> S -> M (S + R)) (fuel : nat) (s : S)
  : M R :=
  match fuel with
  | O => fun w => (None, w)
  | Datatypes.S n =>
      x ← body n s;
      match x with
      | inl s' => loop body n s'
      | inr r => mret r
      end
  end.

Definition two32 : Z := 4294967296.

(** Unsigned subtraction [now - start]. *)
Definition elapsed (now start : Z) : Z := (now - start) mod two32.

(** The value [get_time_ms] reads at tick [t]: the seconds register
    times 1000, in 32 bits. *)
Definition now_ms (E : env) (t : nat) : Z :=
  ((secs E t mod two32) * 1000) mod two32.

Section Machine.
Variable E : env.

Definition get_time_ms : M Z := fun w => (Some (now_ms E (tick w)), tock w).

Definition rx_ready (w : world) : bool :=
  match rx w with
  | (t, _) :: _ => (t <=? tick w)%nat
  | [] => false
  end.

Definition uart_has_data : M bool := fun w => (Some (rx_ready w), tock w).

Definition uart_read_char : M Z := fun w =>
  match rx w with
  | (t, b) :: r =>
      if (t <=? tick w)%nat
      then (Some b, mkWorld (S (tick w)) r ((tick w, Rx b) :: chan w)
                            (sink w) (buf w) (stores w))
      else (Some 0, tock w)
  | [] => (Some 0, tock w)
  end.

Definition uart_write_char (c : Z) : M unit := fun w =>
  (Some tt, mkWorld (S (tick w)) (rx w) ((tick w, Tx c) :: chan w)
                    (sink w) (buf w) (stores w)).

(** Writes the characters of [s] up to its terminating NUL. *)
Fixpoint uart_write_str (s : list Z) : M unit :=
  match s with
  | [] => mret tt
  | c :: r => if c =? 0 then mret tt else uart_write_char c;; uart_write_str r
  end.

Definition isKeyPressed_ESC : M bool := fun w =>
  (Some (esc_key E (tick w)), tock w).

Definition idle : M unit := fun w => (Some tt, tock w).

Definition to_sink (e : sink_ev) : M unit := fun w =>
  (Some tt, mkWorld (S (tick w)) (rx w) (chan w) (e :: sink w)
                    (buf w) (stores w)).

Definition nio_printf (s : list Z) : M unit := to_sink (Printf (cstr s)).
Definition scroll_add_line (s : list Z) : M unit := to_sink (AddLine (cstr s)).
Definition scroll_add_text (prefix s : list Z) : M unit :=
  to_sink (AddText (cstr prefix) (cstr s)).
Definition redraw : M unit := to_sink Redraw.

(** [response_buf[i] = c].  A store outside the buffer is undefined in C;
    here it is logged and leaves the buffer as it is. *)
Definition buf_store (i c : Z) : M unit := fun w =>
  (Some tt,
   mkWorld (tick w) (rx w) (chan w) (sink w)
           (if (0 <=? i) && (i <? Z.of_nat (length (buf w)))
            then <[Z.to_nat i := c]> (buf w) else buf w)
           (i :: stores w)).

Definition read_buf : M (list Z) := fun w => (Some (buf w), w).

(** *** uart_drain *)

Definition flush_rx_step (_ : nat) (_ : unit) : M (unit + unit) :=
  d ← uart_has_data;
  if d : bool then uart_read_char;; mret (inl tt)
  else mret (inr tt).

Definition flush_rx (fuel : nat) : M unit := loop flush_rx_step fuel tt.

Definition uart_drain_step (start ms : Z) (n : nat) (_ : unit)
  : M (unit + unit) :=
  now ← get_time_ms;
  if elapsed now start <? ms
  then flush_rx n;; idle;; mret (inl tt)
  else mret (inr tt).

Definition uart_drain (ms : Z) (fuel : nat) : M unit :=
  start ← get_time_ms;
  loop (uart_drain_step start ms) fuel tt.

(** *** uart_handshake *)

(** One received character in a line wait: [line] holds [buf[0..idx-1]].
    [strip_cr] tells whether the loop skips carriage returns. *)
Definition line_push (strip_cr : bool) (line : list Z) (c : Z) : list Z :=
  if (negb strip_cr || negb (c =? 13)) && (Z.of_nat (length line) <? 31)
  then line ++ [c] else line.

Definition await_wake_step (start : Z) (_ : nat) (line : list Z)
  : M (list Z + unit) :=
  now ← get_time_ms;
  if elapsed now start <? 2000 then
    d ← uart_has_data;
    if d : bool then
      c ← uart_read_char;
      if c =? 10 then
        if strcmp_eq line "AWAKE" || strcmp_eq line "ESP_READY"
        then mret (inr tt)
        else mret (inl [])
      else mret (inl (line_push true line c))
    else mret (inl line)
  else mret (inr tt).

Definition await_wake (start : Z) : nat -> list Z -> M unit :=
  loop (await_wake_step start).

Inductive ready_exit := ReadyNext | ReadyEsc.

Definition await_ready_step (start : Z) (_ : nat) (line : list Z)
  : M (list Z + ready_exit) :=
  now ← get_time_ms;
  if elapsed now start <? 15000 then
    k ← isKeyPressed_ESC;
    if k : bool then mret (inr ReadyEsc)
    else
      d ← uart_has_data;
      if d : bool then
        c ← uart_read_char;
        if c =? 10 then
          if strcmp_eq line "ESP_READY"
          then mret (inr ReadyNext)
          else idle;; mret (inl [])
        else idle;; mret (inl (line_push true line c))
      else idle;; mret (inl line)
  else mret (inr ReadyNext).

Definition await_ready (start : Z) : nat -> list Z -> M ready_exit :=
  loop (await_ready_step start).

Definition await_ack_step (start : Z) (_ : nat) (line : list Z)
  : M (list Z + bool) :=
  now ← get_time_ms;
  if elapsed now start <? 5000 then
    d ← uart_has_data;
    if d : bool then
      c ← uart_read_char;
      if c =? 10 then
        if strcmp_eq line "READY"
        then nio_printf (str "Connected!" ++ [10]);; mret (inr true)
        else idle;; mret (inl [])
      else idle;; mret (inl (line_push true line c))
    else idle;; mret (inl line)
  else nio_printf (str "Connection failed." ++ [10]);; mret (inr false).

Definition await_ack (start : Z) : nat -> list Z -> M bool :=
  loop (await_ack_step start).

Definition uart_handshake (fuel : nat) : M bool :=
  nio_printf (str "Connecting to ESP32..." ++ [10]);;
  uart_drain 100 fuel;;
  uart_write_str [10; 10; 10; 10; 10];;
  start ← get_time_ms;
  await_wake start fuel [];;
  uart_write_str (str "RST" ++ [10]);;
  start ← get_time_ms;
  r ← await_ready start fuel [];
  match r with
  | ReadyEsc => mret false
  | ReadyNext =>
      uart_drain 50 fuel;;
      uart_write_str (str "SYNC" ++ [10]);;
      start ← get_time_ms;
      await_ack start fuel []
  end.

(** *** json_escape_to_uart *)

(** The value of a [char] in a comparison: plain [char] is unsigned on
    the ARM target, signed elsewhere. *)
Definition char_val (char_signed : bool) (b : Z) : Z :=
  if char_signed && (128 <=? b) then b - 256 else b.

Variable char_signed : bool.

Fixpoint json_escape_to_uart (s : list Z) : M unit :=
  match s with
  | [] => mret tt
  | c :: r =>
      if c =? 0 then mret tt
      else
        (if c =? 34 then uart_write_str [92; 34]
         else if c =? 92 then uart_write_str [92; 92]
         else if c =? 10 then uart_write_str [92; 110]
         else if c =? 13 then uart_write_str [92; 114]
         else if c =? 9 then uart_write_str [92; 116]
         else if (32 <=? char_val char_signed c) && (char_val char_signed c <? 127)
              then uart_write_char c
              else mret tt);;
        json_escape_to_uart r
  end.

(** *** wait_for_len_or_error *)

Definition wait_header_step (start : Z) (_ : nat) (line : list Z)
  : M (list Z + Z) :=
  now ← get_time_ms;
  if elapsed now start <? 60000 then
    d ← uart_has_data;
    r ← (if d : bool then
           c ← uart_read_char;
           if c =? 10 then
             if strncmp_eq line "LEN:" 4
             then mret (inr (atoi (drop 4 (cstr line))))
             else if strncmp_eq line "ERR:" 4
             then scroll_add_text (str "[") line;;
                  scroll_add_line (str "]");;
                  mret (inr (-1))
             else mret (inl [])
           else mret (inl (line_push false line c))
         else mret (inl line));
    match r with
    | inr v => mret (inr v)
    | inl line' =>
        k ← isKeyPressed_ESC;
        if k : bool
        then scroll_add_line (str "[Cancelled]");; mret (inr (-1))
        else mret (inl line')
    end
  else scroll_add_line (str "[Timeout waiting for response]");;
       mret (inr (-1)).

Definition wait_for_len_or_error (fuel : nat) : M Z :=
  start ← get_time_ms;
  loop (wait_header_step start) fuel [].

(** *** receive_response *)

(** How the loop reading one chunk ends: its condition fails (the chunk
    is complete or the 120 s have passed), an EOT arrives ([goto done]),
    or ESC is pressed ([return false]). *)
Inductive chunk_exit :=
| ChunkEnd (chunk_got start : Z)
| ChunkEOT
| ChunkCancelled.

Definition read_chunk_step (received chunk_target : Z) (_ : nat)
  (st : Z * Z) : M (Z * Z + chunk_exit) :=
  let '(chunk_got, start) := st in
  if chunk_got <? chunk_target then
    now ← get_time_ms;
    if elapsed now start <? 120000 then
      d ← uart_has_data;
      if d : bool then
        c ← uart_read_char;
        if c =? EOT_CHAR then mret (inr ChunkEOT)
        else
          buf_store (received + chunk_got) c;;
          start' ← get_time_ms;
          mret (inl (chunk_got + 1, start'))
      else
        k ← isKeyPressed_ESC;
        if k : bool then
          scroll_add_line (str "[Cancelled]");;
          buf_store received 0;;
          redraw;;
          mret (inr ChunkCancelled)
        else mret (inl (chunk_got, start))
    else mret (inr (ChunkEnd chunk_got start))
  else mret (inr (ChunkEnd chunk_got start)).

Definition read_chunk (received chunk_target : Z)
  : nat -> Z * Z -> M chunk_exit :=
  loop (read_chunk_step received chunk_target).

Inductive body_exit := BodyDone (received : Z) | BodyCancelled.

Definition receive_chunks_step (expected_len : Z) (n : nat) (st : Z * Z)
  : M (Z * Z + body_exit) :=
  let '(received, start) := st in
  if received <? expected_len then
    let chunk_target :=
      if expected_len - received >? CHUNK_SIZE
      then CHUNK_SIZE else expected_len - received in
    r ← read_chunk received chunk_target n (0, start);
    match r with
    | ChunkEOT => mret (inr (BodyDone received))
    | ChunkCancelled => mret (inr BodyCancelled)
    | ChunkEnd chunk_got start' =>
        uart_write_char 65;;
        mret (inl (received + chunk_got, start'))
    end
  else mret (inr (BodyDone received)).

Definition receive_chunks (expected_len : Z) : nat -> Z * Z -> M body_exit :=
  loop (receive_chunks_step expected_len).

(** The wait for the trailing EOT. *)
Definition wait_eot_step (start : Z) (_ : nat) (_ : unit) : M (unit + unit) :=
  now ← get_time_ms;
  if elapsed now start <? 2000 then
    d ← uart_has_data;
    if d : bool then
      c ← uart_read_char;
      if c =? EOT_CHAR then mret (inr tt) else mret (inl tt)
    else mret (inl tt)
  else mret (inr tt).

Definition wait_eot (start : Z) (fuel : nat) : M unit :=
  loop (wait_eot_step start) fuel tt.

(** The receiver once the header gave [expected_len > 0]. *)
Definition receive_body (max_len expected_len : Z) (fuel : nat) : M bool :=
  let expected_len :=
    if expected_len >=? max_len then max_len - 1 else expected_len in
  uart_write_char 65;;
  start ← get_time_ms;
  r ← receive_chunks expected_len fuel (0, start);
  match r with
  | BodyCancelled => mret false
  | BodyDone received =>
      buf_store received 0;;
      start ← get_time_ms;
      wait_eot start fuel;;
      response ← read_buf;
      scroll_add_text (str "AI: ") response;;
      scroll_add_line [];;
      to_sink ScrollToReply;;
      redraw;;
      mret true
  end.

Definition receive_response (max_len : Z) (fuel : nat) : M bool :=
  expected_len ← wait_for_len_or_error fuel;
  if expected_len <? 0 then redraw;; mret false
  else if expected_len =? 0 then
    buf_store 0 0;;
    scroll_add_line (str "AI: (empty response)");;
    redraw;;
    mret true
  else receive_body max_len expected_len fuel.

End Machine.

(** ** The chat history *)

Module History.

Record ChatTurn := mkTurn { role : list Z; content : list Z }.

(** The global [history]: the array of turns, the count, and (as a log)
    the contents released with [free], oldest first. *)
Record ChatHistory := mkHistory {
  turns : list ChatTurn;
  count : Z;
  freed : list (list Z) }.

Definition empty_turn : ChatTurn := mkTurn [] [].

(** [memset(&history, 0, sizeof(history))] *)
Definition history_init : ChatHistory :=
  mkHistory (replicate (Z.to_nat MAX_HISTORY_TURNS) empty_turn) 0 [].

(** [memmove(&a[0], &a[1], (N - 1) * sizeof(ChatTurn))]: every slot but
    the last takes the value of its successor. *)
Definition shift_down (a : list ChatTurn) : list ChatTurn :=
  match a with
  | [] => []
  | _ :: r => r ++ match last a with Some t => [t] | None => [] end
  end.

Definition history_add (r c : list Z) (h : ChatHistory) : ChatHistory :=
  let h1 :=
    if count h >=? MAX_HISTORY_TURNS then
      mkHistory (shift_down (turns h)) (count h - 1)
                (freed h ++ match turns h with
                            | t :: _ => [content t]
                            | [] => []
                            end)
    else h in
  mkHistory (<[Z.to_nat (count h1) := mkTurn (cstr r) (cstr c)]> (turns h1))
            (count h1 + 1) (freed h1).

Definition history_free (h : ChatHistory) : ChatHistory :=
  mkHistory (turns h) 0
            (freed h ++ map content (take (Z.to_nat (count h)) (turns h))).

(** The turns the store holds: the first [count] slots. *)
Definition stored (h : ChatHistory) : list ChatTurn :=
  take (Z.to_nat (count h)) (turns h).

(** The turn an append stores: copies of the two C strings. *)
Definition turn_of (p : list Z * list Z) : ChatTurn :=
  mkTurn (cstr p.1) (cstr p.2).

(** A sequence of appends, first to last. *)
Definition appends (ps : list (list Z * list Z)) (h : ChatHistory)
  : ChatHistory :=
  fold_left (fun h p => history_add p.1 p.2 h) ps h.

Definition capacity : nat := Z.to_nat MAX_HISTORY_TURNS.

(** The array has its 20 slots and the count is within it. *)
Record wf (h : ChatHistory) : Prop := {
  wf_len : length (turns h) = capacity;
  wf_count : 0 <= count h <= MAX_HISTORY_TURNS }.

End History.

(** ** Requests *)

Section Request.
Variable E : env.
Variable char_signed : bool.

(** *** wake_esp32 *)

Definition wake_wait_step (start : Z) (_ : nat) (_ : unit) : M (unit + unit) :=
  now ← get_time_ms E;
  if elapsed now start <? 20 then
    d ← uart_has_data;
    if d : bool then uart_read_char;; mret (inl tt) else mret (inl tt)
  else mret (inr tt).

Definition wake_esp32 (fuel : nat) : M unit :=
  uart_write_str [10; 10; 10];;
  start ← get_time_ms E;
  loop (wake_wait_step start) fuel tt.

(** *** send_request *)

(** The string literals of the request; 34 is the double quote. *)
Definition json_open : list Z :=
  str "{" ++ [34] ++ str "history" ++ [34] ++ str ":[".
Definition turn_open : list Z :=
  str "{" ++ [34] ++ str "role" ++ [34] ++ str ":" ++ [34].
Definition turn_mid : list Z :=
  [34] ++ str "," ++ [34] ++ str "parts" ++ [34] ++ str ":[{" ++
  [34] ++ str "text" ++ [34] ++ str ":" ++ [34].
Definition turn_close : list Z := [34] ++ str "}]}".
Definition prompt_open : list Z :=
  str "]," ++ [34] ++ str "current_prompt" ++ [34] ++ str ":" ++ [34].
Definition json_close : list Z := [34] ++ str "}" ++ [10].

(** [history.turns[i]] *)
Definition turn_at (h : History.ChatHistory) (i : Z) : History.ChatTurn :=
  default History.empty_turn (History.turns h !! Z.to_nat i).

(** The loop over the turns: [n] iterations are left, from index [i]. *)
Fixpoint send_turns (h : History.ChatHistory) (n : nat) (i : Z) : M unit :=
  match n with
  | O => mret tt
  | S n' =>
      (if i >? 0 then uart_write_char 44 else mret tt);;
      uart_write_str turn_open;;
      uart_write_str (History.role (turn_at h i));;
      uart_write_str turn_mid;;
      json_escape_to_uart char_signed (History.content (turn_at h i));;
      uart_write_str turn_close;;
      send_turns h n' (i + 1)
  end.

Definition send_request (h : History.ChatHistory) (prompt : list Z)
  (fuel : nat) : M unit :=
  wake_esp32 fuel;;
  uart_write_str json_open;;
  send_turns h (Z.to_nat (History.count h)) 0;;
  uart_write_str prompt_open;;
  json_escape_to_uart char_signed prompt;;
  uart_write_str json_close.

End Request.

(** ** The scrollback and the screen *)

Module Display.

Definition SCROLLBACK_LINES : Z := 1000.

(** The global [scrollback]: 1000 rows of [CONSOLE_COLS + 1] characters,
    the number of rows in use and the scroll position. *)
Record ScrollBuffer := mkScroll {
  lines : list (list Z);
  line_count : Z;
  scroll_offset : Z }.

(** [memmove(lines[0], lines[1], (SCROLLBACK_LINES - 1) * row)]: every row
    but the last takes the value of its successor. *)
Definition shift_rows (a : list (list Z)) : list (list Z) :=
  match a with
  | [] => []
  | _ :: r => r ++ match last a with Some t => [t] | None => [] end
  end.

(** [strncpy(dst, src, n)]: the string, cut or padded with NULs to [n]
    characters. *)
Definition strncpy (src : list Z) (n : nat) : list Z :=
  take n (cstr src ++ replicate n 0).

Section Console.
(** [NIO_MAX_COLS] and [NIO_MAX_ROWS] of nspireio. *)
Variables CONSOLE_COLS CONSOLE_ROWS : Z.

Definition VISIBLE_LINES : Z := CONSOLE_ROWS - 10.

(** [memset(&scrollback, 0, sizeof(scrollback))] *)
Definition scroll_init : ScrollBuffer :=
  mkScroll (replicate (Z.to_nat SCROLLBACK_LINES)
                      (replicate (Z.to_nat (CONSOLE_COLS + 1)) 0)) 0 0.

(** The row written for [line]: [strncpy] of [CONSOLE_COLS] characters
    and the NUL after them. *)
Definition row_of (line : list Z) : list Z :=
  strncpy line (Z.to_nat CONSOLE_COLS) ++ [0].

Definition scroll_add_line (line : list Z) (sb : ScrollBuffer) : ScrollBuffer :=
  if line_count sb <? SCROLLBACK_LINES then
    mkScroll (<[Z.to_nat (line_count sb) := row_of line]> (lines sb))
             (line_count sb + 1) (scroll_offset sb)
  else
    mkScroll (<[Z.to_nat (SCROLLBACK_LINES - 1) := row_of line]>
                (shift_rows (lines sb)))
             (line_count sb) (scroll_offset sb).

(** A sequence of calls, first to last. *)
Definition add_lines (ls : list (list Z)) (sb : ScrollBuffer) : ScrollBuffer :=
  fold_left (fun sb l => scroll_add_line l sb) ls sb.

(** The loop of [scroll_add_text]: [text] is what is left of the text and
    [line] holds [line[0..col-1]].  An iteration that breaks the line
    without a newline leaves the text where it is, so the loop takes
    fuel. *)
Fixpoint add_text_loop (fuel : nat) (text line : list Z) (sb : ScrollBuffer)
  : option (list Z * ScrollBuffer) :=
  match fuel with
  | O => None
  | S n =>
      match text with
      | [] => Some (line, sb)
      | c :: r =>
          if c =? 0 then Some (line, sb)
          else if (c =? 10) || (Z.of_nat (length line) >=? CONSOLE_COLS) then
            add_text_loop n (if c =? 10 then r else text) []
                          (scroll_add_line (line ++ [0]) sb)
          else add_text_loop n r (line ++ [c]) sb
      end
  end.

(** [prefix] is [None] for a null pointer. *)
Definition scroll_add_text (prefix : option (list Z)) (text : list Z)
  (fuel : nat) (sb : ScrollBuffer) : option ScrollBuffer :=
  let line :=
    match prefix with
    | Some p =>
        let plen := Z.of_nat (length (cstr p)) in
        let plen := if plen >? CONSOLE_COLS then CONSOLE_COLS else plen in
        take (Z.to_nat plen) (cstr p)
    | None => []
    end in
  match add_text_loop fuel text line sb with
  | Some (line', sb') =>
      Some (if Z.of_nat (length line') >? 0
            then scroll_add_line (line' ++ [0]) sb' else sb')
  | None => None
  end.

(** *** redraw *)

(** The first row [redraw] shows. *)
Definition redraw_start (sb : ScrollBuffer) : Z :=
  let start := line_count sb - VISIBLE_LINES - scroll_offset sb in
  if start <? 0 then 0 else start.

(** The loop over the rows shown: the indices [start + i] it reads;
    [n] bounds the iterations left. *)
Fixpoint redraw_rows (n : nat) (i start : Z) (sb : ScrollBuffer) : list Z :=
  match n with
  | O => []
  | S n' =>
      if (i <? VISIBLE_LINES) && (start + i <? line_count sb)
      then (start + i) :: redraw_rows n' (i + 1) start sb
      else []
  end.

Definition redraw_lines (sb : ScrollBuffer) : list Z :=
  redraw_rows (Z.to_nat VISIBLE_LINES) 0 (redraw_start sb) sb.

(** [scrollback.lines[k]] *)
Definition row (sb : ScrollBuffer) (k : Z) : list Z :=
  default [] (lines sb !! Z.to_nat k).

(** The characters [redraw] puts on the cleared console. *)
Definition redraw (input_buffer : list Z) (sb : ScrollBuffer) : list Z :=
  concat (map (fun k => cstr (row sb k) ++ [10]) (redraw_lines sb)) ++
  replicate (Z.to_nat CONSOLE_COLS) 45 ++ [10] ++
  str "> " ++ cstr input_buffer.

(** *** The display of a response in receive_response *)

Definition show_response (response_buf : list Z) (fuel : nat)
  (sb : ScrollBuffer) : option ScrollBuffer :=
  let line_before := line_count sb in
  match scroll_add_text (Some (str "AI: ")) response_buf fuel sb with
  | None => None
  | Some sb1 =>
      let sb2 := scroll_add_line [] sb1 in
      let response_lines := line_count sb2 - line_before in
      let target_offset := response_lines - VISIBLE_LINES in
      let max_offset := line_count sb2 - VISIBLE_LINES in
      let max_offset := if max_offset <? 0 then 0 else max_offset in
      let target_offset :=
        if target_offset >? max_offset then max_offset else target_offset in
      let target_offset := if target_offset <? 0 then 0 else target_offset in
      Some (mkScroll (lines sb2) (line_count sb2) target_offset)
  end.

(** *** Scrolling in main *)

Definition scroll_up (up up_was : bool) (sb : ScrollBuffer) : ScrollBuffer :=
  if up && negb up_was && (scroll_offset sb <? line_count sb - VISIBLE_LINES)
  then mkScroll (lines sb) (line_count sb) (scroll_offset sb + 1)
  else sb.

Definition scroll_down (down down_was : bool) (sb : ScrollBuffer)
  : ScrollBuffer :=
  if down && negb down_was && (scroll_offset sb >? 0)
  then mkScroll (lines sb) (line_count sb) (scroll_offset sb - 1)
  else sb.

End Console.

(** *** The thinking indicator in main *)

(** [if (scrollback.line_count > 0) scrollback.line_count--;] *)
Definition remove_indicator (sb : ScrollBuffer) : ScrollBuffer :=
  if line_count sb >? 0
  then mkScroll (lines sb) (line_count sb - 1) (scroll_offset sb)
  else sb.

(** The lines the scrollback holds, oldest first. *)
Definition rows (sb : ScrollBuffer) : list (list Z) :=
  map cstr (take (Z.to_nat (line_count sb)) (lines sb)).

(** The array has its 1000 rows and the count is within it. *)
Record wf (sb : ScrollBuffer) : Prop := {
  wf_rows : length (lines sb) = Z.to_nat SCROLLBACK_LINES;
  wf_line_count : 0 <= line_count sb <= SCROLLBACK_LINES }.

End Display.

(** ** The keyboard and the input line *)

Module Keyboard.

Definition MAX_INPUT_LEN : Z := 256.

(** An entry of [key_map]: the character of the key alone and with
    shift.  The key itself is its index in the table. *)
Definition key (normal shifted : string) : Z * Z :=
  (hd 0 (str normal), hd 0 (str shifted)).

Definition key_map : list (Z * Z) :=
  [ key "a" "A"; key "b" "B"; key "c" "C"; key "d" "D";
    key "e" "E"; key "f" "F"; key "g" "G"; key "h" "H";
    key "i" "I"; key "j" "J"; key "k" "K"; key "l" "L";
    key "m" "M"; key "n" "N"; key "o" "O"; key "p" "P";
    key "q" "Q"; key "r" "R"; key "s" "S"; key "t" "T";
    key "u" "U"; key "v" "V"; key "w" "W"; key "x" "X";
    key "y" "Y"; key "z" "Z"; key "0" ")"; key "1" "!";
    key "2" "@"; key "3" "#"; key "4" "$"; key "5" "%";
    key "6" "^"; key "7" "&"; key "8" "*"; key "9" "(";
    key " " " "; key "." ">"; key "," "<"; key "+" "+";
    key "-" "_"; key "*" "*"; key "/" "?"; key "=" "+";
    key "(" "["; key ")" "]"; key ":" ";"; (39, 34) ].

Definition KEY_MAP_SIZE : nat := length key_map.

(** The globals [input_buffer], [input_len] and [key_was_pressed], and
    the number of calls of [redraw]. *)
Record Input := mkInput {
  input_buffer : list Z;
  input_len : Z;
  key_was_pressed : list bool;
  redraws : nat }.

(** The state [main] starts from. *)
Definition input_init : Input :=
  mkInput (replicate (Z.to_nat MAX_INPUT_LEN) 0) 0
          (replicate KEY_MAP_SIZE false) 0.

(** The character key [i] gives. *)
Definition key_char (shift : bool) (i : nat) : Z :=
  match key_map !! i with
  | Some (normal, shifted) => if shift then shifted else normal
  | None => 0
  end.

(** One iteration of the loop over [key_map] in [main]; [pressed i] is
    what [isKeyPressed] gives for key [i]. *)
Definition key_step (shift : bool) (pressed : nat -> bool) (st : Input)
  (i : nat) : Input :=
  let p := pressed i in
  let st1 :=
    if p && negb (default false (key_was_pressed st !! i)) &&
       (input_len st <? MAX_INPUT_LEN - 1)
    then
      mkInput (<[Z.to_nat (input_len st + 1) := 0]>
                 (<[Z.to_nat (input_len st) := key_char shift i]>
                    (input_buffer st)))
              (input_len st + 1) (key_was_pressed st) (S (redraws st))
    else st in
  mkInput (input_buffer st1) (input_len st1)
          (<[i := p]> (key_was_pressed st1)) (redraws st1).

Definition regular_keys (shift : bool) (pressed : nat -> bool) (st : Input)
  : Input :=
  fold_left (key_step shift pressed) (seq 0 KEY_MAP_SIZE) st.

(** The backspace key in [main]. *)
Definition backspace (del del_was : bool) (st : Input) : Input :=
  if del && negb del_was && (input_len st >? 0) then
    mkInput (<[Z.to_nat (input_len st - 1) := 0]> (input_buffer st))
            (input_len st - 1) (key_was_pressed st) (S (redraws st))
  else st.

(** The characters a pass over the keys [l] types: those of the keys
    that are down and were not, in the order of the table. *)
Definition typed_on (shift : bool) (pressed : nat -> bool) (was : list bool)
  (l : list nat) : list Z :=
  map (key_char shift)
      (filter (fun i => pressed i && negb (default false (was !! i)) = true) l).

Definition typed (shift : bool) (pressed : nat -> bool) (was : list bool)
  : list Z :=
  typed_on shift pressed was (seq 0 KEY_MAP_SIZE).

(** The buffer has its 256 characters and holds a string of [input_len]
    characters; every key has its flag. *)
Record wf (st : Input) : Prop := {
  wf_size : length (input_buffer st) = Z.to_nat MAX_INPUT_LEN;
  wf_input_len : 0 <= input_len st <= MAX_INPUT_LEN - 1;
  wf_str : Z.of_nat (length (cstr (input_buffer st))) = input_len st;
  wf_keys : length (key_was_pressed st) = KEY_MAP_SIZE }.

End Keyboard.

(** ** Definitions used by the statements *)

(** *** The escaping rule as the specification words it *)

Definition printable (c : Z) : bool := (32 <=? c) && (c <=? 126).

(** Quote, backslash, newline, carriage return and tab become a backslash
    and a letter; any other printable ASCII byte stays; the rest goes. *)
Definition escape_byte (c : Z) : list Z :=
  if c =? 34 then [92; 34]
  else if c =? 92 then [92; 92]
  else if c =? 10 then [92; 110]
  else if c =? 13 then [92; 114]
  else if c =? 9 then [92; 116]
  else if printable c then [c]
  else [].

Definition escaped (s : list Z) : list Z := concat (map escape_byte s).

(** [w'] is [w] after the bytes [out] were written to the link. *)
Definition wrote (out : list Z) (w w' : world) : Prop :=
  trace w' = trace w ++ map Tx out /\
  rx w' = rx w /\ sink w' = sink w /\ buf w' = buf w /\ stores w' = stores w /\
  tick w' = (tick w + length out)%nat.

(** *** The clock *)

(** The seconds counter never goes back and gains at most one second
    from one primitive operation to the next. *)
Definition steady (E : env) : Prop :=
  forall t, secs E t <= secs E (S t) <= secs E t + 1.

(** The seconds counter keeps counting. *)
Definition running (E : env) : Prop :=
  forall t, exists t', (t <= t')%nat /\ secs E t < secs E t'.

(** Milliseconds on the clock between tick [ts] and the state [w]. *)
Definition since (E : env) (ts : nat) (w : world) : Z :=
  (secs E (tick w) - secs E ts) * 1000.

Definition at_tick (t : nat) (w : world) : world :=
  mkWorld t (rx w) (chan w) (sink w) (buf w) (stores w).

Definition failed_at (t : nat) (w : world) : world :=
  mkWorld t (rx w) (chan w)
          (Printf (str "Connection failed." ++ [10]) :: sink w)
          (buf w) (stores w).

(** The link events of writing [out] from tick [t] on, oldest first. *)
Fixpoint stamp (t : nat) (out : list Z) : list (nat * chan_ev) :=
  match out with
  | [] => []
  | c :: r => (t, Tx c) :: stamp (S t) r
  end.

(** *** Stores into the response buffer *)

(** Every index stored to so far lies inside a buffer of [max_len] bytes. *)
Definition stores_ok (max_len : Z) (l : list Z) : Prop :=
  Forall (fun i => 0 <= i < max_len) l.

Definition in_bounds (max_len : Z) (w : world) : Prop :=
  stores_ok max_len (stores w).

(** A computation that stores nothing into the response buffer. *)
Definition stores_kept {A} (m : M A) : Prop :=
  forall w, stores (m w).2 = stores w.

(** Hoare triples over the log of stores: [I] holds of the state reached,
    also by a run out of fuel, and [Q] of the value returned. *)
Definition striple {A} (I P : list Z -> Prop) (m : M A)
  (Q : A -> list Z -> Prop) : Prop :=
  forall w, P (stores w) ->
    I (stores (m w).2) /\ forall a, (m w).1 = Some a -> Q a (stores (m w).2).

(** *** Chunks *)

(** The link events of a body received in chunks of 64, each followed by
    its acknowledgement; [n] bounds the number of chunks. *)
Fixpoint acked_chunks (n : nat) (bs : list Z) : list chan_ev :=
  match n with
  | O => []
  | S n' =>
      match bs with
      | [] => []
      | _ => map Rx (take 64 bs) ++ Tx 65 :: acked_chunks n' (drop 64 bs)
      end
  end.

(** The number of chunks of a body of [n] bytes. *)
Definition chunk_count (n : nat) : nat := Z.to_nat ((Z.of_nat n + 63) / 64).

(** The buffer [l] with [bs] written from index [k] on. *)
Definition write_at (k : nat) (bs l : list Z) : list Z :=
  take k l ++ bs ++ drop (k + length bs) l.

(** The bytes [items] arrive in time after tick [p]: each is on the link
    before 120 s have passed since the one before it was there (since
    [p], for the first), and none is the terminator. *)
Fixpoint timely (E : env) (p : nat) (items : list (nat * Z)) : Prop :=
  match items with
  | [] => True
  | it :: r =>
      (secs E (it.1 + 3) - secs E p) * 1000 < 120000 /\
      it.2 <> EOT_CHAR /\
      timely E (Nat.max p it.1) r
  end.

(** The latest of [p] and the arrivals of [items]. *)
Definition last_seen (p : nat) (items : list (nat * Z)) : nat :=
  fold_left (fun q it => Nat.max q it.1) items p.

(** More fuel does not change a result. *)
Definition fuel_mono {A} (f : nat -> M A) : Prop :=
  forall n m w a w', (n <= m)%nat -> f n w = (Some a, w') -> f m w = (Some a, w').

(** *** Concrete runs *)

(** A clock that gains a second every 1000 operations, the ESC key left
    alone or held from tick [t0] on, and a link on which [input] has
    arrived before the run starts. *)
Definition ms_clock (t : nat) : Z := Z.of_nat t / 1000.

Definition E_quiet : env := mkEnv ms_clock (fun _ => false).
Definition E_esc_at (t0 : nat) : env := mkEnv ms_clock (fun t => (t0 <=? t)%nat).

(** A clock that gains a second with every operation. *)
Definition E_seconds : env := mkEnv Z.of_nat (fun _ => false).

Definition arrived (l : list Z) : list (nat * Z) := map (fun b => (0%nat, b)) l.

(** Bytes reaching the link one every [step] ticks, from tick [t] on. *)
Fixpoint staggered (t step : nat) (l : list Z) : list (nat * Z) :=
  match l with
  | [] => []
  | b :: r => (t, b) :: staggered (t + step) step r
  end.

(** The machine at tick 0 with a response buffer of [cap] bytes. *)
Definition power_on (pending : list (nat * Z)) (cap : nat) : world :=
  mkWorld 0 pending [] [] (replicate cap 255) [].

Definition boot (input : list Z) (cap : nat) : world :=
  power_on (arrived input) cap.

Definition empty_reply : list Z := str "LEN:0" ++ [10].
Definition stalled_reply : list Z := str "LEN:5" ++ [10].
Definition early_eot_reply : list Z :=
  str "LEN:200" ++ [10] ++ replicate 30 120 ++ [EOT_CHAR].
Definition cancelled_reply : list Z := str "LEN:200" ++ [10] ++ replicate 30 120.
Definition full_reply : list Z :=
  str "LEN:200" ++ [10] ++ replicate 200 120 ++ [EOT_CHAR].

(** A reply of 200 bytes that come one every 7 ticks, the terminator
    long after them. *)
Definition slow_reply : list (nat * Z) :=
  arrived (str "LEN:200" ++ [10]) ++ staggered 100 7 (replicate 200 120) ++
  [(5000%nat, EOT_CHAR)].

(** The state in which the header wait of a run leaves the machine. *)
Definition after_header (E : env) (fuel : nat) (w : world) : world :=
  (wait_for_len_or_error E fuel w).2.

(** *** Reading back an escaped string *)

(** The character a backslash and [e] stand for. *)
Definition unescape_char (e : Z) : option Z :=
  if e =? 34 then Some 34
  else if e =? 92 then Some 92
  else if e =? 110 then Some 10
  else if e =? 114 then Some 13
  else if e =? 116 then Some 9
  else None.

(** The text of a JSON string body: escapes are decoded, a bare quote, a
    lone backslash or a byte outside printable ASCII is refused. *)
Fixpoint json_unescape (l : list Z) : option (list Z) :=
  match l with
  | [] => Some []
  | c :: r =>
      if c =? 92 then
        match r with
        | e :: r' =>
            match unescape_char e, json_unescape r' with
            | Some d, Some s => Some (d :: s)
            | _, _ => None
            end
        | [] => None
        end
      else if (c =? 34) || negb (printable c) then None
      else match json_unescape r with
           | Some s => Some (c :: s)
           | None => None
           end
  end.

(** The bytes the escaping keeps: printable ASCII, newline, carriage
    return and tab. *)
Definition encodable (c : Z) : bool :=
  printable c || (c =? 10) || (c =? 13) || (c =? 9).

(** *** The text of a request *)

(** The bytes of a C string in the store: none is NUL. *)
Definition is_string (s : list Z) : Prop := Forall (fun c => 0 < c < 256) s.

(** Turns that hold strings. *)
Definition strings (ts : list History.ChatTurn) : Prop :=
  Forall (fun t => is_string (History.role t) /\ is_string (History.content t)) ts.

Definition turn_json (t : History.ChatTurn) : list Z :=
  turn_open ++ History.role t ++ turn_mid ++
  escaped (History.content t) ++ turn_close.

(** The turns, with a comma before each but the first. *)
Fixpoint turns_json (first : bool) (ts : list History.ChatTurn) : list Z :=
  match ts with
  | [] => []
  | t :: r => (if first then [] else [44]) ++ turn_json t ++ turns_json false r
  end.

(** The request line, without the newline that ends it. *)
Definition request_line (h : History.ChatHistory) (prompt : list Z) : list Z :=
  json_open ++ turns_json true (History.stored h) ++
  prompt_open ++ escaped prompt ++ [34] ++ str "}".

(** *** Lengths in decimal *)

(** The decimal digits of [n], most significant first; [fuel] bounds
    their number. *)
Fixpoint decimal_digits (fuel : nat) (n : Z) : list Z :=
  match fuel with
  | O => []
  | S f =>
      if n <? 10 then [48 + n]
      else decimal_digits f (n / 10) ++ [48 + n mod 10]
  end.

(** A number of the [int] range as the sender writes it. *)
Definition decimal (n : Z) : list Z := decimal_digits 10 n.

(** The bytes [items] are on the link when the machine is at [w]. *)
Definition available (w : world) (items : list (nat * Z)) : Prop :=
  Forall (fun it => (it.1 <= tick w)%nat) items.

(** The machine after the header wait gave up at tick [t]. *)
Definition timed_out_at (t : nat) (w : world) : world :=
  mkWorld t (rx w) (chan w)
          (AddLine (str "[Timeout waiting for response]") :: sink w)
          (buf w) (stores w).

(** *** What a run may do to the link *)

(** Every state a computation can reach from [w], with or without fuel
    left, is related to [w] by [R]. *)
Definition keeps (R : world -> world -> Prop) {A} (m : M A) : Prop :=
  forall w, R w (m w).2.

(** Nothing was sent. *)
Definition quiet (w w' : world) : Prop := sent w' = sent w.

(** Only acknowledgements were sent. *)
Definition acked (w w' : world) : Prop :=
  exists k, sent w' = sent w ++ replicate k (Tx 65).

(** The link log went on and nothing was shown. *)
Definition went_on (w w' : world) : Prop :=
  (exists evs, trace w' = trace w ++ evs) /\ sink w' = sink w.

(** Of the messages [msgs], the first few were sent, whole and in
    order, and nothing else. *)
Definition sent_some (msgs : list (list Z)) (w w' : world) : Prop :=
  exists k, sent w' = sent w ++ map Tx (concat (take k msgs)).

(** The messages of the handshake. *)
Definition handshake_msgs : list (list Z) :=
  [[10; 10; 10; 10; 10]; str "RST" ++ [10]; str "SYNC" ++ [10]].

(** The line buffer of the handshake after the characters [l]. *)
Definition line_of (line l : list Z) : list Z :=
  fold_left (line_push true) l line.

(** *** What a run may do to the buffer and to the bytes to come *)

(** The bytes received so far, in order. *)
Definition rcvd (w : world) : list Z :=
  omap (fun e => match e with Rx b => Some b | Tx _ => None end) (trace w).

(** The bytes received since [w] are the first of those that were to
    come, and the others are still to come. *)
Definition reads (w w' : world) : Prop :=
  exists k, rx w' = drop k (rx w) /\
            rcvd w' = rcvd w ++ map snd (take k (rx w)).

(** The response buffer was not written. *)
Definition same_buf (w w' : world) : Prop := buf w' = buf w.

(** Triples over the response buffer: from a buffer with [P], a run of
    [m] that returns [a] leaves a buffer with [Q a]. *)
Definition hoare {A} (P : list Z -> Prop) (m : M A)
  (Q : A -> list Z -> Prop) : Prop :=
  forall w a w', P (buf w) -> m w = (Some a, w') -> Q a (buf w').

(** *** More concrete runs *)

(** A bridge that answers the handshake: AWAKE to the wake bytes,
    ESP_READY to RST and READY to SYNC. *)
Definition answering : list (nat * Z) :=
  staggered 1100 1 (str "AWAKE" ++ [10]) ++
  staggered 1200 1 (str "ESP_READY" ++ [13; 10]) ++
  staggered 2100 1 (str "READY" ++ [13; 10]).

(** A short conversation. *)
Definition chat : list (list Z * list Z) :=
  [(str "user", str "hi"); (str "model", str "ho")].

Definition chat_history : History.ChatHistory :=
  History.appends chat History.history_init.

(** The console of the calculator: 53 columns, 30 rows. *)
Definition screen_cols : Z := 53.
Definition screen_rows : Z := 30.

(** A scrollback of 40 lines, scrolled 5 lines up. *)
Definition scrolled : Display.ScrollBuffer :=
  Display.mkScroll (Display.lines (Display.scroll_init screen_cols)) 40 5.

(** The key of the letter h alone. *)
Definition key_h (i : nat) : bool := Nat.eqb i 7.

Definition error_reply : list Z := str "ERR:oops" ++ [10].
Definition malformed_reply : list Z := str "LEN:abc" ++ [10].

(** * Properties *)

Local Arguments Nat.leb : simpl never.

(** ** Running computations *)

Lemma bind_spec {A B} (m : M A) (k : A -> M B) w a w1 :
  m w = (Some a, w1) -> (m ≫= k) w = k a w1.
Proof. intros H. unfold mbind, M_bind. rewrite H. done. Qed.

Lemma bind_none {A B} (m : M A) (k : A -> M B) w w1 :
  m w = (None, w1) -> (m ≫= k) w = (None, w1).
Proof. intros H. unfold mbind, M_bind. rewrite H. done. Qed.

Lemma loop_S {S R} (body : nat -> S -> M (S + R)) n s w :
  loop body (Datatypes.S n) s w =
  match body n s w with
  | (Some (inl s'), w') => loop body n s' w'
  | (Some (inr r), w') => (Some r, w')
  | (None, w') => (None, w')
  end.
Proof.
  simpl. unfold mbind, M_bind. destruct (body n s w) as [[[s'|r]|] w']; done.
Qed.

Lemma trace_cons t e w r s b st :
  trace (mkWorld t r (e :: chan w) s b st) = trace w ++ [e.2].
Proof. unfold trace. simpl. rewrite map_app. done. Qed.

(** Runs the first computation of a sequence, given its result. *)
Tactic Notation "bind_step" "by" tactic3(tac) :=
  lazymatch goal with
  | |- (?m ≫= ?k) ?w = _ =>
      erewrite (bind_spec m k w) by tac; cbv beta iota
  end.

Ltac run :=
  unfold mbind, M_bind, mret, M_ret, get_time_ms, uart_has_data,
    uart_read_char, isKeyPressed_ESC, idle, nio_printf, to_sink, rx_ready,
    tock, at_tick; simpl.

(** ** The history store *)

Module HistoryFacts.
Import History.

Lemma shift_down_cons t r : shift_down (t :: r) = r ++ [default t (last r)].
Proof.
  unfold shift_down. f_equal.
  destruct r as [|t' r] using rev_ind; [done|].
  rewrite app_comm_cons, !last_snoc. done.
Qed.

Lemma history_add_stored r c h :
  wf h ->
  let h' := history_add r c h in
  wf h' /\
  (if count h =? MAX_HISTORY_TURNS
   then stored h' = tail (stored h) ++ [mkTurn (cstr r) (cstr c)]
        /\ freed h' = freed h ++ map content (take 1 (stored h))
   else stored h' = stored h ++ [mkTurn (cstr r) (cstr c)]
        /\ freed h' = freed h)
  /\ count h' = Z.min MAX_HISTORY_TURNS (count h + 1).
Proof.
  intros [Hlen Hc]. unfold history_add, stored, capacity in *.
  unfold MAX_HISTORY_TURNS in *.
  change (Z.to_nat 20) with 20%nat in *.
  destruct (count h >=? 20) eqn:Hge.
  - assert (count h = 20) as Hc20 by lia. rewrite Hc20. simpl.
    destruct (turns h) as [|t0 tl] eqn:Ht; [simpl in Hlen; lia|].
    rewrite shift_down_cons. simpl in Hlen.
    assert (length tl = 19%nat) as Hr by lia.
    change (Z.to_nat (20 - 1)) with 19%nat.
    change (Z.to_nat (20 - 1 + 1)) with 20%nat.
    set (x := mkTurn (cstr r) (cstr c)).
    assert (<[19%nat := x]> (tl ++ [default t0 (last tl)]) = tl ++ [x]) as ->.
    { rewrite insert_app_r_alt by lia. rewrite Hr. done. }
    split; [|split].
    + split; simpl; unfold capacity; unfold MAX_HISTORY_TURNS; [|lia].
      rewrite length_app. simpl. lia.
    + rewrite take_ge by (rewrite length_app; simpl; lia).
      rewrite (take_ge (t0 :: tl)) by (simpl; lia). done.
    + lia.
  - assert (count h < 20) as Hlt by lia.
    replace (count h =? 20) with false by lia. simpl.
    split; [|split].
    + split; simpl; unfold capacity; unfold MAX_HISTORY_TURNS; [|lia].
      rewrite length_insert. done.
    + split; [|done].
      replace (Z.to_nat (count h + 1)) with (S (Z.to_nat (count h))) by lia.
      erewrite take_S_r.
      2:{ apply list_lookup_insert_eq. lia. }
      rewrite take_insert_ge by lia. done.
    + lia.
Qed.

Lemma appends_snoc ps p h : appends (ps ++ [p]) h = history_add p.1 p.2 (appends ps h).
Proof. unfold appends. rewrite fold_left_app. done. Qed.

Lemma history_init_wf : wf history_init.
Proof. split; [done | unfold MAX_HISTORY_TURNS; simpl; lia]. Qed.

Lemma tail_drop {A} (l : list A) n : tail (drop n l) = drop (S n) l.
Proof.
  replace (S n) with (n + 1)%nat by lia. rewrite <- drop_drop.
  by destruct (drop n l).
Qed.

Lemma appends_inv ps :
  let h := appends ps history_init in
  let k := length ps in
  wf h /\
  count h = Z.min MAX_HISTORY_TURNS (Z.of_nat k) /\
  stored h = drop (k - capacity) (map turn_of ps) /\
  freed h = map content (take (k - capacity) (map turn_of ps)).
Proof.
  induction ps as [|p ps IH] using rev_ind.
  - simpl. split; [apply history_init_wf|]. unfold MAX_HISTORY_TURNS. done.
  - simpl in *. destruct IH as (Hwf & Hcnt & Hst & Hfr).
    rewrite appends_snoc.
    pose proof (history_add_stored p.1 p.2 _ Hwf) as (Hwf' & Hcase & Hcnt').
    simpl in Hcase, Hcnt'. rewrite length_app. simpl.
    split; [done|]. split; [unfold MAX_HISTORY_TURNS in *; lia|].
    rewrite map_app. simpl. fold (turn_of p).
    unfold capacity in *. unfold MAX_HISTORY_TURNS in *.
    change (Z.to_nat 20) with 20%nat in *.
    assert (length (map turn_of ps) = length ps) as Hl by apply length_map.
    destruct (count (appends ps history_init) =? 20) eqn:Hfull.
    + destruct Hcase as [-> ->]. rewrite Hst, Hfr.
      assert (20 <= length ps)%nat as Hk by lia.
      replace (length ps + 1 - 20)%nat with (S (length ps - 20)) by lia.
      rewrite tail_drop, drop_app_le, take_app_le by lia.
      split; [done|].
      rewrite <- map_app. f_equal.
      rewrite take_take_drop. f_equal. lia.
    + destruct Hcase as [-> ->]. rewrite Hst, Hfr.
      assert (length ps < 20)%nat as Hk by lia.
      replace (length ps + 1 - 20)%nat with 0%nat by lia.
      replace (length ps - 20)%nat with 0%nat by lia.
      done.
Qed.

End HistoryFacts.

(** ** Writing to the link *)

Lemma wrote_refl w : wrote [] w w.
Proof. unfold wrote. simpl. rewrite app_nil_r. repeat split; lia. Qed.

Lemma wrote_trans a b w1 w2 w3 : wrote a w1 w2 -> wrote b w2 w3 -> wrote (a ++ b) w1 w3.
Proof.
  unfold wrote. intros (?&?&?&?&?&?) (?&?&?&?&?&?).
  rewrite map_app, length_app, app_assoc. repeat split; try congruence; lia.
Qed.

Lemma uart_write_char_spec c w :
  exists w', uart_write_char c w = (Some tt, w') /\ wrote [c] w w'.
Proof.
  eexists. split; [reflexivity|]. unfold wrote. simpl.
  unfold trace. simpl. rewrite map_app. simpl. repeat split; lia.
Qed.

Lemma uart_write_str_spec s w :
  Forall (fun c => c <> 0) s ->
  exists w', uart_write_str s w = (Some tt, w') /\ wrote s w w'.
Proof.
  intros Hs. revert w. induction Hs as [|c s Hc Hs IH]; intros w.
  - eexists. split; [reflexivity|]. apply wrote_refl.
  - simpl. replace (c =? 0) with false by lia.
    destruct (uart_write_char_spec c w) as (w1 & H1 & W1).
    destruct (IH w1) as (w2 & H2 & W2).
    exists w2. split.
    + erewrite bind_spec by exact H1. done.
    + apply (wrote_trans [c] s _ _ _ W1 W2).
Qed.

Lemma json_escape_to_uart_spec cs s w :
  Forall (fun c => 0 < c < 256) s ->
  exists w', json_escape_to_uart cs s w = (Some tt, w') /\ wrote (escaped s) w w'.
Proof.
  intros Hs. revert w. induction Hs as [|c s Hc Hs IH]; intros w.
  - eexists. split; [reflexivity|]. apply wrote_refl.
  - simpl. replace (c =? 0) with false by lia.
    assert (exists w1, (if c =? 34 then uart_write_str [92; 34]
         else if c =? 92 then uart_write_str [92; 92]
         else if c =? 10 then uart_write_str [92; 110]
         else if c =? 13 then uart_write_str [92; 114]
         else if c =? 9 then uart_write_str [92; 116]
         else if (32 <=? char_val cs c) && (char_val cs c <? 127)
              then uart_write_char c
              else mret tt) w = (Some tt, w1) /\ wrote (escape_byte c) w w1) as (w1 & H1 & W1).
    { unfold escape_byte.
      repeat (case_match; [apply uart_write_str_spec; repeat constructor; lia|]).
      assert ((32 <=? char_val cs c) && (char_val cs c <? 127) = printable c) as ->.
      { unfold char_val, printable. destruct cs; simpl; [|lia].
        case_match; simpl; lia. }
      case_match; [apply uart_write_char_spec|].
      eexists. split; [reflexivity|]. apply wrote_refl. }
    destruct (IH w1) as (w2 & H2 & W2).
    exists w2. split.
    + erewrite bind_spec by exact H1. done.
    + unfold escaped. simpl. apply (wrote_trans _ _ _ _ _ W1 W2).
Qed.

(** ** The clock and timed waits *)

Lemma elapsed_now_ms E t t' :
  elapsed (now_ms E t') (now_ms E t) = ((secs E t' - secs E t) * 1000) mod two32.
Proof.
  unfold elapsed, now_ms.
  rewrite !Zmult_mod_idemp_l, <- Zminus_mod. f_equal. lia.
Qed.

Lemma steady_le E t t' :
  steady E -> (t <= t')%nat ->
  secs E t <= secs E t' <= secs E t + Z.of_nat (t' - t).
Proof.
  intros Hs Hle. induction Hle as [|t' Hle IH].
  - rewrite Nat.sub_diag. simpl. lia.
  - specialize (Hs t'). replace (S t' - t)%nat with (S (t' - t)) by lia. lia.
Qed.

Lemma elapsed_exact E ts t :
  steady E -> (ts <= t)%nat ->
  (secs E t - secs E ts) * 1000 < two32 ->
  elapsed (now_ms E t) (now_ms E ts) = (secs E t - secs E ts) * 1000.
Proof.
  intros Hs Hle Hlt. rewrite elapsed_now_ms.
  pose proof (steady_le E ts t Hs Hle). apply Z.mod_small. lia.
Qed.

Lemma running_far E :
  steady E -> running E ->
  forall (k : nat) t, exists t', (t <= t')%nat /\ secs E t + Z.of_nat k <= secs E t'.
Proof.
  intros Hs Hr. induction k as [|k IH]; intros t.
  - exists t. split; [lia|]. simpl. lia.
  - destruct (IH t) as (t1 & Hle1 & H1). destruct (Hr t1) as (t2 & Hle2 & H2).
    exists t2. split; lia.
Qed.

Section TimedLoop.
Context (E : env) (Hst : steady E) (Hrun : running E).
Context {S R : Type} (body : nat -> S -> M (S + R)).
Context (Inv : S -> world -> Prop) (Post : R -> world -> Prop).
Context (ts : nat) (D : Z) (c k0 : nat).

Hypothesis body_step : forall s w,
  Inv s w -> (ts <= tick w)%nat ->
  since E ts w < D + 1000 * Z.of_nat c ->
  exists x w',
    (forall n, (k0 <= n)%nat -> body n s w = (Some x, w')) /\
    (tick w < tick w' <= tick w + c)%nat /\
    match x with
    | inl s' => since E ts w < D /\ Inv s' w'
    | inr r => Post r w'
    end.

Lemma timed_loop_total s w :
  Inv s w -> (ts <= tick w)%nat -> since E ts w < D + 1000 * Z.of_nat c ->
  exists n0 r w',
    (forall fuel, (n0 <= fuel)%nat -> loop body fuel s w = (Some r, w')) /\
    Post r w'.
Proof using Hst Hrun body_step.
  destruct (running_far E Hst Hrun (Z.to_nat (D / 1000 + 1)) ts) as (T & HT & Hfar).
  assert (D <= (secs E T - secs E ts) * 1000) as HfarD.
  { pose proof (Z.mod_pos_bound D 1000 ltac:(lia)).
    pose proof (Z.div_mod D 1000 ltac:(lia)). lia. }
  clear Hfar.
  remember (T - tick w)%nat as m eqn:Hm.
  revert s w Hm. induction (lt_wf m) as [m _ IH]. intros s w Hm HI Hts Hsince.
  destruct (body_step s w HI Hts Hsince) as (x & w' & Hx & Htk & Hcase).
  destruct x as [s'|r].
  - destruct Hcase as [Hlt HI'].
    assert (tick w < T)%nat as HltT.
    { destruct (decide (tick w < T)%nat) as [|Hge]; [done|].
      pose proof (steady_le E T (tick w) Hst ltac:(lia)). unfold since in Hlt. lia. }
    assert (since E ts w' < D + 1000 * Z.of_nat c) as Hs'.
    { pose proof (steady_le E (tick w) (tick w') Hst ltac:(lia)).
      unfold since in *. lia. }
    destruct (IH (T - tick w')%nat ltac:(lia) s' w' eq_refl HI' ltac:(lia) Hs')
      as (n0 & r & w'' & Hloop & HP).
    exists (Datatypes.S (Nat.max k0 n0)), r, w''. split; [|done].
    intros [|n] Hn; [lia|]. rewrite loop_S, Hx by lia. apply Hloop. lia.
  - exists (Datatypes.S k0), r, w'. split; [|done].
    intros [|n] Hn; [lia|]. rewrite loop_S, Hx by lia. done.
Qed.
End TimedLoop.

(** ** The handshake on a silent link *)

Section Silent.
Context (E : env) (Hst : steady E) (Hrun : running E).
Context (Hesc : forall t, esc_key E t = false).

Lemma uart_drain_silent ms w :
  0 < ms <= 100000 -> rx w = [] ->
  exists n0 t',
    (forall fuel, (n0 <= fuel)%nat ->
       uart_drain E ms fuel w = (Some tt, at_tick t' w)) /\
    (tick w < t')%nat /\ ms <= (secs E t' - secs E (tick w)) * 1000.
Proof using Hst Hrun.
  intros Hms Hrx. unfold uart_drain.
  destruct (timed_loop_total E Hst Hrun
    (uart_drain_step E (now_ms E (tick w)) ms)
    (fun _ w' => exists t, w' = at_tick t w /\ (tick w < t)%nat)
    (fun _ w' => exists t, w' = at_tick t w /\ (tick w < t)%nat /\
                           ms <= (secs E t - secs E (tick w)) * 1000)
    (tick w) ms 3 1) with (s := tt) (w := tock w) as (n0 & [] & w' & Hloop & Hpost).
  - intros [] w1 (t & -> & Ht) _ Hsince. unfold since in Hsince. simpl in Hsince.
    pose proof (steady_le E (tick w) t Hst ltac:(lia)) as Hmono.
    pose proof (steady_le E t (S t) Hst ltac:(lia)) as Hmono1.
    unfold uart_drain_step.
    destruct (Z.ltb_spec ((secs E t - secs E (tick w)) * 1000) ms) as [Hlt|Hge].
    + exists (inl tt), (at_tick (t + 3) w). split; [|split].
      * intros [|n] Hn; [lia|]. run.
        rewrite elapsed_exact by (try done; unfold two32; lia).
        replace (_ <? ms) with true by lia.
        rewrite Hrx. simpl. do 3 f_equal. lia.
      * simpl. lia.
      * split; [done|]. exists (t + 3)%nat. split; [done|lia].
    + exists (inr tt), (at_tick (S t) w). split; [|split].
      * intros n Hn. run.
        rewrite elapsed_exact by (try done; unfold two32; lia).
        replace (_ <? ms) with false by lia. done.
      * simpl. lia.
      * exists (S t). split; [done|]. split; [lia|]. lia.
  - exists (S (tick w)). split; [done|lia].
  - simpl. lia.
  - unfold since. simpl. pose proof (steady_le E (tick w) (S (tick w)) Hst ltac:(lia)). lia.
  - destruct Hpost as (t' & -> & Ht' & Hel).
    exists n0, t'. split; [|done].
    intros fuel Hfuel. run. apply Hloop. done.
Qed.

Lemma await_wake_silent w ts :
  rx w = [] -> tick w = S ts ->
  exists n0 t',
    (forall fuel, (n0 <= fuel)%nat ->
       await_wake E (now_ms E ts) fuel [] w = (Some tt, at_tick t' w)) /\
    (tick w < t')%nat /\ 2000 <= (secs E t' - secs E ts) * 1000.
Proof using Hst Hrun.
  intros Hrx Hts. unfold await_wake.
  destruct (timed_loop_total E Hst Hrun
    (await_wake_step E (now_ms E ts))
    (fun line w' => line = [] /\ exists t, w' = at_tick t w /\ (ts < t)%nat)
    (fun _ w' => exists t, w' = at_tick t w /\ (tick w < t)%nat /\
                           2000 <= (secs E t - secs E ts) * 1000)
    ts 2000 2 0) with (s := @nil Z) (w := w) as (n0 & [] & w' & Hloop & Hpost).
  - intros line w1 (-> & t & -> & Ht) _ Hsince. unfold since in Hsince. simpl in Hsince.
    pose proof (steady_le E ts t Hst ltac:(lia)) as Hmono.
    pose proof (steady_le E t (S t) Hst ltac:(lia)) as Hmono1.
    unfold await_wake_step.
    destruct (Z.ltb_spec ((secs E t - secs E ts) * 1000) 2000) as [Hlt|Hge].
    + exists (inl []), (at_tick (t + 2) w). split; [|split].
      * intros n Hn. run.
        rewrite elapsed_exact by (try done; unfold two32; lia).
        replace (_ <? 2000) with true by lia.
        rewrite Hrx. simpl. do 3 f_equal. lia.
      * simpl. lia.
      * split; [done|]. split; [done|]. exists (t + 2)%nat. split; [done|lia].
    + exists (inr tt), (at_tick (S t) w). split; [|split].
      * intros n Hn. run.
        rewrite elapsed_exact by (try done; unfold two32; lia).
        replace (_ <? 2000) with false by lia. done.
      * simpl. lia.
      * exists (S t). split; [done|]. split; lia.
  - split; [done|]. exists (tick w). split; [by destruct w|lia].
  - lia.
  - unfold since. rewrite Hts.
    pose proof (steady_le E ts (S ts) Hst ltac:(lia)). lia.
  - destruct Hpost as (t' & -> & Ht' & Hel).
    exists n0, t'. split; [|done]. exact Hloop.
Qed.

Lemma await_ready_silent w ts :
  rx w = [] -> tick w = S ts ->
  exists n0 t',
    (forall fuel, (n0 <= fuel)%nat ->
       await_ready E (now_ms E ts) fuel [] w = (Some ReadyNext, at_tick t' w)) /\
    (tick w < t')%nat /\ 15000 <= (secs E t' - secs E ts) * 1000.
Proof using Hst Hrun Hesc.
  intros Hrx Hts. unfold await_ready.
  destruct (timed_loop_total E Hst Hrun
    (await_ready_step E (now_ms E ts))
    (fun line w' => line = [] /\ exists t, w' = at_tick t w /\ (ts < t)%nat)
    (fun r w' => r = ReadyNext /\ exists t, w' = at_tick t w /\ (tick w < t)%nat /\
                           15000 <= (secs E t - secs E ts) * 1000)
    ts 15000 4 0) with (s := @nil Z) (w := w) as (n0 & r & w' & Hloop & Hpost).
  - intros line w1 (-> & t & -> & Ht) _ Hsince. unfold since in Hsince. simpl in Hsince.
    pose proof (steady_le E ts t Hst ltac:(lia)) as Hmono.
    pose proof (steady_le E t (S t) Hst ltac:(lia)) as Hmono1.
    unfold await_ready_step.
    destruct (Z.ltb_spec ((secs E t - secs E ts) * 1000) 15000) as [Hlt|Hge].
    + exists (inl []), (at_tick (t + 4) w). split; [|split].
      * intros n Hn. run.
        rewrite elapsed_exact by (try done; unfold two32; lia).
        replace (_ <? 15000) with true by lia.
        rewrite Hesc, Hrx. simpl. do 3 f_equal. lia.
      * simpl. lia.
      * split; [done|]. split; [done|]. exists (t + 4)%nat. split; [done|lia].
    + exists (inr ReadyNext), (at_tick (S t) w). split; [|split].
      * intros n Hn. run.
        rewrite elapsed_exact by (try done; unfold two32; lia).
        replace (_ <? 15000) with false by lia. done.
      * simpl. lia.
      * split; [done|]. exists (S t). split; [done|]. split; lia.
  - split; [done|]. exists (tick w). split; [by destruct w|lia].
  - lia.
  - unfold since. rewrite Hts.
    pose proof (steady_le E ts (S ts) Hst ltac:(lia)). lia.
  - destruct Hpost as (-> & t' & -> & Ht' & Hel).
    exists n0, t'. split; [|done]. exact Hloop.
Qed.

Lemma await_ack_silent w ts :
  rx w = [] -> tick w = S ts ->
  exists n0 t',
    (forall fuel, (n0 <= fuel)%nat ->
       await_ack E (now_ms E ts) fuel [] w = (Some false, failed_at t' w)) /\
    (tick w < t')%nat /\ 5000 <= (secs E t' - secs E ts) * 1000.
Proof using Hst Hrun.
  intros Hrx Hts. unfold await_ack.
  destruct (timed_loop_total E Hst Hrun
    (await_ack_step E (now_ms E ts))
    (fun line w' => line = [] /\ exists t, w' = at_tick t w /\ (ts < t)%nat)
    (fun r w' => r = false /\ exists t, w' = failed_at t w /\ (tick w < t)%nat /\
                           5000 <= (secs E t - secs E ts) * 1000)
    ts 5000 3 0) with (s := @nil Z) (w := w) as (n0 & r & w' & Hloop & Hpost).
  - intros line w1 (-> & t & -> & Ht) _ Hsince. unfold since in Hsince. simpl in Hsince.
    pose proof (steady_le E ts t Hst ltac:(lia)) as Hmono.
    pose proof (steady_le E t (S (S t)) Hst ltac:(lia)) as Hmono1.
    unfold await_ack_step.
    destruct (Z.ltb_spec ((secs E t - secs E ts) * 1000) 5000) as [Hlt|Hge].
    + exists (inl []), (at_tick (t + 3) w). split; [|split].
      * intros n Hn. run.
        rewrite elapsed_exact by (try done; unfold two32; lia).
        replace (_ <? 5000) with true by lia.
        rewrite Hrx. simpl. do 3 f_equal. lia.
      * simpl. lia.
      * split; [done|]. split; [done|]. exists (t + 3)%nat. split; [done|lia].
    + exists (inr false), (failed_at (S (S t)) w). split; [|split].
      * intros n Hn. run.
        rewrite elapsed_exact by (try done; unfold two32; lia).
        replace (_ <? 5000) with false by lia. done.
      * simpl. lia.
      * split; [done|]. exists (S (S t)). split; [done|]. split; lia.
  - split; [done|]. exists (tick w). split; [by destruct w|lia].
  - lia.
  - unfold since. rewrite Hts.
    pose proof (steady_le E ts (S ts) Hst ltac:(lia)). lia.
  - destruct Hpost as (-> & t' & -> & Ht' & Hel).
    exists n0, t'. split; [|done]. exact Hloop.
Qed.
End Silent.

(** C9. When no byte ever arrives (and ESC is left alone, on a steady,
    running clock) the handshake returns failure, having shown
    [Connection failed.]; it wrote the wake bytes, then RST at least 2 s
    later, then SYNC at least 15 s after RST, and gave up at least 5 s
    after SYNC: the failure comes after the 15 s of the wait for
    ESP_READY have passed, not after the first 2 s. *)
Theorem handshake_silent E w :
  steady E -> running E -> (forall t, esc_key E t = false) -> rx w = [] ->
  exists n0 t_wake t_rst t_sync w',
    (forall fuel, (n0 <= fuel)%nat -> uart_handshake E fuel w = (Some false, w')) /\
    chan w' = rev (stamp t_sync (str "SYNC" ++ [10])) ++
              rev (stamp t_rst (str "RST" ++ [10])) ++
              rev (stamp t_wake [10; 10; 10; 10; 10]) ++ chan w /\
    shown w' = shown w ++ [Printf (str "Connecting to ESP32..." ++ [10]);
                           Printf (str "Connection failed." ++ [10])] /\
    2000 <= (secs E t_rst - secs E t_wake) * 1000 /\
    15000 <= (secs E t_sync - secs E t_rst) * 1000 /\
    5000 <= (secs E (tick w') - secs E t_sync) * 1000.
Proof.
  intros Hst Hrun Hesc Hrx.
  pose (w1 := mkWorld (S (tick w)) (rx w) (chan w)
               (Printf (str "Connecting to ESP32..." ++ [10]) :: sink w) (buf w) (stores w)).
  destruct (uart_drain_silent E Hst Hrun 100 w1 ltac:(lia) Hrx) as (n1 & t1 & H1 & Ht1 & _).
  pose (w2 := mkWorld (6 + t1) (rx w)
               (rev (stamp t1 [10; 10; 10; 10; 10]) ++ chan w) (sink w1) (buf w) (stores w)).
  destruct (await_wake_silent E Hst Hrun w2 (5 + t1) Hrx eq_refl)
    as (n2 & t2 & H2 & Ht2 & Hel2).
  pose (w3 := mkWorld (5 + t2) (rx w)
               (rev (stamp t2 (str "RST" ++ [10])) ++ chan w2) (sink w1) (buf w) (stores w)).
  destruct (await_ready_silent E Hst Hrun Hesc w3 (4 + t2) Hrx eq_refl)
    as (n3 & t3 & H3 & Ht3 & Hel3).
  destruct (uart_drain_silent E Hst Hrun 50 (at_tick t3 w3) ltac:(lia) Hrx)
    as (n4 & t4 & H4 & Ht4 & _).
  pose (w5 := mkWorld (6 + t4) (rx w)
               (rev (stamp t4 (str "SYNC" ++ [10])) ++ chan w3) (sink w1) (buf w) (stores w)).
  destruct (await_ack_silent E Hst Hrun w5 (5 + t4) Hrx eq_refl)
    as (n5 & t5 & H5 & Ht5 & Hel5).
  exists (n1 + n2 + n3 + n4 + n5)%nat, t1, t2, t4, (failed_at t5 w5).
  simpl in Ht1, Ht2, Ht3, Ht4, Ht5.
  split; [|split; [|split; [|split; [|split]]]].
  - intros fuel Hfuel. unfold uart_handshake.
    change (str "RST" ++ [10]) with [82; 83; 84; 10].
    change (str "SYNC" ++ [10]) with [83; 89; 78; 67; 10].
    erewrite bind_spec by reflexivity.
    erewrite bind_spec by (apply H1; lia).
    erewrite bind_spec by reflexivity.
    erewrite bind_spec by reflexivity.
    erewrite bind_spec by (apply H2; lia).
    erewrite bind_spec by reflexivity.
    erewrite bind_spec by reflexivity.
    erewrite bind_spec by (apply H3; lia). cbv beta iota.
    erewrite bind_spec by (apply H4; lia).
    erewrite bind_spec by reflexivity.
    erewrite bind_spec by reflexivity.
    apply H5. lia.
  - reflexivity.
  - unfold shown. simpl. by rewrite <- app_assoc.
  - pose proof (steady_le E t1 (5 + t1) Hst ltac:(lia)).
    pose proof (steady_le E (5 + t1) t2 Hst ltac:(lia)). lia.
  - pose proof (steady_le E t2 (4 + t2) Hst ltac:(lia)).
    pose proof (steady_le E t3 t4 Hst ltac:(lia)). lia.
  - simpl. pose proof (steady_le E t4 (5 + t4) Hst ltac:(lia)).
    pose proof (steady_le E (5 + t4) t5 Hst ltac:(lia)). lia.
Qed.

(** ** Stores stay inside the response buffer *)

Lemma kept_ret {A} (a : A) : stores_kept (mret a).
Proof. done. Qed.

Lemma kept_bind {A B} (m : M A) (k : A -> M B) :
  stores_kept m -> (forall a, stores_kept (k a)) -> stores_kept (m ≫= k).
Proof.
  intros Hm Hk w. unfold mbind, M_bind. specialize (Hm w).
  destruct (m w) as [[a|] w1]; simpl in *; [|done].
  rewrite Hk. done.
Qed.

Lemma kept_loop {S R} (body : nat -> S -> M (S + R)) :
  (forall n s, stores_kept (body n s)) -> forall fuel s, stores_kept (loop body fuel s).
Proof.
  intros Hb fuel. induction fuel as [|n IH]; intros s; [done|].
  simpl. apply kept_bind; [apply Hb|]. intros [s'|r]; [apply IH|apply kept_ret].
Qed.

Lemma kept_if {A} (b : bool) (m1 m2 : M A) :
  stores_kept m1 -> stores_kept m2 -> stores_kept (if b then m1 else m2).
Proof. by destruct b. Qed.

Lemma kept_get_time_ms E : stores_kept (get_time_ms E). Proof. done. Qed.
Lemma kept_uart_has_data : stores_kept uart_has_data. Proof. done. Qed.
Lemma kept_uart_read_char : stores_kept uart_read_char.
Proof. intros w. unfold uart_read_char. by repeat case_match. Qed.
Lemma kept_uart_write_char c : stores_kept (uart_write_char c). Proof. done. Qed.
Lemma kept_isKeyPressed_ESC E : stores_kept (isKeyPressed_ESC E). Proof. done. Qed.
Lemma kept_idle : stores_kept idle. Proof. done. Qed.
Lemma kept_to_sink e : stores_kept (to_sink e). Proof. done. Qed.
Lemma kept_read_buf : stores_kept read_buf. Proof. done. Qed.

Create HintDb kept.
#[export] Hint Resolve kept_ret kept_get_time_ms kept_uart_has_data kept_uart_read_char
  kept_uart_write_char kept_isKeyPressed_ESC kept_idle kept_to_sink kept_read_buf : kept.

Ltac kept :=
  repeat first
    [ apply kept_bind; [|intros ?]
    | apply kept_if
    | apply kept_loop; intros ? ?
    | match goal with |- stores_kept (match ?x with _ => _ end) => destruct x end
    | solve [unfold scroll_add_line, scroll_add_text, redraw, nio_printf; auto with kept] ].

Lemma kept_wait_for_len_or_error E fuel : stores_kept (wait_for_len_or_error E fuel).
Proof. unfold wait_for_len_or_error, wait_header_step. kept. Qed.

Lemma kept_wait_eot E start fuel : stores_kept (wait_eot E start fuel).
Proof. unfold wait_eot, wait_eot_step. kept. Qed.

Lemma striple_kept {A} I (P : list Z -> Prop) (m : M A) (Q : A -> list Z -> Prop) :
  stores_kept m -> (forall l, P l -> I l) -> (forall l a, P l -> Q a l) ->
  striple I P m Q.
Proof.
  intros Hk HI HQ w Hw. red in Hk. rewrite Hk.
  split; [apply HI, Hw|]. intros a _. apply HQ, Hw.
Qed.

Lemma striple_ret {A} I (P : list Z -> Prop) (a : A) (Q : A -> list Z -> Prop) :
  (forall l, P l -> I l) -> (forall l, P l -> Q a l) -> striple I P (mret a) Q.
Proof.
  intros HI HQ w Hw. simpl. split; [apply HI, Hw|].
  intros ? [= <-]. apply HQ, Hw.
Qed.

Lemma striple_bind {A B} I P (m : M A) R (k : A -> M B) Q :
  striple I P m R -> (forall a, striple I (R a) (k a) Q) -> striple I P (m ≫= k) Q.
Proof.
  intros Hm Hk w Hw. unfold mbind, M_bind. destruct (Hm w Hw) as [HI HR].
  destruct (m w) as [[a|] w1]; simpl in *; [|done].
  apply Hk. by apply HR.
Qed.

Lemma striple_loop {S R} I (Inv : S -> list Z -> Prop) (body : nat -> S -> M (S + R)) Q :
  (forall s l, Inv s l -> I l) -> (forall r l, Q r l -> I l) ->
  (forall n s, striple I (Inv s) (body n s)
     (fun x l => match x with inl s' => Inv s' l | inr r => Q r l end)) ->
  forall fuel s, striple I (Inv s) (loop body fuel s) Q.
Proof.
  intros HI HQ Hb fuel. induction fuel as [|n IH]; intros s.
  - intros w Hw. simpl. split; [by eapply HI|done].
  - simpl. eapply striple_bind; [apply Hb|].
    intros [s'|r]; [apply IH|].
    apply striple_ret; [apply HQ|done].
Qed.

Lemma striple_store I (P : list Z -> Prop) i c (Q : unit -> list Z -> Prop) :
  (forall l, P l -> I (i :: l) /\ Q tt (i :: l)) -> striple I P (buf_store i c) Q.
Proof. intros H w Hw. simpl. split; [by apply H|intros [] _; by apply H]. Qed.

Lemma striple_pure {A} I (phi : Prop) (P : list Z -> Prop) (m : M A) Q :
  (phi -> striple I P m Q) -> striple I (fun l => P l /\ phi) m Q.
Proof. intros H w [Hw Hphi]. by apply H. Qed.

Lemma striple_weaken {A} I (P P' : list Z -> Prop) (m : M A) (Q Q' : A -> list Z -> Prop) :
  striple I P' m Q' -> (forall l, P l -> P' l) -> (forall a l, Q' a l -> Q a l) ->
  striple I P m Q.
Proof.
  intros H HP HQ w Hw. destruct (H w (HP _ Hw)) as [HI HQ'].
  split; [done|]. intros a Ha. by apply HQ, HQ'.
Qed.

Section Bounds.
Context (E : env) (max_len : Z).
Ltac prim := apply striple_kept; [kept | tauto | try tauto].

Lemma read_chunk_bounds received chunk_target fuel st :
  0 <= received -> received + chunk_target < max_len ->
  striple (stores_ok max_len) (fun l => (stores_ok max_len) l /\ 0 <= st.1 <= chunk_target)
    (read_chunk E received chunk_target fuel st)
    (fun r l => (stores_ok max_len) l /\ match r with
                        | ChunkEnd g _ => 0 <= g <= chunk_target
                        | _ => True
                        end).
Proof.
  intros Hr Hct. unfold read_chunk. revert fuel st.
  apply (striple_loop (stores_ok max_len) (fun st l => (stores_ok max_len) l /\ 0 <= st.1 <= chunk_target));
    [tauto | tauto |].
  intros n [chunk_got start]. unfold read_chunk_step. simpl.
  destruct (Z.ltb_spec chunk_got chunk_target) as [Hlt|Hge];
    [|apply striple_ret; [tauto | intros l [? ?]; split; [done | lia]]].
  eapply striple_bind with (R := fun _ l => (stores_ok max_len) l /\ 0 <= chunk_got <= chunk_target);
    [prim|intros now].
  case_match; [|apply striple_ret; [tauto | intros l [? ?]; split; [done | lia]]].
  eapply striple_bind with (R := fun _ l => (stores_ok max_len) l /\ 0 <= chunk_got <= chunk_target);
    [prim|intros [|]].
  - eapply striple_bind with (R := fun _ l => (stores_ok max_len) l /\ 0 <= chunk_got <= chunk_target);
      [prim|intros c].
    case_match; [apply striple_ret; tauto|].
    eapply striple_bind with (R := fun _ l => (stores_ok max_len) l /\ 0 <= chunk_got <= chunk_target).
    { apply striple_store. intros l [Hl ?].
      assert ((stores_ok max_len) (received + chunk_got :: l)) by (constructor; [lia|done]). tauto. }
    intros _.
    eapply striple_bind with (R := fun _ l => (stores_ok max_len) l /\ 0 <= chunk_got <= chunk_target);
      [prim|intros start'].
    apply striple_ret; [tauto|]. intros l [? ?]. simpl. split; [done|lia].
  - eapply striple_bind with (R := fun _ l => (stores_ok max_len) l /\ 0 <= chunk_got <= chunk_target);
      [prim|intros [|]].
    + eapply striple_bind with (R := fun _ l => (stores_ok max_len) l /\ 0 <= chunk_got <= chunk_target);
        [prim|intros _].
      eapply striple_bind with (R := fun _ l => (stores_ok max_len) l).
      { apply striple_store. intros l [Hl ?].
        assert ((stores_ok max_len) (received :: l)) by (constructor; [lia|done]). tauto. }
      intros _. eapply striple_bind with (R := fun _ l => (stores_ok max_len) l); [prim|intros _].
      apply striple_ret; tauto.
    + apply striple_ret; tauto.
Qed.

Lemma receive_chunks_bounds expected_len fuel st :
  expected_len < max_len ->
  striple (stores_ok max_len) (fun l => (stores_ok max_len) l /\ 0 <= st.1 <= expected_len)
    (receive_chunks E expected_len fuel st)
    (fun r l => (stores_ok max_len) l /\ match r with
                        | BodyDone received => 0 <= received <= expected_len
                        | BodyCancelled => True
                        end).
Proof.
  intros Hlen. unfold receive_chunks. revert fuel st.
  apply (striple_loop (stores_ok max_len) (fun st l => (stores_ok max_len) l /\ 0 <= st.1 <= expected_len));
    [tauto | tauto |].
  intros n [received start]. unfold receive_chunks_step. simpl.
  apply striple_pure. intros Hrec.
  destruct (Z.ltb_spec received expected_len) as [Hlt|Hge];
    [|apply striple_ret; tauto].
  set (chunk_target := if expected_len - received >? CHUNK_SIZE
                       then CHUNK_SIZE else expected_len - received).
  assert (0 <= chunk_target <= expected_len - received) as Hct.
  { unfold chunk_target, CHUNK_SIZE. case_match; lia. }
  eapply striple_bind.
  { eapply striple_weaken;
      [apply (read_chunk_bounds received chunk_target n (0, start)); lia | |].
    - simpl. intros l Hl. split; [done|lia].
    - intros a l H. exact H. }
  intros [g start'| |]; simpl.
  - apply striple_pure. intros Hg.
    eapply striple_bind with (R := fun _ l => (stores_ok max_len) l); [prim|intros _].
    apply striple_ret; [tauto|]. intros l Hl. simpl. split; [done|lia].
  - apply striple_ret; [tauto|]. intros l [Hl _]. split; [done|lia].
  - apply striple_ret; tauto.
Qed.

Lemma receive_body_bounds expected_len fuel :
  1 <= max_len -> 0 < expected_len ->
  striple (stores_ok max_len) (stores_ok max_len) (receive_body E max_len expected_len fuel) (fun _ l => (stores_ok max_len) l).
Proof.
  intros Hmax Hexp. unfold receive_body.
  set (el := if expected_len >=? max_len then max_len - 1 else expected_len).
  assert (0 <= el < max_len) as Hel by (unfold el; case_match; lia).
  eapply striple_bind with (R := fun _ l => (stores_ok max_len) l); [prim|intros _].
  eapply striple_bind with (R := fun _ l => (stores_ok max_len) l); [prim|intros start].
  eapply striple_bind.
  { eapply striple_weaken;
      [apply (receive_chunks_bounds el fuel (0, start)); lia | |].
    - simpl. intros l Hl. split; [done|lia].
    - intros a l H. exact H. }
  intros [received|]; simpl; [|apply striple_ret; tauto].
  apply striple_pure. intros Hrec.
  eapply striple_bind with (R := fun _ l => (stores_ok max_len) l).
  { apply striple_store. intros l Hl.
    assert ((stores_ok max_len) (received :: l)) by (constructor; [lia|done]). tauto. }
  intros _. prim.
Qed.

Lemma receive_response_bounds fuel :
  1 <= max_len ->
  striple (stores_ok max_len) (stores_ok max_len) (receive_response E max_len fuel) (fun _ l => (stores_ok max_len) l).
Proof.
  intros Hmax. unfold receive_response.
  eapply striple_bind with (R := fun _ l => (stores_ok max_len) l).
  { apply striple_kept; [apply kept_wait_for_len_or_error | tauto | tauto]. }
  intros expected_len.
  destruct (Z.ltb_spec expected_len 0); [prim|].
  destruct (Z.eqb_spec expected_len 0); [|apply receive_body_bounds; lia].
  eapply striple_bind with (R := fun _ l => (stores_ok max_len) l); [|intros _; prim].
  apply striple_store. intros l Hl.
  assert ((stores_ok max_len) (0 :: l)) by (constructor; [lia|done]). tauto.
Qed.
End Bounds.

(** C10. With a buffer of [max_len >= 1] bytes, on any link, clock and
    key, for any fuel, every index [receive_response] stores to (body
    bytes and terminating NUL) is at least 0 and less than [max_len]. *)
Theorem receive_response_in_bounds E max_len fuel w :
  1 <= max_len -> in_bounds max_len w ->
  in_bounds max_len (receive_response E max_len fuel w).2.
Proof. intros Hmax Hw. by apply (receive_response_bounds E max_len fuel Hmax w). Qed.

(** ** The empty reply and the stalled sender *)

(** C7. When the header wait yields length 0, [receive_response] returns
    success with the empty string in the buffer, and the link is as the
    header wait left it: nothing more is read and nothing is written,
    not even the acknowledgement of the header. *)
Theorem receive_response_len0 E max_len fuel w w1 :
  wait_for_len_or_error E fuel w = (Some 0, w1) ->
  (0 < length (buf w1))%nat ->
  exists w2,
    receive_response E max_len fuel w = (Some true, w2) /\
    cstr (buf w2) = [] /\
    chan w2 = chan w1 /\ rx w2 = rx w1 /\
    shown w2 = shown w1 ++ [AddLine (str "AI: (empty response)"); Redraw].
Proof.
  intros Hhdr Hbuf. unfold receive_response.
  erewrite bind_spec by exact Hhdr. simpl.
  eexists. split; [reflexivity|]. simpl.
  split; [|split; [done|split; [done|]]].
  - replace (0 <? Z.of_nat (length (buf w1))) with true by lia.
    destruct (buf w1); [simpl in Hbuf; lia|done].
  - unfold shown. simpl. by rewrite <- app_assoc.
Qed.

Section Stalled.
Context (E : env) (Hesc : forall t, esc_key E t = false).

Lemma read_chunk_stalled received chunk_target fuel st w :
  rx w = [] ->
  exists r w',
    read_chunk E received chunk_target fuel st w = (r, w') /\
    rx w' = [] /\ sink w' = sink w /\
    (r = None \/ exists start', r = Some (ChunkEnd st.1 start')).
Proof using Hesc.
  revert st w. induction fuel as [|n IH]; intros [chunk_got start] w Hrx.
  - exists None, w. auto.
  - unfold read_chunk in *. rewrite loop_S. unfold read_chunk_step.
    destruct (chunk_got <? chunk_target); [|simpl; eauto 10].
    run. destruct (_ <? 120000); [|simpl; eauto 10].
    rewrite Hrx. simpl. rewrite Hesc. simpl.
    match goal with |- context [loop _ n _ ?w'] =>
      apply (IH (chunk_got, start) w' eq_refl) end.
Qed.

Lemma receive_chunks_stalled expected_len fuel st w :
  rx w = [] -> st.1 < expected_len ->
  (receive_chunks E expected_len fuel st w).1 = None /\
  sink (receive_chunks E expected_len fuel st w).2 = sink w.
Proof using Hesc.
  revert st w. induction fuel as [|n IH]; intros [received start] w Hrx Hlt; simpl in *.
  - auto.
  - unfold receive_chunks in *. rewrite loop_S. unfold receive_chunks_step.
    replace (received <? expected_len) with true by lia. cbv zeta.
    set (ct := if expected_len - received >? CHUNK_SIZE then _ else _).
    destruct (read_chunk_stalled received ct n (0, start) w Hrx)
      as (r & w1 & Hrc & Hrx' & Hsink & Hr).
    destruct Hr as [-> | [start' ->]].
    + rewrite (bind_none _ _ _ _ Hrc). done.
    + rewrite (bind_spec _ _ _ _ _ Hrc).
      erewrite bind_spec by reflexivity. simpl.
      rewrite <- Hsink.
      match goal with |- context [loop _ n _ ?w'] =>
        apply (IH (received + 0, start') w'); simpl; [done|lia] end.
Qed.

(** C2. The code against the claim: once the header gave a positive
    length, if no byte arrives any more and ESC is not pressed, then for
    every amount of fuel, whatever the clock shows, [receive_response]
    does not return and shows nothing.  When the 120 s pass the chunk
    loop ends, but the outer loop starts the next chunk with the same
    expired [start], for ever. *)
Theorem stalled_sender_hangs max_len fuel w L w1 :
  wait_for_len_or_error E fuel w = (Some L, w1) ->
  0 < L -> 2 <= max_len -> rx w1 = [] ->
  (receive_response E max_len fuel w).1 = None /\
  sink (receive_response E max_len fuel w).2 = sink w1.
Proof using Hesc.
  intros Hhdr HL Hmax Hrx. unfold receive_response.
  erewrite bind_spec by exact Hhdr.
  replace (L <? 0) with false by lia. replace (L =? 0) with false by lia.
  unfold receive_body.
  set (el := if L >=? max_len then max_len - 1 else L).
  assert (0 < el) as Hel by (unfold el; case_match; lia).
  erewrite bind_spec by reflexivity.
  erewrite bind_spec by reflexivity.
  match goal with |- context [(receive_chunks E el fuel ?st ≫= _) ?w] =>
    destruct (receive_chunks_stalled el fuel st w Hrx Hel) as (Hrc & Hsink);
    destruct (receive_chunks E el fuel st w) as [r w'] eqn:Heq end.
  simpl in *. subst r.
  rewrite (bind_none _ _ _ _ Heq). done.
Qed.
End Stalled.

(** ** A body that arrives in time *)

Lemma write_at_nil k l : write_at k [] l = l.
Proof. unfold write_at. simpl. rewrite Nat.add_0_r. apply take_drop. Qed.

Lemma write_at_cons k c bs l :
  (k < length l)%nat -> write_at (S k) bs (<[k:=c]> l) = write_at k (c :: bs) l.
Proof.
  intros Hk. unfold write_at.
  erewrite take_S_r by (by apply list_lookup_insert_eq).
  rewrite take_insert_ge by lia. rewrite drop_insert_lt by lia.
  rewrite <- app_assoc. simpl.
  replace (k + S (length bs))%nat with (S (k + length bs)) by lia. done.
Qed.

Lemma length_write_at k bs l :
  (k + length bs <= length l)%nat -> length (write_at k bs l) = length l.
Proof.
  intros H. unfold write_at. rewrite !length_app, length_take, length_drop. lia.
Qed.

Lemma has_data_ready w a b r :
  rx w = (a, b) :: r -> (a <= tick w)%nat -> uart_has_data w = (Some true, tock w).
Proof.
  intros Hrx Ha. unfold uart_has_data, rx_ready. rewrite Hrx.
  replace (a <=? tick w)%nat with true by (symmetry; apply Nat.leb_le; lia). done.
Qed.

Lemma read_char_ready w a b r :
  rx w = (a, b) :: r -> (a <= tick w)%nat ->
  uart_read_char w =
    (Some b, mkWorld (S (tick w)) r ((tick w, Rx b) :: chan w)
                     (sink w) (buf w) (stores w)).
Proof.
  intros Hrx Ha. unfold uart_read_char. rewrite Hrx.
  replace (a <=? tick w)%nat with true by (symmetry; apply Nat.leb_le; lia). done.
Qed.

Lemma write_at_app k a b l :
  (k + length a + length b <= length l)%nat ->
  write_at (k + length a) b (write_at k a l) = write_at k (a ++ b) l.
Proof.
  intros H. unfold write_at.
  assert (length (take k l ++ a) = (k + length a)%nat) as HX
    by (rewrite length_app, length_take; lia).
  rewrite (app_assoc (take k l) a).
  rewrite (take_app_length' _ _ _ (eq_sym HX)).
  rewrite (drop_app_add' _ _ _ _ (eq_sym HX)).
  rewrite drop_drop, length_app, <- !app_assoc.
  replace (k + length a + length b)%nat with (k + (length a + length b))%nat by lia.
  done.
Qed.

Lemma acked_chunks_nil n : acked_chunks n [] = [].
Proof. by destruct n. Qed.

Lemma timely_app E p l1 l2 :
  timely E p (l1 ++ l2) <-> timely E p l1 /\ timely E (last_seen p l1) l2.
Proof.
  revert p. induction l1 as [|it l1 IH]; intros p; simpl; [tauto|].
  rewrite IH. unfold last_seen. simpl. tauto.
Qed.

Lemma last_seen_ge p items : (p <= last_seen p items)%nat.
Proof.
  revert p. induction items as [|it items IH]; intros p; [done|].
  unfold last_seen in *. simpl. specialize (IH (Nat.max p it.1)). lia.
Qed.

Lemma has_data_not_ready w a b r :
  rx w = (a, b) :: r -> (tick w < a)%nat -> uart_has_data w = (Some false, tock w).
Proof.
  intros Hrx Ha. unfold uart_has_data, rx_ready. rewrite Hrx.
  replace (a <=? tick w)%nat with false by (symmetry; apply Nat.leb_gt; lia). done.
Qed.

Lemma at_tick_self w : at_tick (tick w) w = w.
Proof. by destruct w. Qed.

Section Timely.
Context (E : env) (Hst : steady E).
Context (Hesc : forall t, esc_key E t = false).

Lemma read_chunk_timely received chunk_target items :
  forall chunk_got ts p w rest,
    rx w = items ++ rest ->
    timely E p items -> (p <= ts)%nat ->
    0 <= received -> 0 <= chunk_got ->
    chunk_target = chunk_got + Z.of_nat (length items) ->
    received + chunk_target <= Z.of_nat (length (buf w)) ->
    (ts < tick w <= ts + 2)%nat ->
    exists n0 ts' w',
      (forall fuel, (n0 <= fuel)%nat ->
         read_chunk E received chunk_target fuel (chunk_got, now_ms E ts) w =
           (Some (ChunkEnd chunk_target (now_ms E ts')), w')) /\
      rx w' = rest /\
      trace w' = trace w ++ map (fun p => Rx p.2) items /\
      sink w' = sink w /\
      buf w' = write_at (Z.to_nat (received + chunk_got)) (map snd items) (buf w) /\
      (tick w <= tick w')%nat /\
      (items = [] -> ts' = ts /\ tick w' = tick w) /\
      (items <> [] -> tick w' = S ts') /\
      (last_seen p items <= ts')%nat.
Proof using Hst Hesc.
  induction items as [|[a b] items IH];
    intros chunk_got ts p w rest Hrx Hitems Hp Hrec Hgot Hct Hbuf Hts.
  - exists 1%nat, ts, w. split.
    { intros [|n] Hn; [lia|].
      unfold read_chunk. rewrite loop_S. unfold read_chunk_step.
      simpl in Hct. replace (chunk_got <? chunk_target) with false by lia.
      replace chunk_target with chunk_got by lia. done. }
    rewrite write_at_nil, app_nil_r. unfold last_seen. simpl.
    repeat split; try done; lia.
  - simpl in Hct. destruct Hitems as (Hdl & Hb & Htl). simpl in Hdl, Hb, Htl.
    assert (forall d T, (a - S T <= d)%nat -> (ts < T)%nat ->
              (tick w <= T)%nat -> (T <= ts + 2 \/ T <= a + 1)%nat ->
      exists n0 ts' w',
        (forall fuel, (n0 <= fuel)%nat ->
           read_chunk E received chunk_target fuel (chunk_got, now_ms E ts)
             (at_tick T w) =
             (Some (ChunkEnd chunk_target (now_ms E ts')), w')) /\
        rx w' = rest /\
        trace w' = trace w ++ map (fun p => Rx p.2) ((a, b) :: items) /\
        sink w' = sink w /\
        buf w' = write_at (Z.to_nat (received + chunk_got))
                   (map snd ((a, b) :: items)) (buf w) /\
        (T <= tick w')%nat /\
        tick w' = S ts' /\
        (last_seen p ((a, b) :: items) <= ts')%nat) as Hwait.
    { induction d as [d IHd] using lt_wf_ind. intros T Hd HtsT HwT Hnear.
      pose proof (steady_le E ts T Hst ltac:(lia)) as Hmono.
      pose proof (steady_le E p ts Hst Hp) as Hmp.
      assert ((secs E T - secs E ts) * 1000 < 120000) as Hel.
      { destruct Hnear as [Hn|Hn]; [lia|].
        pose proof (steady_le E T (a + 3) Hst ltac:(lia)). lia. }
      destruct (decide (a <= S T)%nat) as [Hready|Hlate].
      - (* the byte is there: it is read and stored *)
        set (w3 := mkWorld (4 + T) (items ++ rest) ((2 + T, Rx b)%nat :: chan w)
                   (sink w) (<[Z.to_nat (received + chunk_got) := b]> (buf w))
                   (received + chunk_got :: stores w)).
        assert (forall n, read_chunk_step E received chunk_target n
                   (chunk_got, now_ms E ts) (at_tick T w) =
                (Some (inl (chunk_got + 1, now_ms E (3 + T))), w3)) as Hstep.
        { intros n. unfold read_chunk_step.
          replace (chunk_got <? chunk_target) with true by lia.
          bind_step by reflexivity.
          cbn [tick at_tick]. rewrite elapsed_exact by (try done; unfold two32; lia).
          replace (_ <? 120000) with true by lia.
          bind_step by (eapply has_data_ready; [exact Hrx | simpl; lia]).
          bind_step by (eapply read_char_ready; [exact Hrx | simpl; lia]).
          replace (b =? EOT_CHAR) with false by lia.
          bind_step by reflexivity. bind_step by reflexivity.
          simpl. unfold w3.
          replace ((0 <=? received + chunk_got) &&
                   (received + chunk_got <? Z.of_nat (length (buf w))))
            with true by lia.
          done. }
        destruct (IH (chunk_got + 1) (3 + T)%nat (Nat.max p a) w3 rest)
          as (n0 & ts' & w' & Hrun & Hrx' & Htr & Hsk & Hbf & Htk & Hnil & Hcons & Hls);
          [done | done | lia | done | lia | lia
          | simpl; rewrite length_insert; lia | simpl; lia |].
        exists (S n0), ts', w'. split.
        { intros [|n] Hn; [lia|]. unfold read_chunk in *.
          rewrite loop_S, Hstep. apply Hrun. lia. }
        split; [done|]. split.
        { rewrite Htr. unfold w3. rewrite trace_cons. simpl.
          rewrite <- app_assoc. done. }
        split; [done|]. split.
        { rewrite Hbf. simpl.
          replace (Z.to_nat (received + (chunk_got + 1)))
            with (S (Z.to_nat (received + chunk_got))) by lia.
          apply write_at_cons. lia. }
        simpl in Htk. split; [lia|]. split; [|exact Hls].
        destruct (decide (items = [])) as [Hi|Hi]; [|by apply Hcons].
        destruct (Hnil Hi) as [-> ->]. done.
      - (* the byte is not there yet: one idle poll *)
        assert (forall n, read_chunk_step E received chunk_target n
                   (chunk_got, now_ms E ts) (at_tick T w) =
                (Some (inl (chunk_got, now_ms E ts)), at_tick (3 + T) w)) as Hstep.
        { intros n. unfold read_chunk_step.
          replace (chunk_got <? chunk_target) with true by lia.
          bind_step by reflexivity.
          cbn [tick at_tick]. rewrite elapsed_exact by (try done; unfold two32; lia).
          replace (_ <? 120000) with true by lia.
          bind_step by (eapply has_data_not_ready; [exact Hrx | simpl; lia]).
          bind_step by reflexivity. simpl. rewrite Hesc. done. }
        destruct (IHd (d - 1)%nat ltac:(lia) (3 + T)%nat)
          as (n0 & ts' & w' & Hrun & Hrest);
          [lia | lia | lia | right; lia |].
        exists (S n0), ts', w'. split.
        { intros [|n] Hn; [lia|]. unfold read_chunk in *.
          rewrite loop_S, Hstep. apply Hrun. lia. }
        destruct Hrest as (? & ? & ? & ? & ? & ? & ?).
        repeat split; try done; lia. }
    destruct (Hwait (a - S (tick w))%nat (tick w) ltac:(lia) ltac:(lia)
                ltac:(lia) ltac:(left; lia))
      as (n0 & ts' & w' & Hrun & Hrx' & Htr & Hsk & Hbf & Htk & Hts' & Hls).
    rewrite at_tick_self in Hrun.
    exists n0, ts', w'. repeat split; try done.
Qed.
End Timely.

(** ** Fuel, the trailing terminator, whole receptions *)

Lemma loop_mono {S R} (body : nat -> S -> M (S + R)) :
  (forall s, fuel_mono (fun n => body n s)) ->
  forall s, fuel_mono (fun n => loop body n s).
Proof.
  intros Hb s n. revert s. induction n as [|n IH]; intros s m w r w' Hle Hn; [done|].
  destruct m as [|m]; [lia|]. rewrite loop_S in *.
  destruct (body n s w) as [[x|] w1] eqn:Hbody; [|done].
  rewrite (Hb s n m w x w1 ltac:(lia) Hbody).
  destruct x as [s'|r']; [|done]. apply (IH s' m); [lia|done].
Qed.

Lemma fuel_mono_const {A} (m : M A) : fuel_mono (fun _ => m).
Proof. by intros n m' w a w' _ H. Qed.

Lemma fuel_mono_bind {A B} (f : nat -> M A) (k : A -> nat -> M B) :
  fuel_mono f -> (forall a, fuel_mono (k a)) ->
  fuel_mono (fun n => f n ≫= fun a => k a n).
Proof.
  intros Hf Hk n m w b w' Hle. unfold mbind, M_bind.
  destruct (f n w) as [[a|] w1] eqn:Hfn; [|done].
  rewrite (Hf n m w a w1 Hle Hfn). by apply Hk.
Qed.

Lemma wait_for_len_or_error_mono E n m w r w' :
  (n <= m)%nat ->
  wait_for_len_or_error E n w = (Some r, w') ->
  wait_for_len_or_error E m w = (Some r, w').
Proof.
  unfold wait_for_len_or_error. intros Hle.
  rewrite !(bind_spec (get_time_ms E) _ w _ _ eq_refl).
  apply (loop_mono (wait_header_step E (now_ms E (tick w)))); [|done].
  intros s n' m' w0 a w0' _ H. exact H.
Qed.

Lemma sent_app_trace w w' evs :
  trace w' = trace w ++ evs -> sent w' = sent w ++ filter is_tx evs.
Proof. unfold sent. intros ->. apply filter_app. Qed.

Lemma filter_is_tx_rx (l : list Z) : filter is_tx (map Rx l) = [].
Proof. induction l; [done|]. simpl. rewrite filter_cons_False; [done|]. simpl. tauto. Qed.

Lemma sent_acked_chunks n bs :
  (length bs <= n)%nat ->
  filter is_tx (acked_chunks n bs) = replicate (chunk_count (length bs)) (Tx 65).
Proof.
  revert bs. induction n as [|n IH]; intros bs Hn.
  - destruct bs; [done|simpl in Hn; lia].
  - destruct bs as [|b bs]; [done|].
    cbn [acked_chunks]. rewrite filter_app, filter_is_tx_rx, app_nil_l.
    rewrite filter_cons_True by done. rewrite IH by (rewrite length_drop; simpl in *; lia).
    rewrite length_drop. change (Tx 65 :: ?l) with (replicate 1 (Tx 65) ++ l).
    rewrite <- replicate_add. f_equal. unfold chunk_count.
    set (k := length (b :: bs)). assert (0 < k)%nat by (unfold k; simpl; lia).
    destruct (decide (k <= 64)%nat).
    + replace (k - 64)%nat with 0%nat by lia.
      replace ((Z.of_nat k + 63) / 64) with 1 by (Z.div_mod_to_equations; lia).
      done.
    + replace (Z.of_nat (k - 64)) with (Z.of_nat k - 64) by lia.
      Z.div_mod_to_equations. lia.
Qed.

Section TrailingEot.
Context (E : env) (Hst : steady E) (Hrun : running E).

(** Whatever is still on the link, the wait for the trailing EOT ends;
    it reads and drops some bytes and sends nothing. *)
Lemma wait_eot_total ts w :
  tick w = S ts ->
  exists n0 w' dropped,
    (forall fuel, (n0 <= fuel)%nat ->
       wait_eot E (now_ms E ts) fuel w = (Some tt, w')) /\
    trace w' = trace w ++ map Rx dropped /\
    sink w' = sink w /\ buf w' = buf w /\ stores w' = stores w.
Proof using Hst Hrun.
  intros Hts. unfold wait_eot.
  pose (keep := fun w' : world =>
    (exists dropped, trace w' = trace w ++ map Rx dropped) /\
    sink w' = sink w /\ buf w' = buf w /\ stores w' = stores w).
  destruct (timed_loop_total E Hst Hrun
    (wait_eot_step E (now_ms E ts))
    (fun _ w' => keep w') (fun _ w' => keep w')
    ts 2000 3 0) with (s := tt) (w := w) as (n0 & [] & w' & Hloop & Hpost).
  - intros [] w1 Hk Hts1 Hsince. unfold since in Hsince.
    pose proof (steady_le E ts (tick w1) Hst ltac:(lia)) as Hmono.
    unfold wait_eot_step.
    destruct (Z.ltb_spec ((secs E (tick w1) - secs E ts) * 1000) 2000) as [Hlt|Hge].
    + destruct (rx w1) as [|[a b] r] eqn:Hrx1.
      { exists (inl tt), (mkWorld (2 + tick w1) (rx w1) (chan w1) (sink w1) (buf w1) (stores w1)).
        split; [|split; [simpl; lia|split; [done|]]].
        - intros n _. bind_step by reflexivity.
          rewrite elapsed_exact by (try done; unfold two32; lia).
          replace (_ <? 2000) with true by lia.
          run. rewrite Hrx1. simpl. done.
        - exact Hk. }
      destruct (decide (a <= S (tick w1))%nat) as [Ha|Ha].
      * pose (w2 := mkWorld (3 + tick w1) r ((2 + tick w1, Rx b)%nat :: chan w1)
                      (sink w1) (buf w1) (stores w1)).
        assert (keep w2) as Hk2.
        { destruct Hk as ([dropped Htr] & ? & ? & ?). unfold keep, w2.
          split; [|done]. exists (dropped ++ [b]).
          rewrite trace_cons, Htr, map_app, <- app_assoc. done. }
        exists (if b =? EOT_CHAR then inr tt else inl tt), w2.
        split; [|split; [simpl; lia|]].
        -- intros n _. bind_step by reflexivity.
           rewrite elapsed_exact by (try done; unfold two32; lia).
           replace (_ <? 2000) with true by lia.
           bind_step by (apply (has_data_ready _ a b r); [exact Hrx1 | simpl; lia]).
           bind_step by (apply (read_char_ready _ a b r); [exact Hrx1 | simpl; lia]).
           by destruct (b =? EOT_CHAR).
        -- destruct (b =? EOT_CHAR); [done|]. split; [done|]. exact Hk2.
      * exists (inl tt), (mkWorld (2 + tick w1) (rx w1) (chan w1) (sink w1) (buf w1) (stores w1)).
        split; [|split; [simpl; lia|split; [done|]]].
        -- intros n _. bind_step by reflexivity.
           rewrite elapsed_exact by (try done; unfold two32; lia).
           replace (_ <? 2000) with true by lia.
           run. rewrite Hrx1. simpl.
           replace (a <=? S (tick w1))%nat with false
             by (symmetry; apply Nat.leb_gt; lia). done.
        -- exact Hk.
    + exists (inr tt), (tock w1). split; [|split; [simpl; lia|]].
      * intros n _. bind_step by reflexivity.
        rewrite elapsed_exact by (try done; unfold two32; lia).
        replace (_ <? 2000) with false by lia. done.
      * exact Hk.
  - split; [|done]. exists []. simpl. by rewrite app_nil_r.
  - lia.
  - unfold since. rewrite Hts.
    pose proof (steady_le E ts (S ts) Hst ltac:(lia)). lia.
  - destruct Hpost as ([dropped Htr] & Hrest).
    exists n0, w', dropped. split; [exact Hloop|]. split; [exact Htr|exact Hrest].
Qed.
End TrailingEot.

Lemma acked_chunks_S n bs :
  bs <> [] ->
  acked_chunks (S n) bs = map Rx (take 64 bs) ++ Tx 65 :: acked_chunks n (drop 64 bs).
Proof. by destruct bs. Qed.

Section TimelyChunks.
Context (E : env) (Hst : steady E).
Context (Hesc : forall t, esc_key E t = false).

Lemma receive_chunks_timely expected_len n :
  forall items received ts p w rest,
    (length items <= n)%nat ->
    rx w = items ++ rest ->
    timely E p items -> (p <= ts)%nat ->
    0 <= received ->
    expected_len = received + Z.of_nat (length items) ->
    expected_len <= Z.of_nat (length (buf w)) ->
    (ts < tick w <= ts + 2)%nat ->
    exists n0 w',
      (forall fuel, (n0 <= fuel)%nat ->
         receive_chunks E expected_len fuel (received, now_ms E ts) w =
           (Some (BodyDone expected_len), w')) /\
      rx w' = rest /\
      trace w' = trace w ++ acked_chunks n (map snd items) /\
      sink w' = sink w /\
      buf w' = write_at (Z.to_nat received) (map snd items) (buf w) /\
      (tick w <= tick w')%nat.
Proof using Hst Hesc.
  induction n as [|n IH];
    intros items received ts p w rest Hn Hrx Hitems Hp Hrec Hlen Hbuf Hts.
  all: destruct (decide (items = [])) as [->|Hne];
    [ simpl in Hlen; exists 1%nat, w; split;
      [ intros [|fuel] Hfuel; [lia|];
        unfold receive_chunks; rewrite loop_S; unfold receive_chunks_step;
        replace (received <? expected_len) with false by lia;
        replace expected_len with received by lia; done
      | rewrite write_at_nil, acked_chunks_nil, app_nil_r; done ]
    | ].
  { destruct items; [done|simpl in Hn; lia]. }
  assert (0 < length items)%nat as Hpos by (destruct items; [done|simpl; lia]).
  set (ct := if expected_len - received >? CHUNK_SIZE
             then CHUNK_SIZE else expected_len - received).
  assert (ct = Z.of_nat (length (take 64 items))) as Hct.
  { unfold ct, CHUNK_SIZE. rewrite length_take. case_match; lia. }
  assert (0 < ct <= expected_len - received) as Hct'
    by (unfold ct, CHUNK_SIZE; case_match; lia).
  assert (rx w = take 64 items ++ (drop 64 items ++ rest)) as Hrx1.
  { rewrite app_assoc, take_drop. done. }
  rewrite <- (take_drop 64 items) in Hitems.
  apply timely_app in Hitems as [Hfirst Hlater].
  destruct (read_chunk_timely E Hst Hesc received ct (take 64 items) 0 ts p w
              (drop 64 items ++ rest) Hrx1 Hfirst Hp)
    as (n1 & ts1 & w1 & Hrun1 & Hrx'1 & Htr1 & Hsk1 & Hbf1 & Htk1 & _ & Hts1 & Hls1);
    [done | done | lia | lia | done |].
  assert (tick w1 = S ts1) as Hts1' by (apply Hts1; by destruct items).
  set (w2 := mkWorld (S (tick w1)) (rx w1) ((tick w1, Tx 65) :: chan w1)
               (sink w1) (buf w1) (stores w1)).
  assert (length (buf w1) = length (buf w)) as Hlb.
  { rewrite Hbf1. apply length_write_at. rewrite length_map. lia. }
  destruct (IH (drop 64 items) (received + ct) ts1 (last_seen p (take 64 items))
              w2 rest)
    as (n2 & w' & Hrun & Hrx' & Htr & Hsk & Hbf & Htk).
  + rewrite length_drop. lia.
  + done.
  + done.
  + done.
  + lia.
  + rewrite length_drop. rewrite length_take in Hct. lia.
  + simpl. lia.
  + simpl. lia.
  + exists (S (Nat.max n1 n2)), w'. simpl in Hsk.
    split; [|split; [done|split; [|split; [congruence|split]]]].
    * intros [|fuel] Hfuel; [lia|].
      assert (receive_chunks_step E expected_len fuel (received, now_ms E ts) w =
              (Some (inl (received + ct, now_ms E ts1)), w2)) as Hstep.
      { unfold receive_chunks_step.
        replace (received <? expected_len) with true by lia. cbv zeta. fold ct.
        rewrite (bind_spec _ _ _ _ _ (Hrun1 fuel ltac:(lia))). cbv beta iota.
        bind_step by reflexivity. done. }
      unfold receive_chunks in *. rewrite loop_S, Hstep. apply Hrun. lia.
    * rewrite Htr. unfold w2. rewrite trace_cons, Htr1. simpl.
      destruct (map snd items) eqn:Hm; [by destruct items|]. rewrite <- Hm.
      rewrite <- !app_assoc. f_equal.
      rewrite firstn_map, skipn_map, map_map. done.
    * rewrite Hbf. simpl. rewrite Hbf1.
      replace (Z.to_nat (received + ct))
        with (Z.to_nat (received + 0) + length (map snd (take 64 items)))%nat
        by (rewrite length_map; lia).
      rewrite write_at_app.
      -- rewrite <- map_app, take_drop. do 2 f_equal. lia.
      -- rewrite !length_map, length_take, length_drop. lia.
    * simpl in Htk. lia.
Qed.
End TimelyChunks.

Lemma read_chunk_mono E received chunk_target st :
  fuel_mono (fun n => read_chunk E received chunk_target n st).
Proof. apply loop_mono. intros s n m w a w' _ H. exact H. Qed.

Lemma receive_chunks_mono E expected_len st :
  fuel_mono (fun n => receive_chunks E expected_len n st).
Proof.
  apply loop_mono. intros [received start]. unfold receive_chunks_step.
  destruct (received <? expected_len); [|apply fuel_mono_const].
  apply (fuel_mono_bind (fun n => read_chunk E received _ n (0, start))
                        (fun r _ => _)).
  - apply read_chunk_mono.
  - intros r. apply fuel_mono_const.
Qed.

Local Arguments acked_chunks : simpl never.
Local Arguments write_at : simpl never.

(** A reception whose body arrives in time: the expected length is
    [n] (the declared one, or the capacity less one), the [n] bytes
    [items] come in time, and the buffer has room for them and the NUL. *)
Lemma receive_body_timely E max_len L w1 items rest :
  steady E -> running E -> (forall t, esc_key E t = false) ->
  0 < L ->
  rx w1 = items ++ rest ->
  Z.of_nat (length items) = (if L >=? max_len then max_len - 1 else L) ->
  timely E (tick w1) items ->
  Z.of_nat (length items) < Z.of_nat (length (buf w1)) ->
  exists n0 w' dropped,
    (forall fuel, (n0 <= fuel)%nat ->
       receive_body E max_len L fuel w1 = (Some true, w')) /\
    trace w' = trace w1 ++ Tx 65 ::
               acked_chunks (length items) (map snd items) ++ map Rx dropped /\
    take (S (length items)) (buf w') = map snd items ++ [0] /\
    length (buf w') = length (buf w1) /\
    shown w' = shown w1 ++
      [AddText (str "AI: ") (cstr (buf w')); AddLine []; ScrollToReply; Redraw].
Proof.
  intros Hst Hrun Hesc HL Hrx Hlen Hitems Hroom.
  set (el := if L >=? max_len then max_len - 1 else L) in *.
  set (bs := map snd items).
  assert (length bs = length items) as Hbs by apply length_map.
  pose (w2 := mkWorld (2 + tick w1) (rx w1) ((tick w1, Tx 65) :: chan w1)
                (sink w1) (buf w1) (stores w1)).
  destruct (receive_chunks_timely E Hst Hesc el (length items) items 0
              (S (tick w1)) (tick w1) w2 rest)
    as (n3 & w3 & Hrun3 & Hrx3 & Htr3 & Hsk3 & Hbf3 & Htk3);
    [lia | done | done | lia | done | lia | cbn [buf w2]; lia | cbn [tick w2]; lia |].
  change (buf w2) with (buf w1) in Hbf3. change (Z.to_nat 0) with 0%nat in Hbf3.
  change (sink w2) with (sink w1) in Hsk3.
  fold bs in Hbf3, Htr3.
  assert (length (buf w3) = length (buf w1)) as Hlb.
  { rewrite Hbf3. apply length_write_at. lia. }
  pose (w4 := mkWorld (S (tick w3)) (rx w3) (chan w3) (sink w3)
                (<[Z.to_nat el := 0]> (buf w3)) (el :: stores w3)).
  destruct (wait_eot_total E Hst Hrun (tick w3) w4 eq_refl)
    as (n4 & w5 & dropped & Hrun5 & Htr5 & Hsk5 & Hbf5 & Hst5).
  pose (w6 := mkWorld (4 + tick w5) (rx w5) (chan w5)
                (Redraw :: ScrollToReply :: AddLine [] ::
                 AddText (str "AI: ") (cstr (buf w5)) :: sink w5)
                (buf w5) (stores w5)).
  exists (Nat.max n3 n4), w6, dropped.
  split; [|split; [|split; [|split]]].
  - intros fuel Hfuel. unfold receive_body. fold el.
    bind_step by reflexivity. bind_step by reflexivity.
    rewrite (bind_spec _ _ _ _ _ (Hrun3 fuel ltac:(lia))). cbv beta iota.
    bind_step by reflexivity. bind_step by reflexivity.
    assert (wait_eot E (now_ms E (tick w3)) fuel w4 = (Some tt, w5)) as H5
      by (apply Hrun5; lia).
    match goal with |- (?m ≫= ?k) ?w = _ =>
      replace w with w4; [rewrite (bind_spec m k w4 _ _ H5)|] end.
    + cbv beta. bind_step by reflexivity. bind_step by reflexivity.
      bind_step by reflexivity. bind_step by reflexivity. bind_step by reflexivity.
      reflexivity.
    + unfold w4, buf_store, tock. cbn [tick rx chan sink buf stores snd].
      replace ((0 <=? el) && (el <? Z.of_nat (length (buf w3))))
        with true by lia.
      reflexivity.
  - change (trace w6) with (trace w5). rewrite Htr5.
    change (trace w4) with (trace w3). rewrite Htr3. unfold w2.
    rewrite trace_cons. cbn [snd]. rewrite <- !app_assoc. reflexivity.
  - unfold w6. cbn [buf]. rewrite Hbf5. unfold w4. cbn [buf]. rewrite Hbf3.
    unfold write_at. rewrite take_0, app_nil_l, Nat.add_0_l.
    destruct (drop (length bs) (buf w1)) as [|x d] eqn:Hd.
    { apply (f_equal length) in Hd. rewrite length_drop in Hd. simpl in Hd. lia. }
    rewrite insert_app_r_alt by lia.
    replace (Z.to_nat el - length bs)%nat with 0%nat by lia.
    cbn [list_insert]. rewrite take_app_ge by lia.
    replace (S (length items) - length bs)%nat with 1%nat by lia.
    reflexivity.
  - unfold w6. cbn [buf]. rewrite Hbf5. unfold w4. cbn [buf].
    rewrite length_insert. exact Hlb.
  - unfold shown, w6. cbn [sink buf]. rewrite Hsk5. unfold w4. cbn [sink].
    rewrite Hsk3. simpl. rewrite <- !app_assoc. reflexivity.
Qed.

(** C8. Header LEN:200, a buffer of more than 200 bytes, and 200 body
    bytes other than 0x04 that arrive in time, whatever follows them: the
    receiver writes the acknowledgement of the header and then exactly
    four more, one after each chunk of 64, 64, 64 and 8 bytes, and
    returns success with the 200 bytes in the buffer.  What it reads
    after the last acknowledgement it drops. *)
Theorem receive_200_in_four_chunks E max_len fuel0 w w1 items rest :
  steady E -> running E -> (forall t, esc_key E t = false) ->
  wait_for_len_or_error E fuel0 w = (Some 200, w1) ->
  rx w1 = items ++ rest ->
  length items = 200%nat ->
  timely E (tick w1) items ->
  200 < max_len -> max_len <= Z.of_nat (length (buf w1)) ->
  let bs := map snd items in
  exists n0 w' dropped,
    (forall fuel, (n0 <= fuel)%nat ->
       receive_response E max_len fuel w = (Some true, w')) /\
    trace w' = trace w1 ++
      Tx 65 :: map Rx (take 64 bs) ++
      Tx 65 :: map Rx (take 64 (drop 64 bs)) ++
      Tx 65 :: map Rx (take 64 (drop 128 bs)) ++
      Tx 65 :: map Rx (drop 192 bs) ++
      Tx 65 :: map Rx dropped /\
    take 201 (buf w') = bs ++ [0].
Proof.
  intros Hst Hrun Hesc Hhdr Hrx Hlen Hitems Hmax Hbuf bs.
  destruct (receive_body_timely E max_len 200 w1 items rest Hst Hrun Hesc)
    as (n0 & w' & dropped & Hbody & Htr & Htake & _);
    [lia | done | replace (200 >=? max_len) with false by lia; lia | done | lia |].
  assert (length bs = 200%nat) as Hbs by (unfold bs; rewrite length_map; done).
  exists (Nat.max fuel0 n0), w', dropped. split; [|split].
  - intros fuel Hfuel. unfold receive_response.
    rewrite (bind_spec _ _ _ _ _
               (wait_for_len_or_error_mono E fuel0 fuel w 200 w1 ltac:(lia) Hhdr)).
    cbv beta. change (200 <? 0) with false. change (200 =? 0) with false.
    cbv iota. apply Hbody. lia.
  - rewrite Htr, Hlen. fold bs. f_equal. f_equal.
    change 200%nat with (S (S (S (S 196)))).
    rewrite acked_chunks_S by (intros H; rewrite H in Hbs; done).
    rewrite acked_chunks_S
      by (intros H; apply (f_equal length) in H; rewrite length_drop, Hbs in H; done).
    rewrite acked_chunks_S
      by (intros H; apply (f_equal length) in H; rewrite !length_drop, Hbs in H; done).
    rewrite acked_chunks_S
      by (intros H; apply (f_equal length) in H; rewrite !length_drop, Hbs in H; done).
    rewrite !drop_drop. change (64 + 64)%nat with 128%nat.
    change (128 + 64)%nat with 192%nat. change (192 + 64)%nat with 256%nat.
    rewrite (drop_ge bs 256) by lia. rewrite acked_chunks_nil.
    rewrite (take_ge (drop 192 bs)) by (rewrite length_drop; lia).
    repeat (rewrite <- app_assoc || rewrite <- app_comm_cons).
    reflexivity.
  - rewrite Hlen in Htake. exact Htake.
Qed.

(** ** The history store: first in, first out *)

(** C5. After more than N = 20 appends to the empty History Store its
    count is N and it holds exactly the last N appended turns, in the
    order of the appends; the contents released are those of the turns
    before them, oldest first; and one more append evicts the head,
    releases its content and adds the new turn at the tail. *)
Theorem history_fifo_eviction (ps : list (list Z * list Z)) :
  (History.capacity < length ps)%nat ->
  let h := History.appends ps History.history_init in
  let k := length ps in
  History.count h = MAX_HISTORY_TURNS /\
  History.stored h = drop (k - History.capacity) (map History.turn_of ps) /\
  length (History.stored h) = History.capacity /\
  History.freed h =
    map History.content (take (k - History.capacity) (map History.turn_of ps)) /\
  forall r c,
    History.stored (History.history_add r c h) =
      tail (History.stored h) ++ [History.turn_of (r, c)] /\
    History.freed (History.history_add r c h) =
      History.freed h ++ map History.content (take 1 (History.stored h)).
Proof.
  intros Hk h k.
  destruct (HistoryFacts.appends_inv ps) as (Hwf & Hcnt & Hst & Hfr).
  fold h k in Hwf, Hcnt, Hst, Hfr.
  unfold History.capacity, MAX_HISTORY_TURNS in *.
  assert (History.count h = 20) as Hc by lia.
  split; [exact Hc|]. split; [exact Hst|]. split; [|split; [exact Hfr|]].
  - rewrite Hst, length_drop, length_map. fold k. lia.
  - intros r c.
    destruct (HistoryFacts.history_add_stored r c h Hwf) as (_ & Hcase & _).
    rewrite Hc in Hcase. exact Hcase.
Qed.

Lemma history_fifo_eviction_witness :
  let ps := map (fun n => (str "user", [Z.of_nat n + 65])) (seq 0 23) in
  History.count (History.appends ps History.history_init) = 20 /\
  History.stored (History.appends ps History.history_init) =
    drop 3 (map History.turn_of ps).
Proof.
  intros ps.
  destruct (history_fifo_eviction ps) as (Hc & Hs & _).
  - vm_compute. lia.
  - split; [exact Hc | exact Hs].
Defined.

(** ** Escaping *)

(** C6. On every C string [json_escape_to_uart] writes, byte by byte,
    what the table of the specification gives: the two-character escape
    of quote, backslash, newline, carriage return and tab, nothing for
    any other byte outside printable ASCII, and every other byte itself. *)
Theorem json_escape_to_uart_table char_signed s w :
  Forall (fun c => 0 < c < 256) s ->
  exists w',
    json_escape_to_uart char_signed s w = (Some tt, w') /\
    trace w' = trace w ++ map Tx (escaped s) /\
    escape_byte 34 = [92; 34] /\ escape_byte 92 = [92; 92] /\
    escape_byte 10 = [92; 110] /\ escape_byte 13 = [92; 114] /\
    escape_byte 9 = [92; 116] /\
    (forall c, ~ 32 <= c <= 126 -> c <> 10 -> c <> 13 -> c <> 9 ->
               escape_byte c = []) /\
    (forall c, 32 <= c <= 126 -> c <> 34 -> c <> 92 -> escape_byte c = [c]).
Proof.
  intros Hs.
  destruct (json_escape_to_uart_spec char_signed s w Hs) as (w' & Hrun & Hw & _).
  exists w'. split; [exact Hrun|]. split; [exact Hw|].
  repeat (split; [reflexivity|]).
  split; intros c; unfold escape_byte, printable; intros;
    repeat (case_match; try lia); reflexivity.
Qed.

Lemma json_escape_to_uart_table_witness :
  exists w',
    json_escape_to_uart false ([104; 105; 34; 10; 200; 7] ++ str "\") (boot [] 0)
      = (Some tt, w') /\
    trace w' = map Tx (str "hi\" ++ [34; 92; 110; 92; 92]).
Proof.
  destruct (json_escape_to_uart_table false
              ([104; 105; 34; 10; 200; 7] ++ str "\") (boot [] 0))
    as (w' & Hrun & Htr & _).
  - vm_compute. repeat constructor.
  - exists w'. split; [exact Hrun | exact Htr].
Defined.

(** ** Concrete runs *)

Lemma ms_clock_steady : steady E_quiet.
Proof.
  intros t. simpl. unfold ms_clock.
  replace (Z.of_nat (S t)) with (Z.of_nat t + 1) by lia.
  Z.div_mod_to_equations. lia.
Qed.

Lemma ms_clock_running : running E_quiet.
Proof.
  intros t. exists (t + 1000)%nat. split; [lia|]. simpl. unfold ms_clock.
  replace (Z.of_nat (t + 1000)) with (Z.of_nat t + 1 * 1000) by lia.
  rewrite Z.div_add by lia. lia.
Qed.

(** C1. The code at the failing input: the header declares 200 bytes,
    30 bytes arrive and then the terminator 0x04.  The receiver leaves
    the chunk loop and returns success, but [received] still counts
    completed chunks only, so the terminating NUL goes to index 0: the
    result is the empty string, not the 30 bytes. *)
Theorem early_eot_drops_partial_chunk :
  let r := receive_response E_quiet 300 3000 (boot early_eot_reply 300) in
  r.1 = Some true /\
  trace r.2 = map Rx (str "LEN:200" ++ [10]) ++ [Tx 65] ++
              map Rx (replicate 30 120) ++ [Rx EOT_CHAR] /\
  stores r.2 = 0 :: map Z.of_nat (rev (seq 0 30)) /\
  cstr (buf r.2) = [] /\
  shown r.2 = [AddText (str "AI: ") []; AddLine []; ScrollToReply; Redraw].
Proof. vm_compute. repeat split; reflexivity. Qed.

(** C4. The code at the failing input: the header declares 200 bytes,
    30 bytes arrive, and ESC is pressed while the receiver waits for
    more.  It reports the cancellation and returns failure at once, but
    the NUL goes to index [received] = 0, not to index 30, the number of
    bytes received so far. *)
Theorem cancel_terminates_at_chunk_start :
  let r := receive_response (E_esc_at 170) 300 400 (boot cancelled_reply 300) in
  r.1 = Some false /\
  trace r.2 = map Rx (str "LEN:200" ++ [10]) ++ [Tx 65] ++
              map Rx (replicate 30 120) /\
  stores r.2 = 0 :: map Z.of_nat (rev (seq 0 30)) /\
  buf r.2 !! 0%nat = Some 0 /\ buf r.2 !! 30%nat = Some 255 /\
  shown r.2 = [AddLine (str "[Cancelled]"); Redraw].
Proof. vm_compute. repeat split; reflexivity. Qed.

(** C3 as stated fails: with a buffer of 8 bytes and a declared length
    of 200, all 200 bytes and the terminator on the link, the receiver
    acknowledges the header and one chunk of 7 bytes, and nothing else;
    acknowledging the declared length would take the header's and four
    more. *)
Lemma clamped_acks_counterexample :
  let r := receive_response E_quiet 8 3000 (boot full_reply 8) in
  r.1 = Some true /\
  sent r.2 = replicate (1 + chunk_count 7) (Tx 65) /\
  sent r.2 <> replicate (1 + chunk_count 200) (Tx 65) /\
  buf r.2 = replicate 7 120 ++ [0].
Proof. vm_compute. repeat split; try reflexivity. discriminate. Qed.

(** ** Witnesses *)

Lemma receive_response_len0_witness :
  exists w2,
    receive_response E_quiet 16 100 (boot empty_reply 16) = (Some true, w2) /\
    cstr (buf w2) = [] /\
    chan w2 = chan (after_header E_quiet 100 (boot empty_reply 16)) /\
    rx w2 = [].
Proof.
  destruct (receive_response_len0 E_quiet 16 100 (boot empty_reply 16)
              (after_header E_quiet 100 (boot empty_reply 16)))
    as (w2 & Hrun & Hbuf & Hchan & Hrx & _).
  - vm_compute. reflexivity.
  - vm_compute. lia.
  - exists w2. repeat split; [exact Hrun | exact Hbuf | exact Hchan | exact Hrx].
Defined.

Lemma stalled_sender_hangs_witness :
  (receive_response E_seconds 16 1000 (boot stalled_reply 16)).1 = None /\
  sink (receive_response E_seconds 16 1000 (boot stalled_reply 16)).2 = [].
Proof.
  apply (stalled_sender_hangs E_seconds (fun _ => eq_refl) 16 1000
           (boot stalled_reply 16) 5
           (after_header E_seconds 1000 (boot stalled_reply 16))).
  - vm_compute. reflexivity.
  - lia.
  - lia.
  - vm_compute. reflexivity.
Defined.

(** The stalled run itself: 1000 operations, one second each, after a
    header declaring 5 bytes.  Nothing is shown, nothing is returned, and
    the receiver keeps writing acknowledgements. *)
Remark stalled_run_keeps_acknowledging :
  let r := receive_response E_seconds 16 1000 (boot stalled_reply 16) in
  r.1 = None /\ shown r.2 = [] /\
  120 < secs E_seconds (tick r.2) /\ 100 < Z.of_nat (length (sent r.2)).
Proof. vm_compute. repeat split; reflexivity. Qed.

Lemma receive_200_in_four_chunks_witness :
  exists n0 w',
    (forall fuel, (n0 <= fuel)%nat ->
       receive_response E_quiet 300 fuel (power_on slow_reply 300) =
         (Some true, w')) /\
    sent w' = replicate 5 (Tx 65) /\
    take 201 (buf w') = replicate 200 120 ++ [0].
Proof.
  destruct (receive_200_in_four_chunks E_quiet 300 100 (power_on slow_reply 300)
              (after_header E_quiet 100 (power_on slow_reply 300))
              (staggered 100 7 (replicate 200 120)) [(5000%nat, EOT_CHAR)]
              ms_clock_steady ms_clock_running (fun _ => eq_refl))
    as (n0 & w' & dropped & Hrun & Htr & Hbuf).
  - vm_compute. reflexivity.
  - vm_compute. reflexivity.
  - vm_compute. reflexivity.
  - vm_compute. repeat split; try reflexivity; discriminate.
  - lia.
  - vm_compute. discriminate.
  - exists n0, w'. split; [exact Hrun|]. split; [|exact Hbuf].
    unfold sent. rewrite Htr.
    repeat (rewrite filter_app || rewrite filter_is_tx_rx
            || rewrite (filter_cons_True is_tx) by exact I).
    vm_compute. reflexivity.
Defined.

Lemma handshake_silent_witness :
  exists n0, forall fuel, (n0 <= fuel)%nat ->
    (uart_handshake E_quiet fuel (boot [] 0)).1 = Some false.
Proof.
  destruct (handshake_silent E_quiet (boot [] 0) ms_clock_steady
              ms_clock_running (fun _ => eq_refl) eq_refl)
    as (n0 & t_wake & t_rst & t_sync & w' & Hrun & _).
  exists n0. intros fuel Hfuel. rewrite (Hrun fuel Hfuel). reflexivity.
Defined.

Lemma receive_response_in_bounds_witness :
  in_bounds 300 (receive_response E_quiet 300 3000 (boot full_reply 300)).2.
Proof.
  apply (receive_response_in_bounds E_quiet 300 3000 (boot full_reply 300)).
  - lia.
  - apply Forall_nil. exact I.
Defined.

(** * Further properties *)

(** ** The history store, further *)

(** X1. After any sequence of appends, [history_free] leaves the store empty
    and has released, together with the evictions before it, the content
    of every turn ever added: each once, in the order of the appends. *)
Theorem history_free_releases_all (ps : list (list Z * list Z)) :
  let h := History.history_free (History.appends ps History.history_init) in
  History.count h = 0 /\
  History.stored h = [] /\
  History.freed h = map (fun p => cstr p.2) ps.
Proof.
  destruct (HistoryFacts.appends_inv ps) as (Hwf & Hcnt & Hst & Hfr).
  cbv zeta in *. split; [done|]. split; [done|].
  unfold History.history_free. cbn [History.freed].
  fold (History.stored (History.appends ps History.history_init)).
  rewrite Hfr, Hst, <- map_app, take_drop, map_map. done.
Qed.

(** X2. Up to the capacity of 20 turns nothing is evicted: the store holds
    every turn added, in order, and nothing has been released. *)
Theorem history_keeps_all_below_capacity (ps : list (list Z * list Z)) :
  (length ps <= History.capacity)%nat ->
  let h := History.appends ps History.history_init in
  History.count h = Z.of_nat (length ps) /\
  History.stored h = map History.turn_of ps /\
  History.freed h = [].
Proof.
  intros Hk.
  destruct (HistoryFacts.appends_inv ps) as (Hwf & Hcnt & Hst & Hfr).
  cbv zeta in *. unfold History.capacity, MAX_HISTORY_TURNS in *.
  replace (length ps - Z.to_nat 20)%nat with 0%nat in * by lia.
  split; [lia|]. split; [by rewrite Hst|]. by rewrite Hfr.
Qed.

(** ** Escaping, read back *)

(** *** C strings *)

Lemma cstr_nonzero l : Forall (fun c => c <> 0) (cstr l).
Proof.
  induction l as [|c l IH]; simpl; [constructor|].
  destruct (Z.eqb_spec c 0); [constructor|]. by constructor.
Qed.

Lemma cstr_app_nul l r : Forall (fun c => c <> 0) l -> cstr (l ++ 0 :: r) = l.
Proof.
  induction 1 as [|c l Hc _ IH]; simpl; [done|].
  destruct (Z.eqb_spec c 0); [done|]. by rewrite IH.
Qed.

Lemma cstr_id l : Forall (fun c => c <> 0) l -> cstr l = l.
Proof.
  induction 1 as [|c l Hc _ IH]; simpl; [done|].
  destruct (Z.eqb_spec c 0); [done|]. by rewrite IH.
Qed.

Lemma cstr_split l :
  (length (cstr l) < length l)%nat -> exists r, l = cstr l ++ 0 :: r.
Proof.
  induction l as [|c l IH]; simpl; [lia|].
  destruct (Z.eqb_spec c 0) as [->|Hc]; simpl; intros H.
  - by exists l.
  - destruct IH as (r & Hr); [lia|]. exists r. by rewrite <- Hr.
Qed.

Lemma escaped_cons c s : escaped (c :: s) = escape_byte c ++ escaped s.
Proof. done. Qed.

Lemma escape_byte_cases c :
  c = 34 /\ escape_byte c = [92; 34] \/
  c = 92 /\ escape_byte c = [92; 92] \/
  c = 10 /\ escape_byte c = [92; 110] \/
  c = 13 /\ escape_byte c = [92; 114] \/
  c = 9 /\ escape_byte c = [92; 116] \/
  (printable c = true /\ c <> 34 /\ c <> 92 /\ escape_byte c = [c]) \/
  (encodable c = false /\ escape_byte c = []).
Proof.
  unfold escape_byte, encodable.
  destruct (Z.eqb_spec c 34) as [->|H34]; [tauto|].
  destruct (Z.eqb_spec c 92) as [->|H92]; [tauto|].
  destruct (Z.eqb_spec c 10) as [->|H10]; [tauto|].
  destruct (Z.eqb_spec c 13) as [->|H13]; [tauto|].
  destruct (Z.eqb_spec c 9) as [->|H9]; [tauto|].
  destruct (printable c) eqn:Hp; [|tauto].
  do 5 right. left. done.
Qed.

Lemma json_unescape_escaped s :
  json_unescape (escaped s) = Some (filter (fun c => encodable c = true) s).
Proof.
  induction s as [|c s IH]; [done|].
  rewrite escaped_cons, filter_cons.
  destruct (escape_byte_cases c)
    as [[-> ->]|[[-> ->]|[[-> ->]|[[-> ->]|[[-> ->]|[(Hp & H34 & H92 & ->)|[Hn ->]]]]]]];
    try (simpl; rewrite IH; reflexivity).
  - simpl app. cbn [json_unescape].
    replace (c =? 92) with false by lia. replace (c =? 34) with false by lia.
    rewrite Hp, IH. simpl.
    unfold encodable. rewrite Hp. simpl. done.
  - rewrite Hn. simpl. rewrite IH.
    destruct (decide (false = true)); done.
Qed.

Lemma escaped_printable s : Forall (fun c => 32 <= c <= 126) (escaped s).
Proof.
  induction s as [|c s IH]; [constructor|].
  rewrite escaped_cons. apply Forall_app. split; [|done].
  destruct (escape_byte_cases c)
    as [[-> ->]|[[-> ->]|[[-> ->]|[[-> ->]|[[-> ->]|[(Hp & H34 & H92 & ->)|[Hn ->]]]]]]];
    repeat constructor; try lia.
  all: unfold printable in Hp; lia.
Qed.

(** X3. What [json_escape_to_uart] writes is printable ASCII throughout, and
    read back as a JSON string body it is the string itself less the
    bytes that are neither printable nor newline, carriage return or
    tab: nothing the user typed can end the string or the line early. *)
Theorem json_escape_round_trip char_signed s w :
  Forall (fun c => 0 < c < 256) s ->
  exists out w',
    json_escape_to_uart char_signed s w = (Some tt, w') /\
    trace w' = trace w ++ map Tx out /\
    Forall (fun c => 32 <= c <= 126) out /\
    json_unescape out = Some (filter (fun c => encodable c = true) s) /\
    (Forall (fun c => encodable c = true) s -> json_unescape out = Some s).
Proof.
  intros Hs.
  destruct (json_escape_to_uart_spec char_signed s w Hs) as (w' & Hrun & Hw & _).
  exists (escaped s), w'. split; [exact Hrun|]. split; [exact Hw|].
  split; [apply escaped_printable|]. split; [apply json_unescape_escaped|].
  intros Hall. rewrite json_unescape_escaped. f_equal.
  clear -Hall. induction Hall as [|c s Hc _ IH]; [done|].
  rewrite filter_cons_True by done. by rewrite IH.
Qed.

(** X4. Whatever is typed survives the escaping: every character of the key
    table, shifted or not, is printable ASCII, so the text a pass over
    the keys types is read back from its escaped form unchanged. *)
Theorem typed_text_survives_escaping shift pressed was :
  Forall (fun c => 32 <= c <= 126) (Keyboard.typed shift pressed was) /\
  json_unescape (escaped (Keyboard.typed shift pressed was)) =
    Some (Keyboard.typed shift pressed was).
Proof.
  assert (Forall (fun c => 32 <= c <= 126) (Keyboard.typed shift pressed was)) as Hp.
  { unfold Keyboard.typed. apply Forall_fmap, Forall_forall. intros i Hi.
    apply list_elem_of_filter in Hi as [_ Hi]. apply elem_of_seq in Hi. unfold Keyboard.KEY_MAP_SIZE in Hi. simpl.
    assert (Forall (fun p : Z * Z => 32 <= p.1 <= 126 /\ 32 <= p.2 <= 126)
                   Keyboard.key_map) as Hall.
    { apply (bool_decide_unpack _). vm_compute. exact I. }
    unfold Keyboard.key_char.
    destruct (lookup_lt_is_Some_2 Keyboard.key_map i ltac:(lia)) as [[n s] Hl].
    rewrite Hl. apply (Forall_lookup_1 _ _ _ _ Hall) in Hl. simpl in Hl.
    destruct shift; tauto. }
  split; [exact Hp|].
  rewrite json_unescape_escaped. f_equal.
  induction Hp as [|c s Hc _ IH]; [done|].
  rewrite filter_cons_True; [by rewrite IH|].
  unfold encodable, printable. lia.
Qed.

(** ** Requests *)

Section WakeWait.
Context (E : env) (Hst : steady E) (Hrun : running E).

(** Whatever is on the link, the wait of [wake_esp32] ends; it reads and
    drops some bytes and sends nothing. *)
Lemma wake_wait_total ts w :
  tick w = S ts ->
  exists n0 w' dropped,
    (forall fuel, (n0 <= fuel)%nat ->
       loop (wake_wait_step E (now_ms E ts)) fuel tt w = (Some tt, w')) /\
    trace w' = trace w ++ map Rx dropped /\
    sink w' = sink w /\ buf w' = buf w /\ stores w' = stores w /\
    secs E ts < secs E (tick w' - 1).
Proof using Hst Hrun.
  intros Hts.
  pose (keep := fun w' : world =>
    (exists dropped, trace w' = trace w ++ map Rx dropped) /\
    sink w' = sink w /\ buf w' = buf w /\ stores w' = stores w).
  destruct (timed_loop_total E Hst Hrun
    (wake_wait_step E (now_ms E ts))
    (fun _ w' => keep w')
    (fun _ w' => keep w' /\ secs E ts < secs E (tick w' - 1))
    ts 20 3 0) with (s := tt) (w := w) as (n0 & [] & w' & Hloop & Hpost).
  - intros [] w1 Hk Hts1 Hsince. unfold since in Hsince.
    pose proof (steady_le E ts (tick w1) Hst ltac:(lia)) as Hmono.
    unfold wake_wait_step.
    destruct (Z.ltb_spec ((secs E (tick w1) - secs E ts) * 1000) 20) as [Hlt|Hge].
    + destruct (rx w1) as [|[a b] r] eqn:Hrx1.
      { exists (inl tt), (mkWorld (2 + tick w1) (rx w1) (chan w1) (sink w1) (buf w1) (stores w1)).
        split; [|split; [simpl; lia|split; [done|]]].
        - intros n _. bind_step by reflexivity.
          rewrite elapsed_exact by (try done; unfold two32; lia).
          replace (_ <? 20) with true by lia.
          run. rewrite Hrx1. simpl. done.
        - exact Hk. }
      destruct (decide (a <= S (tick w1))%nat) as [Ha|Ha].
      * pose (w2 := mkWorld (3 + tick w1) r ((2 + tick w1, Rx b)%nat :: chan w1)
                      (sink w1) (buf w1) (stores w1)).
        assert (keep w2) as Hk2.
        { destruct Hk as ([dropped Htr] & ? & ? & ?). unfold keep, w2.
          split; [|done]. exists (dropped ++ [b]).
          rewrite trace_cons, Htr, map_app, <- app_assoc. done. }
        exists (inl tt), w2.
        split; [|split; [simpl; lia|]].
        -- intros n _. bind_step by reflexivity.
           rewrite elapsed_exact by (try done; unfold two32; lia).
           replace (_ <? 20) with true by lia.
           bind_step by (apply (has_data_ready _ a b r); [exact Hrx1 | simpl; lia]).
           bind_step by (apply (read_char_ready _ a b r); [exact Hrx1 | simpl; lia]).
           done.
        -- split; [done|]. exact Hk2.
      * exists (inl tt), (mkWorld (2 + tick w1) (rx w1) (chan w1) (sink w1) (buf w1) (stores w1)).
        split; [|split; [simpl; lia|split; [done|]]].
        -- intros n _. bind_step by reflexivity.
           rewrite elapsed_exact by (try done; unfold two32; lia).
           replace (_ <? 20) with true by lia.
           run. rewrite Hrx1. simpl.
           replace (a <=? S (tick w1))%nat with false
             by (symmetry; apply Nat.leb_gt; lia). done.
        -- exact Hk.
    + exists (inr tt), (tock w1). split; [|split; [simpl; lia|]].
      * intros n _. bind_step by reflexivity.
        rewrite elapsed_exact by (try done; unfold two32; lia).
        replace (_ <? 20) with false by lia. done.
      * split; [exact Hk|]. simpl. rewrite Nat.sub_0_r. lia.
  - split; [|done]. exists []. simpl. by rewrite app_nil_r.
  - lia.
  - unfold since. rewrite Hts.
    pose proof (steady_le E ts (S ts) Hst ltac:(lia)). lia.
  - destruct Hpost as [Hk Hclock]. destruct Hk as ([dropped Htr] & Hrest).
    exists n0, w', dropped. split; [exact Hloop|]. split; [exact Htr|].
    destruct Hrest as (? & ? & ?). done.
Qed.
End WakeWait.

Lemma wake_esp32_total E w :
  steady E -> running E ->
  exists n0 w' dropped,
    (forall fuel, (n0 <= fuel)%nat -> wake_esp32 E fuel w = (Some tt, w')) /\
    trace w' = trace w ++ map Tx [10; 10; 10] ++ map Rx dropped /\
    sink w' = sink w /\ buf w' = buf w /\ stores w' = stores w /\
    secs E (3 + tick w) < secs E (tick w' - 1).
Proof.
  intros Hst Hrun.
  pose (w1 := mkWorld (4 + tick w) (rx w)
                (rev (stamp (tick w) [10; 10; 10]) ++ chan w)
                (sink w) (buf w) (stores w)).
  destruct (wake_wait_total E Hst Hrun (3 + tick w) w1 eq_refl)
    as (n0 & w' & dropped & Hloop & Htr & Hsk & Hbf & Hst' & Hclock).
  exists n0, w', dropped. split; [|split; [|done]].
  - intros fuel Hfuel. unfold wake_esp32.
    bind_step by reflexivity. bind_step by reflexivity.
    apply Hloop. exact Hfuel.
  - rewrite Htr. unfold w1, trace. simpl. rewrite !map_app. simpl.
    rewrite <- !app_assoc. done.
Qed.

Lemma literal_nonzero :
  Forall (fun c => c <> 0) json_open /\ Forall (fun c => c <> 0) turn_open /\
  Forall (fun c => c <> 0) turn_mid /\ Forall (fun c => c <> 0) turn_close /\
  Forall (fun c => c <> 0) prompt_open /\ Forall (fun c => c <> 0) json_close.
Proof. repeat split; apply (bool_decide_unpack _); vm_compute; exact I. Qed.

Lemma literal_printable :
  Forall (fun c => 32 <= c <= 126) json_open /\
  Forall (fun c => 32 <= c <= 126) turn_open /\
  Forall (fun c => 32 <= c <= 126) turn_mid /\
  Forall (fun c => 32 <= c <= 126) turn_close /\
  Forall (fun c => 32 <= c <= 126) prompt_open.
Proof. repeat split; apply (bool_decide_unpack _); vm_compute; exact I. Qed.

Local Opaque json_open turn_open turn_mid turn_close prompt_open.

Lemma is_string_nonzero s : is_string s -> Forall (fun c => c <> 0) s.
Proof. intros H. eapply Forall_impl; [exact H|]. intros c. simpl. lia. Qed.

Lemma send_turns_spec cs h n : forall i w,
  0 <= i ->
  Forall (fun t => is_string (History.role t) /\ is_string (History.content t))
         (take n (drop (Z.to_nat i) (History.turns h))) ->
  (Z.to_nat i + n <= length (History.turns h))%nat ->
  exists w',
    send_turns cs h n i w = (Some tt, w') /\
    wrote (turns_json (i =? 0) (take n (drop (Z.to_nat i) (History.turns h)))) w w'.
Proof.
  destruct literal_nonzero as (_ & Hto & Htm & Htc & _).
  induction n as [|n IH]; intros i w Hi Hstr Hlen.
  - exists w. split; [done|]. rewrite take_0. apply wrote_refl.
  - destruct (lookup_lt_is_Some_2 (History.turns h) (Z.to_nat i) ltac:(lia)) as [t Ht].
    assert (turn_at h i = t) as Hat by (unfold turn_at; by rewrite Ht).
    rewrite (drop_S _ _ _ Ht) in *. simpl take in *.
    apply Forall_cons in Hstr as [[Hr Hc] Hstr].
    replace (S (Z.to_nat i)) with (Z.to_nat (i + 1)) in * by lia.
    simpl send_turns. rewrite Hat.
    assert (exists w1, (if i >? 0 then uart_write_char 44 else mret tt) w = (Some tt, w1) /\
                       wrote (if i =? 0 then [] else [44]) w w1) as (w1 & H1 & W1).
    { destruct (Z.gtb_spec i 0); destruct (Z.eqb_spec i 0); try lia.
      - apply uart_write_char_spec.
      - eexists. split; [reflexivity|]. apply wrote_refl. }
    destruct (uart_write_str_spec turn_open w1 Hto) as (w2 & H2 & W2).
    destruct (uart_write_str_spec (History.role t) w2 (is_string_nonzero _ Hr))
      as (w3 & H3 & W3).
    destruct (uart_write_str_spec turn_mid w3 Htm) as (w4 & H4 & W4).
    destruct (json_escape_to_uart_spec cs (History.content t) w4 Hc) as (w5 & H5 & W5).
    destruct (uart_write_str_spec turn_close w5 Htc) as (w6 & H6 & W6).
    destruct (IH (i + 1) w6 ltac:(lia) Hstr ltac:(lia)) as (w7 & H7 & W7).
    exists w7. split.
    + rewrite (bind_spec _ _ _ _ _ H1). cbv beta.
      rewrite (bind_spec _ _ _ _ _ H2). cbv beta.
      rewrite (bind_spec _ _ _ _ _ H3). cbv beta.
      rewrite (bind_spec _ _ _ _ _ H4). cbv beta.
      rewrite (bind_spec _ _ _ _ _ H5). cbv beta.
      rewrite (bind_spec _ _ _ _ _ H6). cbv beta.
      exact H7.
    + replace (i + 1 =? 0) with false in W7 by lia.
      cbn [turns_json]. unfold turn_json.
      rewrite <- !app_assoc.
      pose proof (wrote_trans _ _ _ _ _ W6 W7) as W67.
      pose proof (wrote_trans _ _ _ _ _ W5 W67) as W57.
      pose proof (wrote_trans _ _ _ _ _ W4 W57) as W47.
      pose proof (wrote_trans _ _ _ _ _ W3 W47) as W37.
      pose proof (wrote_trans _ _ _ _ _ W2 W37) as W27.
      exact (wrote_trans _ _ _ _ _ W1 W27).
Qed.

Lemma send_request_total E cs h prompt w :
  steady E -> running E -> History.wf h ->
  strings (History.stored h) -> is_string prompt ->
  exists n0 w' dropped,
    (forall fuel, (n0 <= fuel)%nat ->
       send_request E cs h prompt fuel w = (Some tt, w')) /\
    trace w' = trace w ++ map Tx [10; 10; 10] ++ map Rx dropped ++
               map Tx (request_line h prompt ++ [10]) /\
    sink w' = sink w /\ buf w' = buf w /\ stores w' = stores w.
Proof.
  intros Hst Hrun [Hlen Hcnt] Hstr Hp.
  destruct literal_nonzero as (Hjo & _ & _ & _ & Hpo & Hjc).
  destruct (wake_esp32_total E w Hst Hrun)
    as (n0 & w1 & dropped & H1 & Htr1 & Hsk1 & Hbf1 & Hst1 & _).
  destruct (uart_write_str_spec json_open w1 Hjo) as (w2 & H2 & W2).
  destruct (send_turns_spec cs h (Z.to_nat (History.count h)) 0 w2 ltac:(lia))
    as (w3 & H3 & W3).
  { exact Hstr. }
  { unfold History.capacity in Hlen. simpl. lia. }
  destruct (uart_write_str_spec prompt_open w3 Hpo) as (w4 & H4 & W4).
  destruct (json_escape_to_uart_spec cs prompt w4 Hp) as (w5 & H5 & W5).
  destruct (uart_write_str_spec json_close w5 Hjc) as (w6 & H6 & W6).
  exists n0, w6, dropped. split.
  - intros fuel Hfuel. unfold send_request.
    rewrite (bind_spec _ _ _ _ _ (H1 fuel Hfuel)). cbv beta.
    rewrite (bind_spec _ _ _ _ _ H2). cbv beta.
    rewrite (bind_spec _ _ _ _ _ H3). cbv beta.
    rewrite (bind_spec _ _ _ _ _ H4). cbv beta.
    rewrite (bind_spec _ _ _ _ _ H5). cbv beta.
    exact H6.
  - pose proof (wrote_trans _ _ _ _ _ W5 W6) as W56.
    pose proof (wrote_trans _ _ _ _ _ W4 W56) as W46.
    pose proof (wrote_trans _ _ _ _ _ W3 W46) as W36.
    pose proof (wrote_trans _ _ _ _ _ W2 W36) as W26.
    destruct W26 as (Htr & _ & Hsk & Hbf & Hsto & _).
    split; [|split; [|split]]; [|congruence..].
    rewrite Htr, Htr1. rewrite <- !app_assoc. do 3 f_equal. f_equal.
    unfold request_line, History.stored. simpl drop.
    change (0 =? 0) with true. unfold json_close.
    rewrite <- !app_assoc. done.
Qed.

Lemma request_line_printable h prompt :
  Forall (fun t => Forall (fun c => 32 <= c <= 126) (History.role t))
         (History.stored h) ->
  Forall (fun c => 32 <= c <= 126) (request_line h prompt).
Proof.
  intros Hroles. destruct literal_printable as (Hjo & Hto & Htm & Htc & Hpo).
  unfold request_line. repeat (apply Forall_app; split); try done.
  - generalize true. induction Hroles as [|t ts Ht _ IH]; intros first; [constructor|].
    cbn [turns_json]. unfold turn_json.
    repeat (apply Forall_app; split); try done.
    + destruct first; repeat constructor; lia.
    + apply escaped_printable.
  - apply escaped_printable.
  - repeat constructor; lia.
  - apply (bool_decide_unpack _). vm_compute. exact I.
Qed.

Lemma turns_json_snoc ts t : forall first,
  turns_json first (ts ++ [t]) =
    turns_json first ts ++
    (if first && bool_decide (ts = []) then [] else [44]) ++ turn_json t.
Proof.
  induction ts as [|t0 ts IH]; intros first.
  - simpl. rewrite app_nil_r. by destruct first.
  - cbn [app turns_json]. rewrite IH. rewrite <- !app_assoc.
    rewrite andb_false_r. done.
Qed.

Local Transparent json_open turn_open turn_mid turn_close prompt_open.

(** X5. [wake_esp32] always returns: it writes the three wake bytes, then
    reads and drops whatever arrives until the clock, which counts in
    steps of 1000 ms, shows a later second than at the start of the
    20 ms wait; it sends nothing else and shows nothing. *)
Theorem wake_esp32_returns E w :
  steady E -> running E ->
  exists n0 w' dropped,
    (forall fuel, (n0 <= fuel)%nat -> wake_esp32 E fuel w = (Some tt, w')) /\
    trace w' = trace w ++ map Tx [10; 10; 10] ++ map Rx dropped /\
    sink w' = sink w /\ buf w' = buf w /\ stores w' = stores w /\
    secs E (3 + tick w) < secs E (tick w' - 1).
Proof. intros Hst Hrun. apply wake_esp32_total; assumption. Qed.

(** X6. [send_request] writes, after the wake bytes, one line: the JSON
    object with the stored turns in order and the prompt, every content
    escaped, and the newline.  With printable roles the line is printable
    ASCII throughout, so the newline that ends it is the only one. *)
Theorem send_request_writes_one_line E cs h prompt w :
  steady E -> running E -> History.wf h ->
  strings (History.stored h) -> is_string prompt ->
  exists n0 w' dropped,
    (forall fuel, (n0 <= fuel)%nat ->
       send_request E cs h prompt fuel w = (Some tt, w')) /\
    trace w' = trace w ++ map Tx [10; 10; 10] ++ map Rx dropped ++
               map Tx (request_line h prompt ++ [10]) /\
    sink w' = sink w /\ buf w' = buf w /\ stores w' = stores w /\
    (Forall (fun t => Forall (fun c => 32 <= c <= 126) (History.role t))
            (History.stored h) ->
     Forall (fun c => 32 <= c <= 126) (request_line h prompt)).
Proof.
  intros Hst Hrun Hwf Hstr Hp.
  destruct (send_request_total E cs h prompt w Hst Hrun Hwf Hstr Hp)
    as (n0 & w' & dropped & Hrun' & Htr & Hsk & Hbf & Hsto).
  exists n0, w', dropped. repeat (split; [assumption|]).
  apply request_line_printable.
Qed.

(** X7. As [main] sends a message: the prompt is first added to the history
    as a user turn and then sent with that history, so the request
    carries it twice, as the last turn of the history and as the current
    prompt. *)
Theorem request_carries_prompt_twice E cs h p w :
  steady E -> running E -> History.wf h ->
  strings (History.stored h) -> is_string p ->
  let h' := History.history_add (str "user") p h in
  exists n0 w' dropped before,
    (forall fuel, (n0 <= fuel)%nat ->
       send_request E cs h' p fuel w = (Some tt, w')) /\
    trace w' = trace w ++ map Tx [10; 10; 10] ++ map Rx dropped ++
               map Tx (json_open ++ before ++
                       turn_json (History.mkTurn (str "user") p) ++
                       prompt_open ++ escaped p ++ [34] ++ str "}" ++ [10]).
Proof.
  intros Hst Hrun Hwf Hstr Hp h'.
  destruct (HistoryFacts.history_add_stored (str "user") p h Hwf) as (Hwf' & Hcase & _).
  fold h' in Hwf', Hcase.
  assert (cstr p = p) as Hcp.
  { clear -Hp. induction Hp as [|c s Hc _ IH]; [done|]. simpl.
    replace (c =? 0) with false by lia. by rewrite IH. }
  assert (exists old, History.stored h' = old ++ [History.mkTurn (str "user") p] /\
                      strings old) as (old & Hold & Hsold).
  { rewrite Hcp in Hcase. change (cstr (str "user")) with (str "user") in Hcase.
    destruct (History.count h =? MAX_HISTORY_TURNS); destruct Hcase as [Hs _].
    - exists (tail (History.stored h)). split; [done|].
      unfold strings in *. destruct (History.stored h); [done|].
      by inversion Hstr.
    - by exists (History.stored h). }
  assert (strings (History.stored h')) as Hstr'.
  { rewrite Hold. apply Forall_app. split; [done|].
    repeat constructor; simpl; try done. }
  destruct (send_request_total E cs h' p w Hst Hrun Hwf' Hstr' Hp)
    as (n0 & w' & dropped & Hrun' & Htr & _).
  exists n0, w', dropped,
    (turns_json true old ++ if true && bool_decide (old = []) then [] else [44]).
  split; [exact Hrun'|]. rewrite Htr. do 4 f_equal.
  unfold request_line. rewrite Hold, turns_json_snoc.
  rewrite <- !app_assoc. done.
Qed.

(** ** The wait for the header *)

Section HeaderSilent.
Context (E : env) (Hst : steady E) (Hrun : running E).
Context (Hesc : forall t, esc_key E t = false).

Lemma wait_header_silent w :
  rx w = [] ->
  exists n0 t',
    (forall fuel, (n0 <= fuel)%nat ->
       wait_for_len_or_error E fuel w = (Some (-1), timed_out_at t' w)) /\
    (tick w < t')%nat /\ 60000 <= (secs E t' - secs E (tick w)) * 1000.
Proof using Hst Hrun Hesc.
  intros Hrx. unfold wait_for_len_or_error.
  destruct (timed_loop_total E Hst Hrun
    (wait_header_step E (now_ms E (tick w)))
    (fun line w' => line = [] /\ exists t, w' = at_tick t w /\ (tick w < t)%nat)
    (fun r w' => r = -1 /\ exists t, w' = timed_out_at t w /\ (tick w < t)%nat /\
                           60000 <= (secs E t - secs E (tick w)) * 1000)
    (tick w) 60000 3 0) with (s := @nil Z) (w := tock w) as (n0 & r & w' & Hloop & Hpost).
  - intros line w1 (-> & t & -> & Ht) _ Hsince. unfold since in Hsince. simpl in Hsince.
    pose proof (steady_le E (tick w) t Hst ltac:(lia)) as Hmono.
    pose proof (steady_le E t (S (S t)) Hst ltac:(lia)) as Hmono1.
    unfold wait_header_step.
    destruct (Z.ltb_spec ((secs E t - secs E (tick w)) * 1000) 60000) as [Hlt|Hge].
    + exists (inl []), (at_tick (t + 3) w). split; [|split].
      * intros n Hn. run.
        rewrite elapsed_exact by (try done; unfold two32; lia).
        replace (_ <? 60000) with true by lia.
        rewrite Hrx. simpl. rewrite Hesc. do 3 f_equal. lia.
      * simpl. lia.
      * split; [done|]. split; [done|]. exists (t + 3)%nat. split; [done|lia].
    + exists (inr (-1)), (timed_out_at (S (S t)) w). split; [|split].
      * intros n Hn. run.
        rewrite elapsed_exact by (try done; unfold two32; lia).
        replace (_ <? 60000) with false by lia. done.
      * simpl. lia.
      * split; [done|]. exists (S (S t)). split; [done|]. split; lia.
  - split; [done|]. exists (S (tick w)). split; [done|lia].
  - simpl. lia.
  - unfold since. simpl.
    pose proof (steady_le E (tick w) (S (tick w)) Hst ltac:(lia)). lia.
  - destruct Hpost as (-> & t' & -> & Ht' & Hel).
    exists n0, t'. split; [|done].
    intros fuel Hfuel. bind_step by reflexivity. apply Hloop. exact Hfuel.
Qed.
End HeaderSilent.

(** With ESC down, the first iteration of the header wait ends it. *)
Lemma wait_header_cancelled E w :
  steady E -> (forall t, esc_key E t = true) ->
  exists w',
    (forall fuel, (1 <= fuel)%nat ->
       wait_for_len_or_error E fuel w = (Some (-1), w')) /\
    sink w' = AddLine (str "[Cancelled]") :: sink w /\
    sent w' = sent w /\ buf w' = buf w /\ stores w' = stores w /\
    (rx w' = rx w \/ exists it, rx w = it :: rx w').
Proof.
  intros Hst Hesc. unfold wait_for_len_or_error.
  pose proof (Hst (tick w)) as Hs1.
  assert ((elapsed (now_ms E (S (tick w))) (now_ms E (tick w)) <? 60000) = true) as Hel.
  { rewrite elapsed_exact by (try done; unfold two32; lia). lia. }
  destruct (rx w) as [|[a b] r] eqn:Hrx.
  { eexists. split.
    - intros [|n] Hn; [lia|]. bind_step by reflexivity.
      rewrite loop_S. unfold wait_header_step. run. rewrite Hel. run.
      rewrite Hrx. simpl. rewrite Hesc. reflexivity.
    - simpl. rewrite ?Hrx. repeat split; auto. }
  destruct (decide (a <= 2 + tick w)%nat) as [Ha|Ha].
  - eexists. split.
    + intros [|n] Hn; [lia|]. bind_step by reflexivity.
      rewrite loop_S. unfold wait_header_step. run. rewrite Hel. run.
      rewrite Hrx. simpl.
      replace (a <=? S (S (tick w)))%nat with true
        by (symmetry; apply Nat.leb_le; lia).
      simpl.
      replace (a <=? S (S (S (tick w))))%nat with true
        by (symmetry; apply Nat.leb_le; lia).
      destruct (b =? 10); simpl; rewrite Hesc; reflexivity.
    + simpl. unfold sent, trace. simpl. rewrite map_app, filter_app. simpl.
      rewrite filter_cons_False by (simpl; tauto). rewrite app_nil_r.
      repeat split; auto. right. by exists (a, b).
  - eexists. split.
    + intros [|n] Hn; [lia|]. bind_step by reflexivity.
      rewrite loop_S. unfold wait_header_step. run. rewrite Hel. run.
      rewrite Hrx. simpl.
      replace (a <=? S (S (tick w)))%nat with false
        by (symmetry; apply Nat.leb_gt; lia).
      rewrite Hesc. reflexivity.
    + simpl. rewrite ?Hrx. repeat split; auto.
Qed.

(** *** A header line that is on the link *)

Lemma line_push_take cs : forall line,
  (length line <= 31)%nat ->
  fold_left (line_push false) cs line = take 31 (line ++ cs).
Proof.
  induction cs as [|c cs IH]; intros line Hlen.
  - simpl. rewrite app_nil_r. symmetry. by apply take_ge.
  - simpl. unfold line_push at 2. simpl.
    destruct (Z.ltb_spec (Z.of_nat (length line)) 31) as [Hlt|Hge].
    + rewrite IH by (rewrite length_app; simpl; lia).
      by rewrite <- app_assoc.
    + rewrite IH by done.
      rewrite !take_app_le by lia. done.
Qed.

Lemma bytes_eqb_eq a : forall b, bytes_eqb a b = true -> a = b.
Proof.
  induction a as [|x a IH]; intros [|y b]; simpl; try done.
  intros H. apply andb_true_iff in H as [Hx Hr].
  apply Z.eqb_eq in Hx. subst. by rewrite (IH b Hr).
Qed.

Section HeaderLine.
Context (E : env) (Hst : steady E).
Context (Hesc : forall t, esc_key E t = false).

(** The characters of a line, all on the link, go to the line buffer:
    four operations each. *)
Lemma wait_header_chars ts items : forall line w rest,
  rx w = items ++ rest ->
  Forall (fun it => (it.1 <= tick w)%nat /\ it.2 <> 10) items ->
  (ts <= tick w)%nat ->
  (secs E (tick w + 4 * length items) - secs E ts) * 1000 < 60000 ->
  exists w',
    (forall fuel,
       loop (wait_header_step E (now_ms E ts)) (length items + fuel) line w =
       loop (wait_header_step E (now_ms E ts)) fuel
            (fold_left (line_push false) (map snd items) line) w') /\
    rx w' = rest /\ trace w' = trace w ++ map Rx (map snd items) /\
    sink w' = sink w /\ buf w' = buf w /\ stores w' = stores w /\
    tick w' = (tick w + 4 * length items)%nat.
Proof using Hst Hesc.
  induction items as [|[a c] items IH]; intros line w rest Hrx Hall Hts Hclock.
  - exists w. simpl. rewrite app_nil_r. repeat split; auto; lia.
  - apply Forall_cons in Hall as [[Ha Hc] Hall]. simpl in Ha, Hc.
    pose (w1 := mkWorld (4 + tick w) (items ++ rest) ((2 + tick w, Rx c)%nat :: chan w)
                  (sink w) (buf w) (stores w)).
    simpl length in Hclock.
    pose proof (steady_le E ts (tick w) Hst Hts) as Hm1.
    pose proof (steady_le E (tick w) (tick w + 4 * S (length items)) Hst ltac:(lia)) as Hm2.
    destruct (IH (line_push false line c) w1 rest eq_refl) as (w' & Hloop & Hrx' & Htr & Hsk & Hbf & Hsto & Htk).
    { eapply Forall_impl; [exact Hall|]. intros [a' c'] [? ?]. simpl in *. split; [lia|done]. }
    { simpl. lia. }
    { cbn [tick w1].
      replace (4 + tick w + 4 * length items)%nat
        with (tick w + 4 * S (length items))%nat by lia. exact Hclock. }
    exists w'. split; [|split; [done|split; [|split; [done|split; [done|split; [done|]]]]]].
    + intros fuel. simpl length. change (S (length items) + fuel)%nat
        with (S (length items + fuel)).
      rewrite loop_S.
      assert (wait_header_step E (now_ms E ts) (length items + fuel) line w =
              (Some (inl (line_push false line c)), w1)) as ->.
      { unfold wait_header_step. bind_step by reflexivity.
        rewrite elapsed_exact by (try done; unfold two32; lia).
        replace (_ <? 60000) with true by lia.
        bind_step by (apply (has_data_ready _ a c (items ++ rest)); [exact Hrx | simpl; lia]).
        erewrite (bind_spec (uart_read_char ≫= _)).
        2:{ bind_step by (apply (read_char_ready _ a c (items ++ rest)); [exact Hrx | simpl; lia]).
            replace (c =? 10) with false by lia. reflexivity. }
        cbv beta iota. run. rewrite Hesc. reflexivity. }
      apply Hloop.
    + rewrite Htr. unfold w1. rewrite trace_cons. simpl. by rewrite <- app_assoc.
    + rewrite Htk. simpl. lia.
Qed.

(** The newline that ends a line starting with LEN: gives the number
    after it. *)
Lemma wait_header_len ts line a rest w fuel :
  rx w = (a, 10) :: rest -> (a <= tick w)%nat -> (ts <= tick w)%nat ->
  (secs E (tick w) - secs E ts) * 1000 < 60000 ->
  strncmp_eq line "LEN:" 4 = true ->
  loop (wait_header_step E (now_ms E ts)) (S fuel) line w =
    (Some (atoi (drop 4 (cstr line))),
     mkWorld (3 + tick w) rest ((2 + tick w, Rx 10)%nat :: chan w)
             (sink w) (buf w) (stores w)).
Proof using Hst.
  intros Hrx Ha Hts Hclock Hlen.
  pose proof (steady_le E ts (tick w) Hst Hts) as Hm1.
  rewrite loop_S.
  assert (wait_header_step E (now_ms E ts) fuel line w =
          (Some (inr (atoi (drop 4 (cstr line)))),
           mkWorld (3 + tick w) rest ((2 + tick w, Rx 10)%nat :: chan w)
                   (sink w) (buf w) (stores w))) as ->; [|done].
  unfold wait_header_step. bind_step by reflexivity.
  rewrite elapsed_exact by (try done; unfold two32; lia).
  replace (_ <? 60000) with true by lia.
  bind_step by (apply (has_data_ready _ a 10 rest); [exact Hrx | simpl; lia]).
  erewrite (bind_spec (uart_read_char ≫= _)).
  2:{ bind_step by (apply (read_char_ready _ a 10 rest); [exact Hrx | simpl; lia]).
      change (10 =? 10) with true. cbv iota. rewrite Hlen. reflexivity. }
  reflexivity.
Qed.

(** The newline that ends a line starting with ERR: shows the line in
    brackets and gives -1. *)
Lemma wait_header_err ts line a rest w fuel :
  rx w = (a, 10) :: rest -> (a <= tick w)%nat -> (ts <= tick w)%nat ->
  (secs E (tick w) - secs E ts) * 1000 < 60000 ->
  strncmp_eq line "ERR:" 4 = true ->
  loop (wait_header_step E (now_ms E ts)) (S fuel) line w =
    (Some (-1),
     mkWorld (5 + tick w) rest ((2 + tick w, Rx 10)%nat :: chan w)
             (AddLine (str "]") :: AddText (str "[") (cstr line) :: sink w)
             (buf w) (stores w)).
Proof using Hst.
  intros Hrx Ha Hts Hclock Herr.
  assert (strncmp_eq line "LEN:" 4 = false) as Hlen.
  { unfold strncmp_eq in *. apply bytes_eqb_eq in Herr. by rewrite Herr. }
  pose proof (steady_le E ts (tick w) Hst Hts) as Hm1.
  rewrite loop_S.
  assert (wait_header_step E (now_ms E ts) fuel line w =
          (Some (inr (-1)),
           mkWorld (5 + tick w) rest ((2 + tick w, Rx 10)%nat :: chan w)
             (AddLine (str "]") :: AddText (str "[") (cstr line) :: sink w)
             (buf w) (stores w))) as ->; [|done].
  unfold wait_header_step. bind_step by reflexivity.
  rewrite elapsed_exact by (try done; unfold two32; lia).
  replace (_ <? 60000) with true by lia.
  bind_step by (apply (has_data_ready _ a 10 rest); [exact Hrx | simpl; lia]).
  erewrite (bind_spec (uart_read_char ≫= _)).
  2:{ bind_step by (apply (read_char_ready _ a 10 rest); [exact Hrx | simpl; lia]).
      change (10 =? 10) with true. cbv iota. rewrite Hlen, Herr. reflexivity. }
  reflexivity.
Qed.

(** A whole line on the link, taken apart: the characters before the
    newline and the newline. *)
Lemma header_line_items w items (l : list Z) rest :
  rx w = items ++ rest -> map snd items = l ++ [10] -> available w items ->
  Forall (fun c => c <> 10) l ->
  exists items' a,
    rx w = items' ++ (a, 10) :: rest /\ map snd items' = l /\
    Forall (fun it => (it.1 <= S (tick w))%nat /\ it.2 <> 10) items' /\
    (a <= tick w)%nat /\ length items = S (length l).
Proof.
  intros Hrx Hmap Hav Hl.
  apply fmap_app_inv in Hmap as (items' & last & Hi' & Hlast & ->).
  destruct last as [|[a c] [|? ?]]; try done. simpl in Hlast.
  assert (c = 10) as -> by congruence. clear Hlast.
  apply Forall_app in Hav as [Hav1 Hav2].
  apply Forall_cons in Hav2 as [Ha _]. simpl in Ha.
  exists items', a. rewrite <- app_assoc in Hrx. split; [done|]. split; [done|].
  split; [|split; [done|]].
  - subst l. clear -Hav1 Hl. induction items' as [|[a' c'] it IH]; [constructor|].
    apply Forall_cons in Hav1 as [? ?]. simpl in Hl.
    apply Forall_cons in Hl as [? ?]. constructor; [simpl in *; split; [lia|done]|].
    by apply IH.
  - rewrite length_app, Hi', length_map. simpl. lia.
Qed.

Lemma header_len w items v rest :
  rx w = items ++ rest ->
  map snd items = str "LEN:" ++ v ++ [10] ->
  available w items ->
  Forall (fun c => c <> 0 /\ c <> 10) v ->
  (secs E (tick w + 4 * length items) - secs E (tick w)) * 1000 < 60000 ->
  exists w',
    (forall fuel, (length items <= fuel)%nat ->
       wait_for_len_or_error E fuel w = (Some (atoi (take 27 v)), w')) /\
    rx w' = rest /\ trace w' = trace w ++ map Rx (map snd items) /\
    sink w' = sink w /\ buf w' = buf w /\ stores w' = stores w.
Proof using Hst Hesc.
  intros Hrx Hmap Hav Hv Hclock.
  assert (Forall (fun c => c <> 10) (str "LEN:" ++ v)) as Hl.
  { apply Forall_app. split; [repeat constructor; done|].
    eapply Forall_impl; [exact Hv|]. simpl. tauto. }
  destruct (header_line_items w items (str "LEN:" ++ v) rest Hrx
              ltac:(by rewrite <- app_assoc) Hav Hl)
    as (items' & a & Hrx' & Hmap' & Hall & Ha & Hlen).
  assert (length items' = length (str "LEN:" ++ v)) as Hlen'
    by (rewrite <- Hmap', length_map; done).
  destruct (wait_header_chars (tick w) items' [] (tock w) ((a, 10) :: rest)
              Hrx' Hall ltac:(simpl; lia))
    as (w1 & Hloop & Hrx1 & Htr1 & Hsk1 & Hbf1 & Hsto1 & Htk1).
  { unfold tock. cbn [tick].
    pose proof (steady_le E (S (tick w) + 4 * length items')
                  (tick w + 4 * length items) Hst ltac:(lia)). lia. }
  unfold tock in Htk1. cbn [tick] in Htk1.
  assert ((secs E (tick w1) - secs E (tick w)) * 1000 < 60000) as Hclock1.
  { pose proof (steady_le E (tick w1) (tick w + 4 * length items) Hst ltac:(lia)). lia. }
  set (line := fold_left (line_push false) (map snd items') []) in *.
  assert (line = take 31 (str "LEN:" ++ v)) as Hline.
  { unfold line. rewrite line_push_take by (simpl; lia). by rewrite Hmap'. }
  assert (cstr line = line) as Hcstr.
  { apply cstr_id. rewrite Hline. apply Forall_take, Forall_app.
    split; [repeat constructor; done|].
    eapply Forall_impl; [exact Hv|]. simpl. tauto. }
  eexists. split; [|split; [|split; [|split; [|split]]]].
  - intros fuel Hfuel. unfold wait_for_len_or_error.
    bind_step by reflexivity.
    replace fuel with (length items' + S (fuel - length items))%nat by lia.
    rewrite Hloop. fold line.
    rewrite (wait_header_len (tick w) line a rest w1 _ Hrx1 ltac:(lia) ltac:(lia) Hclock1).
    + rewrite Hcstr, Hline. reflexivity.
    + unfold strncmp_eq. rewrite Hcstr, Hline, take_take.
      change (4 `min` 31)%nat with 4%nat. reflexivity.
  - done.
  - rewrite trace_cons, Htr1. change (trace (tock w)) with (trace w).
    rewrite Hmap, app_assoc, <- Hmap', map_app, <- app_assoc. done.
  - done.
  - done.
  - done.
Qed.

Lemma header_err w items msg rest :
  rx w = items ++ rest ->
  map snd items = str "ERR:" ++ msg ++ [10] ->
  available w items ->
  Forall (fun c => c <> 0 /\ c <> 10) msg ->
  (secs E (tick w + 4 * length items) - secs E (tick w)) * 1000 < 60000 ->
  exists w',
    (forall fuel, (length items <= fuel)%nat ->
       wait_for_len_or_error E fuel w = (Some (-1), w')) /\
    rx w' = rest /\ trace w' = trace w ++ map Rx (map snd items) /\
    sink w' = AddLine (str "]") ::
              AddText (str "[") (take 31 (str "ERR:" ++ msg)) :: sink w /\
    buf w' = buf w /\ stores w' = stores w.
Proof using Hst Hesc.
  intros Hrx Hmap Hav Hv Hclock.
  assert (Forall (fun c => c <> 10) (str "ERR:" ++ msg)) as Hl.
  { apply Forall_app. split; [repeat constructor; done|].
    eapply Forall_impl; [exact Hv|]. simpl. tauto. }
  destruct (header_line_items w items (str "ERR:" ++ msg) rest Hrx
              ltac:(by rewrite <- app_assoc) Hav Hl)
    as (items' & a & Hrx' & Hmap' & Hall & Ha & Hlen).
  assert (length items' = length (str "ERR:" ++ msg)) as Hlen'
    by (rewrite <- Hmap', length_map; done).
  destruct (wait_header_chars (tick w) items' [] (tock w) ((a, 10) :: rest)
              Hrx' Hall ltac:(simpl; lia))
    as (w1 & Hloop & Hrx1 & Htr1 & Hsk1 & Hbf1 & Hsto1 & Htk1).
  { unfold tock. cbn [tick].
    pose proof (steady_le E (S (tick w) + 4 * length items')
                  (tick w + 4 * length items) Hst ltac:(lia)). lia. }
  unfold tock in Htk1. cbn [tick] in Htk1.
  assert ((secs E (tick w1) - secs E (tick w)) * 1000 < 60000) as Hclock1.
  { pose proof (steady_le E (tick w1) (tick w + 4 * length items) Hst ltac:(lia)). lia. }
  set (line := fold_left (line_push false) (map snd items') []) in *.
  assert (line = take 31 (str "ERR:" ++ msg)) as Hline.
  { unfold line. rewrite line_push_take by (simpl; lia). by rewrite Hmap'. }
  assert (cstr line = line) as Hcstr.
  { apply cstr_id. rewrite Hline. apply Forall_take, Forall_app.
    split; [repeat constructor; done|].
    eapply Forall_impl; [exact Hv|]. simpl. tauto. }
  eexists. split; [|split; [|split; [|split; [|split]]]].
  - intros fuel Hfuel. unfold wait_for_len_or_error.
    bind_step by reflexivity.
    replace fuel with (length items' + S (fuel - length items))%nat by lia.
    rewrite Hloop. fold line.
    rewrite (wait_header_err (tick w) line a rest w1 _ Hrx1 ltac:(lia) ltac:(lia) Hclock1).
    + reflexivity.
    + unfold strncmp_eq. rewrite Hcstr, Hline, take_take.
      change (4 `min` 31)%nat with 4%nat. reflexivity.
  - done.
  - rewrite trace_cons, Htr1. change (trace (tock w)) with (trace w).
    rewrite Hmap, app_assoc, <- Hmap', map_app, <- app_assoc. done.
  - simpl. rewrite Hcstr, Hline, Hsk1. done.
  - done.
  - done.
Qed.

End HeaderLine.

(** ** atoi *)

Lemma decimal_digits_are_digits fuel : forall n,
  0 <= n -> Forall (fun c => isdigit c = true) (decimal_digits fuel n).
Proof.
  induction fuel as [|f IH]; intros n Hn; [constructor|]. simpl.
  destruct (Z.ltb_spec n 10).
  - repeat constructor. unfold isdigit. lia.
  - apply Forall_app. split.
    + apply IH. apply Z.div_pos; lia.
    + repeat constructor. unfold isdigit.
      pose proof (Z.mod_pos_bound n 10 ltac:(lia)). lia.
Qed.

Lemma digits_val_app a : forall acc b,
  Forall (fun c => isdigit c = true) a ->
  digits_val acc (a ++ b) = digits_val (digits_val acc a) b.
Proof.
  induction a as [|c a IH]; intros acc b Ha; [done|].
  apply Forall_cons in Ha as [Hc Ha]. simpl. rewrite Hc. by apply IH.
Qed.

Lemma digits_val_decimal fuel : forall n acc,
  0 <= n < 10 ^ Z.of_nat fuel ->
  exists k, digits_val acc (decimal_digits fuel n) = acc * 10 ^ k + n /\ 0 <= k.
Proof.
  induction fuel as [|f IH]; intros n acc Hn.
  - simpl in Hn. exists 0. simpl. lia.
  - simpl decimal_digits. destruct (Z.ltb_spec n 10) as [Hlt|Hge].
    + exists 1. simpl. unfold isdigit.
      replace ((48 <=? 48 + n) && (48 + n <=? 57)) with true by lia. lia.
    + rewrite Nat2Z.inj_succ, Z.pow_succ_r in Hn by lia.
      destruct (IH (n / 10) acc) as (k & Hk & Hk0).
      { split; [apply Z.div_pos; lia|]. apply Z.div_lt_upper_bound; lia. }
      rewrite digits_val_app
        by (apply decimal_digits_are_digits; apply Z.div_pos; lia).
      rewrite Hk. exists (k + 1). simpl.
      pose proof (Z.mod_pos_bound n 10 ltac:(lia)).
      unfold isdigit.
      replace ((48 <=? 48 + n mod 10) && (48 + n mod 10 <=? 57)) with true by lia.
      rewrite Z.pow_add_r, Z.pow_1_r by lia.
      pose proof (Z.div_mod n 10 ltac:(lia)). lia.
Qed.

Lemma decimal_head n :
  0 <= n -> exists d r, decimal n = d :: r /\ isdigit d = true.
Proof.
  intros Hn. pose proof (decimal_digits_are_digits 10 n Hn) as Hd.
  unfold decimal. destruct (decimal_digits 10 n) as [|d r] eqn:Hdd.
  - change (decimal_digits 10 n)
      with (if n <? 10 then [48 + n]
            else decimal_digits 9 (n / 10) ++ [48 + n mod 10]) in Hdd.
    destruct (n <? 10); [done|]. by apply app_eq_nil in Hdd as [_ ?].
  - apply Forall_cons in Hd as [Hd _]. by exists d, r.
Qed.

Local Opaque digits_val.

Lemma atoi_decimal n : 0 <= n <= INT_MAX -> atoi (decimal n) = n.
Proof.
  intros Hn. unfold INT_MAX in Hn.
  destruct (decimal_head n ltac:(lia)) as (d & r & Hd & Hdig).
  destruct (digits_val_decimal 10 n 0 ltac:(simpl; lia)) as (k & Hk & _).
  fold (decimal n) in Hk. rewrite Hd in *.
  unfold isdigit in Hdig.
  assert (saturate (digits_val 0 (d :: r)) = n) as Hsat.
  { rewrite Hk. unfold saturate, INT_MIN, INT_MAX. lia. }
  assert (d = 48 \/ d = 49 \/ d = 50 \/ d = 51 \/ d = 52 \/ d = 53 \/
          d = 54 \/ d = 55 \/ d = 56 \/ d = 57) as Hcases by lia.
  clear Hk Hdig Hd.
  destruct Hcases as [->|[->|[->|[->|[->|[->|[->|[->|[->| ->]]]]]]]]];
    exact Hsat.
Qed.

Local Transparent digits_val.

Lemma length_decimal n : (length (decimal n) <= 10)%nat.
Proof.
  unfold decimal. generalize 10%nat. intros f. revert n.
  induction f as [|f IH]; intros n; [done|]. simpl.
  destruct (n <? 10); [simpl; lia|].
  rewrite length_app. simpl. specialize (IH (n / 10)). lia.
Qed.

(** A text that starts with neither blank, sign nor digit counts as 0. *)
Lemma atoi_unsigned c r :
  isspace c = false -> c <> 45 -> c <> 43 ->
  atoi (c :: r) = saturate (digits_val 0 (c :: r)).
Proof.
  intros Hs H45 H43. unfold atoi. simpl skip_space. rewrite Hs.
  destruct c as [|p|p]; [done| |done].
  repeat match goal with
         | |- context [match ?q with xI _ => _ | xO _ => _ | xH => _ end] =>
             destruct q
         end; done.
Qed.

Lemma atoi_not_a_number v :
  match v with
  | [] => True
  | c :: _ => isdigit c = false /\ isspace c = false /\ c <> 45 /\ c <> 43
  end ->
  atoi v = 0.
Proof.
  destruct v as [|c r]; [done|]. intros (Hd & Hs & H45 & H43).
  rewrite atoi_unsigned by done. simpl. by rewrite Hd.
Qed.

(** X8. When nothing arrives and ESC is left alone, [receive_response] gives
    up: it returns failure once the clock shows 60 s or more since the
    call, has shown the timeout message and redrawn, and has neither
    sent nor stored anything. *)
Theorem receive_response_times_out E max_len w :
  steady E -> running E -> (forall t, esc_key E t = false) -> rx w = [] ->
  exists n0 w',
    (forall fuel, (n0 <= fuel)%nat ->
       receive_response E max_len fuel w = (Some false, w')) /\
    shown w' = shown w ++
      [AddLine (str "[Timeout waiting for response]"); Redraw] /\
    chan w' = chan w /\ buf w' = buf w /\ stores w' = stores w /\
    60000 <= (secs E (tick w' - 1) - secs E (tick w)) * 1000.
Proof.
  intros Hst Hrun Hesc Hrx.
  destruct (wait_header_silent E Hst Hrun Hesc w Hrx) as (n0 & t' & Hwait & Ht' & Hel).
  eexists n0, _. split; [|split; [|split; [|split; [|split]]]].
  - intros fuel Hfuel. unfold receive_response.
    rewrite (bind_spec _ _ _ _ _ (Hwait fuel Hfuel)). cbv beta.
    change (-1 <? 0) with true. cbv iota. reflexivity.
  - unfold shown. simpl. by rewrite <- app_assoc.
  - done.
  - done.
  - done.
  - simpl. rewrite Nat.sub_0_r. exact Hel.
Qed.

(** X9. With ESC down, [receive_response] is over at the first poll: it
    returns failure, has shown the cancellation and redrawn, has sent and
    stored nothing, and has taken at most one byte off the link. *)
Theorem receive_response_cancelled_by_esc E max_len w :
  steady E -> (forall t, esc_key E t = true) ->
  exists w',
    (forall fuel, (1 <= fuel)%nat ->
       receive_response E max_len fuel w = (Some false, w')) /\
    shown w' = shown w ++ [AddLine (str "[Cancelled]"); Redraw] /\
    sent w' = sent w /\ buf w' = buf w /\ stores w' = stores w /\
    (length (rx w) <= S (length (rx w')))%nat.
Proof.
  intros Hst Hesc.
  destruct (wait_header_cancelled E w Hst Hesc)
    as (w1 & Hwait & Hsk & Hsent & Hbf & Hsto & Hrx).
  eexists. split; [|split; [|split; [|split; [|split]]]].
  - intros fuel Hfuel. unfold receive_response.
    rewrite (bind_spec _ _ _ _ _ (Hwait fuel Hfuel)). cbv beta.
    change (-1 <? 0) with true. cbv iota. reflexivity.
  - unfold shown. simpl. rewrite Hsk. simpl. by rewrite <- app_assoc.
  - exact Hsent.
  - exact Hbf.
  - exact Hsto.
  - simpl. destruct Hrx as [->|[it ->]]; simpl; lia.
Qed.

(** X10. An error line of the bridge, ERR: and a message, ends the wait: the
    line (what fits the 31 characters of the line buffer) is shown after
    an opening bracket, the closing bracket on a line of its own, and
    [receive_response] returns failure without sending or storing. *)
Theorem receive_response_shows_error_line E max_len w items msg rest :
  steady E -> (forall t, esc_key E t = false) ->
  rx w = items ++ rest ->
  map snd items = str "ERR:" ++ msg ++ [10] ->
  available w items ->
  Forall (fun c => c <> 0 /\ c <> 10) msg ->
  (secs E (tick w + 4 * length items) - secs E (tick w)) * 1000 < 60000 ->
  exists w',
    (forall fuel, (length items <= fuel)%nat ->
       receive_response E max_len fuel w = (Some false, w')) /\
    shown w' = shown w ++
      [AddText (str "[") (take 31 (str "ERR:" ++ msg)); AddLine (str "]");
       Redraw] /\
    rx w' = rest /\ sent w' = sent w /\ buf w' = buf w /\ stores w' = stores w.
Proof.
  intros Hst Hesc Hrx Hmap Hav Hmsg Hclock.
  destruct (header_err E Hst Hesc w items msg rest Hrx Hmap Hav Hmsg Hclock)
    as (w1 & Hwait & Hrx1 & Htr1 & Hsk1 & Hbf1 & Hsto1).
  eexists. split; [|split; [|split; [|split; [|split]]]].
  - intros fuel Hfuel. unfold receive_response.
    rewrite (bind_spec _ _ _ _ _ (Hwait fuel Hfuel)). cbv beta.
    change (-1 <? 0) with true. cbv iota. reflexivity.
  - unfold shown. simpl. rewrite Hsk1. simpl. by rewrite <- !app_assoc.
  - exact Hrx1.
  - transitivity (sent w1); [reflexivity|]. unfold sent.
    rewrite Htr1, filter_app, filter_is_tx_rx, app_nil_r. done.
  - exact Hbf1.
  - exact Hsto1.
Qed.

(** X11. A length that is no number counts as 0: after LEN: and a text that
    starts with neither blank, sign nor digit, [receive_response] reports
    an empty response and returns success, without acknowledging. *)
Theorem malformed_length_is_empty_reply E max_len w items v rest :
  steady E -> (forall t, esc_key E t = false) ->
  rx w = items ++ rest ->
  map snd items = str "LEN:" ++ v ++ [10] ->
  available w items ->
  Forall (fun c => c <> 0 /\ c <> 10) v ->
  match v with
  | [] => True
  | c :: _ => isdigit c = false /\ isspace c = false /\ c <> 45 /\ c <> 43
  end ->
  (secs E (tick w + 4 * length items) - secs E (tick w)) * 1000 < 60000 ->
  exists w',
    (forall fuel, (length items <= fuel)%nat ->
       receive_response E max_len fuel w = (Some true, w')) /\
    shown w' = shown w ++ [AddLine (str "AI: (empty response)"); Redraw] /\
    rx w' = rest /\ sent w' = sent w /\ stores w' = 0 :: stores w.
Proof.
  intros Hst Hesc Hrx Hmap Hav Hv Hnan Hclock.
  destruct (header_len E Hst Hesc w items v rest Hrx Hmap Hav Hv Hclock)
    as (w1 & Hwait & Hrx1 & Htr1 & Hsk1 & Hbf1 & Hsto1).
  assert (atoi (take 27 v) = 0) as H0.
  { apply atoi_not_a_number. destruct v as [|c r]; [done|]. exact Hnan. }
  eexists. split; [|split; [|split; [|split]]].
  - intros fuel Hfuel. unfold receive_response.
    rewrite (bind_spec _ _ _ _ _ (Hwait fuel Hfuel)). cbv beta.
    rewrite H0. change (0 <? 0) with false. change (0 =? 0) with true.
    cbv iota. reflexivity.
  - unfold shown. simpl. rewrite Hsk1. simpl. by rewrite <- !app_assoc.
  - exact Hrx1.
  - transitivity (sent w1); [reflexivity|]. unfold sent.
    rewrite Htr1, filter_app, filter_is_tx_rx, app_nil_r. done.
  - simpl. by rewrite Hsto1.
Qed.


(** X13. The header wait reads the length the bridge declares: after the line
    LEN: and a number of the [int] range in decimal,
    [wait_for_len_or_error] returns that number, having consumed the line
    and nothing else, shown nothing and sent nothing. *)
Theorem header_length_is_read E w items n rest :
  steady E -> (forall t, esc_key E t = false) ->
  0 <= n <= INT_MAX ->
  rx w = items ++ rest ->
  map snd items = str "LEN:" ++ decimal n ++ [10] ->
  available w items ->
  (secs E (tick w + 4 * length items) - secs E (tick w)) * 1000 < 60000 ->
  exists w',
    (forall fuel, (length items <= fuel)%nat ->
       wait_for_len_or_error E fuel w = (Some n, w')) /\
    rx w' = rest /\ trace w' = trace w ++ map Rx (map snd items) /\
    sink w' = sink w /\ buf w' = buf w /\ stores w' = stores w.
Proof.
  intros Hst Hesc Hn Hrx Hmap Hav Hclock.
  assert (Forall (fun c => c <> 0 /\ c <> 10) (decimal n)) as Hv.
  { eapply Forall_impl; [apply (decimal_digits_are_digits 10 n); lia|].
    intros c. unfold isdigit. lia. }
  destruct (header_len E Hst Hesc w items (decimal n) rest Hrx Hmap Hav Hv Hclock)
    as (w1 & Hwait & Hrest).
  exists w1. split; [|exact Hrest].
  intros fuel Hfuel. rewrite (Hwait fuel Hfuel).
  rewrite take_ge by (pose proof (length_decimal n); lia).
  by rewrite atoi_decimal.
Qed.

Section OtherLines.
Context (E : env) (Hst : steady E).
Context (Hesc : forall t, esc_key E t = false).

(** The newline that ends a line starting with neither LEN: nor ERR:
    empties the line buffer and the wait goes on. *)
Lemma wait_header_other ts line a rest w fuel :
  rx w = (a, 10) :: rest -> (a <= S (tick w))%nat -> (ts <= tick w)%nat ->
  (secs E (tick w) - secs E ts) * 1000 < 60000 ->
  strncmp_eq line "LEN:" 4 = false -> strncmp_eq line "ERR:" 4 = false ->
  loop (wait_header_step E (now_ms E ts)) (S fuel) line w =
  loop (wait_header_step E (now_ms E ts)) fuel []
       (mkWorld (4 + tick w) rest ((2 + tick w, Rx 10)%nat :: chan w)
                (sink w) (buf w) (stores w)).
Proof using Hst Hesc.
  intros Hrx Ha Hts Hclock Hlen Herr.
  pose proof (steady_le E ts (tick w) Hst Hts) as Hm1.
  rewrite loop_S.
  assert (wait_header_step E (now_ms E ts) fuel line w =
          (Some (inl []),
           mkWorld (4 + tick w) rest ((2 + tick w, Rx 10)%nat :: chan w)
                   (sink w) (buf w) (stores w))) as ->; [|done].
  unfold wait_header_step. bind_step by reflexivity.
  rewrite elapsed_exact by (try done; unfold two32; lia).
  replace (_ <? 60000) with true by lia.
  bind_step by (apply (has_data_ready _ a 10 rest); [exact Hrx | simpl; lia]).
  erewrite (bind_spec (uart_read_char ≫= _)).
  2:{ bind_step by (apply (read_char_ready _ a 10 rest); [exact Hrx | simpl; lia]).
      change (10 =? 10) with true. cbv iota. rewrite Hlen, Herr. reflexivity. }
  cbv beta iota. run. rewrite Hesc. reflexivity.
Qed.

(** Lines that are on the link and start with neither LEN: nor ERR: are
    read and dropped. *)
Lemma wait_header_skips ts (lines : list (list Z)) : forall items w rest,
  rx w = items ++ rest ->
  map snd items = concat (map (fun l => l ++ [10]) lines) ->
  Forall (fun it => (it.1 <= tick w)%nat) items ->
  Forall (fun l => Forall (fun c => c <> 10) l /\
                   strncmp_eq (take 31 l) "LEN:" 4 = false /\
                   strncmp_eq (take 31 l) "ERR:" 4 = false) lines ->
  (ts <= tick w)%nat ->
  (secs E (tick w + 4 * length items) - secs E ts) * 1000 < 60000 ->
  exists w',
    (forall fuel,
       loop (wait_header_step E (now_ms E ts)) (length items + fuel) [] w =
       loop (wait_header_step E (now_ms E ts)) fuel [] w') /\
    rx w' = rest /\ trace w' = trace w ++ map Rx (map snd items) /\
    sink w' = sink w /\ buf w' = buf w /\ stores w' = stores w /\
    tick w' = (tick w + 4 * length items)%nat.
Proof using Hst Hesc.
  induction lines as [|l lines IH]; intros items w rest Hrx Hmap Hav Hlines Hts Hclock.
  - simpl in Hmap. destruct items; [|done]. exists w. simpl.
    rewrite app_nil_r. repeat split; auto; lia.
  - apply Forall_cons in Hlines as [(Hl & Hlen & Herr) Hlines].
    simpl in Hmap. rewrite <- app_assoc in Hmap.
    apply fmap_app_inv in Hmap as (items1 & items' & Hi1 & Hi' & ->).
    change (l = map snd items1) in Hi1.
    simpl in Hi'. destruct items' as [|[a c] items2]; [done|].
    simpl in Hi'. injection Hi' as Hc Hi2. symmetry in Hc. subst c.
    apply Forall_app in Hav as [Hav1 Hav'].
    apply Forall_cons in Hav' as [Ha Hav2]. simpl in Ha.
    rewrite <- app_assoc in Hrx. simpl in Hrx.
    rewrite !length_app in Hclock. simpl length in Hclock.
    destruct (wait_header_chars E Hst Hesc ts items1 [] w ((a, 10) :: items2 ++ rest) Hrx)
      as (w1 & Hloop1 & Hrx1 & Htr1 & Hsk1 & Hbf1 & Hsto1 & Htk1).
    { subst l. clear -Hav1 Hl. induction items1 as [|[a' c'] it IH]; [constructor|].
      apply Forall_cons in Hav1 as [? ?]. simpl in Hl.
      apply Forall_cons in Hl as [? ?]. constructor; [done|by apply IH]. }
    { done. }
    { pose proof (steady_le E (tick w + 4 * length items1)
                    (tick w + 4 * (length items1 + S (length items2))) Hst ltac:(lia)).
      lia. }
    pose (w2 := mkWorld (4 + tick w1) (items2 ++ rest)
                  ((2 + tick w1, Rx 10)%nat :: chan w1) (sink w1) (buf w1) (stores w1)).
    destruct (IH items2 w2 rest eq_refl ltac:(done)) as (w' & Hloop & Hrx' & Htr & Hsk & Hbf & Hsto & Htk).
    { eapply Forall_impl; [exact Hav2|]. intros it Hit. simpl in *. lia. }
    { done. }
    { simpl. lia. }
    { unfold w2. cbn [tick]. rewrite Htk1.
      replace (4 + (tick w + 4 * length items1) + 4 * length items2)%nat
        with (tick w + 4 * (length items1 + S (length items2)))%nat by lia.
      exact Hclock. }
    exists w'. split; [|split; [done|split; [|split; [|split; [|split]]]]].
    + intros fuel. rewrite length_app. simpl length.
      replace (length items1 + S (length items2) + fuel)%nat
        with (length items1 + S (length items2 + fuel))%nat by lia.
      rewrite Hloop1.
      rewrite (wait_header_other ts _ a (items2 ++ rest) w1 _ Hrx1 ltac:(lia) ltac:(lia)).
      * apply Hloop.
      * pose proof (steady_le E (tick w1)
                      (tick w + 4 * (length items1 + S (length items2))) Hst ltac:(lia)).
        lia.
      * rewrite line_push_take by (simpl; lia). simpl app. by rewrite <- Hi1.
      * rewrite line_push_take by (simpl; lia). simpl app. by rewrite <- Hi1.
    + rewrite Htr. unfold w2. rewrite trace_cons, Htr1. simpl snd.
      rewrite !map_app. simpl map. rewrite <- !app_assoc. done.
    + rewrite Hsk. done.
    + rewrite Hbf. done.
    + rewrite Hsto. done.
    + rewrite Htk. simpl. rewrite Htk1, length_app. simpl. lia.
Qed.

(** The wait, from its loop on: other lines and then the line with the
    length, all on the link. *)
Lemma header_len_after_lines w lines items v rest :
  rx w = items ++ rest ->
  map snd items =
    concat (map (fun l => l ++ [10]) lines) ++ str "LEN:" ++ v ++ [10] ->
  available w items ->
  Forall (fun l => Forall (fun c => c <> 10) l /\
                   strncmp_eq (take 31 l) "LEN:" 4 = false /\
                   strncmp_eq (take 31 l) "ERR:" 4 = false) lines ->
  Forall (fun c => c <> 0 /\ c <> 10) v ->
  (secs E (tick w + 4 * length items) - secs E (tick w)) * 1000 < 60000 ->
  exists w',
    (forall fuel, (length items <= fuel)%nat ->
       wait_for_len_or_error E fuel w = (Some (atoi (take 27 v)), w')) /\
    rx w' = rest /\ trace w' = trace w ++ map Rx (map snd items) /\
    sink w' = sink w /\ buf w' = buf w /\ stores w' = stores w.
Proof using Hst Hesc.
  intros Hrx Hmap Hav Hlines Hv Hclock.
  apply fmap_app_inv in Hmap as (items1 & items2 & Hi1 & Hi2 & ->).
  apply Forall_app in Hav as [Hav1 Hav2].
  rewrite <- app_assoc in Hrx. rewrite length_app in Hclock.
  destruct (wait_header_skips (tick w) lines items1 (tock w) (items2 ++ rest) Hrx
              ltac:(done)) as (w1 & Hloop1 & Hrx1 & Htr1 & Hsk1 & Hbf1 & Hsto1 & Htk1).
  { eapply Forall_impl; [exact Hav1|]. intros it Hit. simpl in *. lia. }
  { done. }
  { simpl. lia. }
  { unfold tock. cbn [tick].
    pose proof (steady_le E (S (tick w) + 4 * length items1)
                  (tick w + 4 * (length items1 + length items2)) Hst) as Hm.
    assert (0 < length items2)%nat.
    { apply (f_equal length) in Hi2. rewrite length_map, !length_app in Hi2.
      simpl in Hi2. lia. }
    specialize (Hm ltac:(lia)). lia. }
  unfold tock in Htk1. cbn [tick] in Htk1.
  assert (Forall (fun c => c <> 10) (str "LEN:" ++ v)) as Hl.
  { apply Forall_app. split; [repeat constructor; done|].
    eapply Forall_impl; [exact Hv|]. simpl. tauto. }
  assert (available w1 items2) as Hav2'.
  { eapply Forall_impl; [exact Hav2|]. intros it Hit. simpl in *. lia. }
  destruct (header_line_items w1 items2 (str "LEN:" ++ v) rest Hrx1
              ltac:(by rewrite <- app_assoc) Hav2' Hl)
    as (items' & a & Hrx' & Hmap' & Hall & Ha & Hlen).
  assert (length items' = length (str "LEN:" ++ v)) as Hlen'
    by (rewrite <- Hmap', length_map; done).
  assert (items2 = items' ++ [(a, 10)]) as Hi2'.
  { apply (app_inv_tail rest). rewrite <- app_assoc. simpl. congruence. }
  assert (Forall (fun it => (it.1 <= tick w1)%nat /\ it.2 <> 10) items') as Hall'.
  { rewrite Hi2' in Hav2'. apply Forall_app in Hav2' as [Hav' _].
    clear -Hav' Hall. induction items' as [|it its IH]; [constructor|].
    apply Forall_cons in Hall as [[_ ?] ?]. apply Forall_cons in Hav' as [? ?].
    constructor; [done|by apply IH]. }
  assert (length items2 = S (length items')) as Hl2.
  { rewrite Hi2', length_app. simpl. lia. }
  destruct (wait_header_chars E Hst Hesc (tick w) items' [] w1 ((a, 10) :: rest)
              Hrx' Hall' ltac:(lia))
    as (w2 & Hloop2 & Hrx2 & Htr2 & Hsk2 & Hbf2 & Hsto2 & Htk2).
  { pose proof (steady_le E (tick w1 + 4 * length items')
                  (tick w + 4 * (length items1 + length items2)) Hst ltac:(lia)). lia. }
  assert ((secs E (tick w2) - secs E (tick w)) * 1000 < 60000) as Hclock2.
  { pose proof (steady_le E (tick w2)
                  (tick w + 4 * (length items1 + length items2)) Hst ltac:(lia)). lia. }
  set (line := fold_left (line_push false) (map snd items') []) in *.
  assert (line = take 31 (str "LEN:" ++ v)) as Hline.
  { unfold line. rewrite line_push_take by (simpl; lia). by rewrite Hmap'. }
  assert (cstr line = line) as Hcstr.
  { apply cstr_id. rewrite Hline. apply Forall_take, Forall_app.
    split; [repeat constructor; done|].
    eapply Forall_impl; [exact Hv|]. simpl. tauto. }
  eexists. split; [|split; [|split; [|split; [|split]]]].
  - intros fuel Hfuel. unfold wait_for_len_or_error.
    bind_step by reflexivity.
    rewrite length_app in Hfuel.
    replace fuel with (length items1 + (length items' + S (fuel - length items1 - length items2)))%nat by lia.
    rewrite Hloop1, Hloop2. fold line.
    rewrite (wait_header_len E Hst (tick w) line a rest w2 _ Hrx2 ltac:(lia) ltac:(lia) Hclock2).
    + rewrite Hcstr, Hline. reflexivity.
    + unfold strncmp_eq. rewrite Hcstr, Hline, take_take.
      change (4 `min` 31)%nat with 4%nat. reflexivity.
  - done.
  - rewrite trace_cons, Htr2, Htr1. change (trace (tock w)) with (trace w).
    rewrite Hi2', !map_app, <- !app_assoc. simpl. done.
  - simpl in *. congruence.
  - simpl in *. congruence.
  - simpl in *. congruence.
Qed.

End OtherLines.

Lemma cstr_prefix l : exists r, l = cstr l ++ r.
Proof.
  induction l as [|c l [r Hr]]; simpl; [by exists []|].
  destruct (c =? 0); [by eexists|]. exists r. simpl. by rewrite <- Hr.
Qed.

Lemma bytes_eqb_neq a b : a <> b -> bytes_eqb a b = false.
Proof.
  intros Hne. destruct (bytes_eqb a b) eqn:Heq; [|done].
  by apply bytes_eqb_eq in Heq.
Qed.

(** A line whose first four characters are not those of the marker does
    not pass the [strncmp] on the line buffer. *)
Lemma strncmp_other l (lit : string) :
  length (str lit) = 4%nat -> take 4 l <> str lit ->
  strncmp_eq (take 31 l) lit 4 = false.
Proof.
  intros Hlit Hne. unfold strncmp_eq. apply bytes_eqb_neq. intros Heq.
  apply Hne. destruct (cstr_prefix (take 31 l)) as [r Hr].
  assert (4 <= length (cstr (take 31 l)))%nat as Hlen.
  { apply (f_equal length) in Heq. rewrite length_take in Heq. lia. }
  rewrite <- Heq.
  rewrite <- (take_app_le (cstr (take 31 l)) r 4) by done.
  rewrite <- Hr, take_take. done.
Qed.

(** X26. Lines that start with neither LEN: nor ERR: are read and dropped by
    [wait_for_len_or_error], whatever else they hold: when such lines and
    then the line LEN: with a number of the [int] range are on the link,
    the wait returns that number, having consumed these lines and nothing
    else, shown nothing, sent nothing and stored nothing. *)
Theorem header_wait_skips_other_lines E w lines items n rest :
  steady E -> (forall t, esc_key E t = false) ->
  0 <= n <= INT_MAX ->
  rx w = items ++ rest ->
  map snd items =
    concat (map (fun l => l ++ [10]) lines) ++ str "LEN:" ++ decimal n ++ [10] ->
  Forall (fun l => Forall (fun c => c <> 10) l /\
                   take 4 l <> str "LEN:" /\ take 4 l <> str "ERR:") lines ->
  available w items ->
  (secs E (tick w + 4 * length items) - secs E (tick w)) * 1000 < 60000 ->
  exists w',
    (forall fuel, (length items <= fuel)%nat ->
       wait_for_len_or_error E fuel w = (Some n, w')) /\
    rx w' = rest /\ trace w' = trace w ++ map Rx (map snd items) /\
    sink w' = sink w /\ buf w' = buf w /\ stores w' = stores w.
Proof.
  intros Hst Hesc Hn Hrx Hmap Hlines Hav Hclock.
  assert (Forall (fun c => c <> 0 /\ c <> 10) (decimal n)) as Hv.
  { eapply Forall_impl; [apply (decimal_digits_are_digits 10 n); lia|].
    intros c. unfold isdigit. lia. }
  destruct (header_len_after_lines E Hst Hesc w lines items (decimal n) rest
              Hrx Hmap Hav) as (w1 & Hwait & Hrest); [|exact Hv|exact Hclock|].
  { eapply Forall_impl; [exact Hlines|]. intros l (Hl & Hlen & Herr).
    split; [exact Hl|]. split; by apply strncmp_other. }
  exists w1. split; [|exact Hrest].
  intros fuel Hfuel. rewrite (Hwait fuel Hfuel).
  rewrite take_ge by (pose proof (length_decimal n); lia).
  by rewrite atoi_decimal.
Qed.

(** ** What a run may do to the link *)

#[local] Instance quiet_preorder : PreOrder quiet.
Proof. split; [by intros w|]. intros a b c ? ?. unfold quiet in *. congruence. Qed.

#[local] Instance acked_preorder : PreOrder acked.
Proof.
  split.
  - intros w. exists 0%nat. simpl. by rewrite app_nil_r.
  - intros a b c [k1 H1] [k2 H2]. exists (k1 + k2)%nat.
    rewrite H2, H1, <- app_assoc, replicate_add. done.
Qed.

#[local] Instance went_on_preorder : PreOrder went_on.
Proof.
  split.
  - intros w. split; [|done]. exists []. by rewrite app_nil_r.
  - intros a b c [[e1 H1] S1] [[e2 H2] S2]. split; [|congruence].
    exists (e1 ++ e2). by rewrite H2, H1, app_assoc.
Qed.

Section Keeps.
Context (R : world -> world -> Prop) `{!PreOrder R}.

Lemma keeps_ret {A} (a : A) : keeps R (mret a).
Proof. intros w. simpl. reflexivity. Qed.

Lemma keeps_bind {A B} (m : M A) (k : A -> M B) :
  keeps R m -> (forall a, keeps R (k a)) -> keeps R (m ≫= k).
Proof.
  intros Hm Hk w. unfold mbind, M_bind. specialize (Hm w).
  destruct (m w) as [[a|] w1]; simpl in *; [|done].
  etransitivity; [exact Hm|apply Hk].
Qed.

Lemma keeps_loop {S T} (body : nat -> S -> M (S + T)) :
  (forall n s, keeps R (body n s)) -> forall fuel s, keeps R (loop body fuel s).
Proof.
  intros Hb fuel. induction fuel as [|n IH]; intros s.
  - intros w. simpl. reflexivity.
  - simpl. apply keeps_bind; [apply Hb|]. intros [s'|r]; [apply IH|apply keeps_ret].
Qed.

Lemma keeps_if {A} (b : bool) (m1 m2 : M A) :
  keeps R m1 -> keeps R m2 -> keeps R (if b then m1 else m2).
Proof. by destruct b. Qed.

End Keeps.

Lemma sent_rx t r b w s bf st :
  sent (mkWorld t r ((tick w, Rx b) :: chan w) s bf st) = sent w.
Proof.
  unfold sent. rewrite trace_cons, filter_app. simpl.
  rewrite filter_cons_False by (simpl; tauto). by rewrite app_nil_r.
Qed.

Lemma sent_tx t r c w s bf st :
  sent (mkWorld t r ((tick w, Tx c) :: chan w) s bf st) = sent w ++ [Tx c].
Proof.
  unfold sent. rewrite trace_cons, filter_app. simpl.
  by rewrite filter_cons_True by done.
Qed.

(** The primitives that send nothing. *)
Lemma quiet_get_time_ms E : keeps quiet (get_time_ms E). Proof. done. Qed.
Lemma quiet_uart_has_data : keeps quiet uart_has_data. Proof. done. Qed.
Lemma quiet_uart_read_char : keeps quiet uart_read_char.
Proof.
  intros w. unfold quiet, uart_read_char. destruct (rx w) as [|[t b] r]; [done|].
  destruct (t <=? tick w)%nat; [|done]. apply sent_rx.
Qed.
Lemma quiet_isKeyPressed_ESC E : keeps quiet (isKeyPressed_ESC E).
Proof. done. Qed.
Lemma quiet_idle : keeps quiet idle. Proof. done. Qed.
Lemma quiet_to_sink e : keeps quiet (to_sink e). Proof. done. Qed.
Lemma quiet_buf_store i c : keeps quiet (buf_store i c). Proof. done. Qed.
Lemma quiet_read_buf : keeps quiet read_buf. Proof. done. Qed.

Create HintDb quiet.
#[export] Hint Resolve quiet_get_time_ms quiet_uart_has_data
  quiet_uart_read_char quiet_isKeyPressed_ESC quiet_idle quiet_to_sink
  quiet_buf_store quiet_read_buf : quiet.

(** An acknowledgement at most. *)
Lemma acked_of_quiet {A} (m : M A) : keeps quiet m -> keeps acked m.
Proof.
  intros H w. exists 0%nat. rewrite (H w). simpl. by rewrite app_nil_r.
Qed.

Lemma acked_ack : keeps acked (uart_write_char 65).
Proof. intros w. exists 1%nat. simpl. apply sent_tx. Qed.

Create HintDb acked.
#[export] Hint Resolve acked_ack : acked.
#[export] Hint Extern 1 (keeps acked _) =>
  apply acked_of_quiet; solve [auto with quiet] : acked.

(** The link log grows and nothing is shown. *)
Lemma went_on_same_log w w' : chan w' = chan w -> sink w' = sink w -> went_on w w'.
Proof.
  intros Hc Hs. split; [|done]. exists []. unfold trace. rewrite Hc.
  by rewrite app_nil_r.
Qed.

Lemma went_on_get_time_ms E : keeps went_on (get_time_ms E).
Proof. intros w. by apply went_on_same_log. Qed.
Lemma went_on_uart_has_data : keeps went_on uart_has_data.
Proof. intros w. by apply went_on_same_log. Qed.
Lemma went_on_isKeyPressed_ESC E : keeps went_on (isKeyPressed_ESC E).
Proof. intros w. by apply went_on_same_log. Qed.
Lemma went_on_idle : keeps went_on idle.
Proof. intros w. by apply went_on_same_log. Qed.
Lemma went_on_uart_read_char : keeps went_on uart_read_char.
Proof.
  intros w. unfold uart_read_char.
  destruct (rx w) as [|[t b] r]; [by apply went_on_same_log|].
  destruct (t <=? tick w)%nat; [|by apply went_on_same_log].
  split; [|done]. eexists. apply trace_cons.
Qed.
Lemma went_on_uart_write_char c : keeps went_on (uart_write_char c).
Proof. intros w. split; [|done]. eexists. apply trace_cons. Qed.

Create HintDb went_on.
#[export] Hint Resolve went_on_get_time_ms went_on_uart_has_data
  went_on_isKeyPressed_ESC went_on_idle went_on_uart_read_char
  went_on_uart_write_char : went_on.

Ltac link_kept :=
  repeat first
    [ apply keeps_bind; [apply _| |intros ?]
    | apply keeps_if
    | apply keeps_loop; [apply _|intros ? ?]
    | match goal with |- keeps _ (match ?x with _ => _ end) => destruct x end
    | solve [apply keeps_ret; apply _]
    | solve [unfold scroll_add_line, scroll_add_text, redraw, nio_printf;
             auto with quiet acked went_on] ].

Lemma went_on_uart_write_str s : keeps went_on (uart_write_str s).
Proof.
  induction s as [|c s IH]; simpl; [apply keeps_ret; apply _|].
  destruct (c =? 0); [apply keeps_ret; apply _|]. link_kept.
Qed.

Lemma quiet_uart_drain E ms fuel : keeps quiet (uart_drain E ms fuel).
Proof.
  unfold uart_drain, uart_drain_step, flush_rx, flush_rx_step. link_kept.
Qed.

Lemma went_on_uart_drain E ms fuel : keeps went_on (uart_drain E ms fuel).
Proof.
  unfold uart_drain, uart_drain_step, flush_rx, flush_rx_step. link_kept.
Qed.

Lemma quiet_await_wake E start fuel line :
  keeps quiet (await_wake E start fuel line).
Proof. unfold await_wake, await_wake_step. link_kept. Qed.

Lemma went_on_await_wake E start fuel line :
  keeps went_on (await_wake E start fuel line).
Proof. unfold await_wake, await_wake_step. link_kept. Qed.

Lemma quiet_await_ready E start fuel line :
  keeps quiet (await_ready E start fuel line).
Proof. unfold await_ready, await_ready_step. link_kept. Qed.

Lemma went_on_await_ready E start fuel line :
  keeps went_on (await_ready E start fuel line).
Proof. unfold await_ready, await_ready_step. link_kept. Qed.

Lemma quiet_await_ack E start fuel line :
  keeps quiet (await_ack E start fuel line).
Proof. unfold await_ack, await_ack_step. link_kept. Qed.

Lemma acked_receive_response E max_len fuel :
  keeps acked (receive_response E max_len fuel).
Proof.
  unfold receive_response, wait_for_len_or_error, wait_header_step,
    receive_body, receive_chunks, wait_eot, wait_eot_step.
  link_kept.
  all: unfold receive_chunks_step, read_chunk, read_chunk_step.
  all: link_kept.
Qed.

(** ** The handshake, whatever the link does *)

Lemma bind_inv {A B} (m : M A) (k : A -> M B) w b w' :
  (m ≫= k) w = (Some b, w') ->
  exists a w1, m w = (Some a, w1) /\ k a w1 = (Some b, w').
Proof.
  unfold mbind, M_bind. destruct (m w) as [[a|] w1]; [|done].
  intros H. by exists a, w1.
Qed.

Lemma keeps_run {A} R (m : M A) w a w1 : keeps R m -> m w = (Some a, w1) -> R w w1.
Proof. intros Hk H. specialize (Hk w). by rewrite H in Hk. Qed.

(** A byte the link has is the byte read. *)
Lemma read_after_has_data w :
  rx_ready w = true ->
  exists t b r,
    rx w = (t, b) :: r /\
    uart_read_char (tock w) =
      (Some b, mkWorld (S (S (tick w))) r ((S (tick w), Rx b) :: chan w)
                       (sink w) (buf w) (stores w)).
Proof.
  unfold rx_ready, uart_read_char. destruct (rx w) as [|[t b] r] eqn:Hrx; [done|].
  intros Ht. apply Nat.leb_le in Ht. exists t, b, r. split; [done|].
  simpl. rewrite Hrx.
  replace (t <=? S (tick w))%nat with true by (symmetry; apply Nat.leb_le; lia).
  done.
Qed.

(** One iteration of the wait for READY, by cases. *)
Lemma await_ack_step_cases E start n line w x w1 :
  await_ack_step E start n line w = (Some x, w1) ->
  (x = inl line /\ trace w1 = trace w /\ sink w1 = sink w) \/
  (exists c, c <> 10 /\ x = inl (line_push true line c) /\
             trace w1 = trace w ++ [Rx c] /\ sink w1 = sink w) \/
  (x = inl [] /\ trace w1 = trace w ++ [Rx 10] /\ sink w1 = sink w) \/
  (x = inr true /\ trace w1 = trace w ++ [Rx 10] /\
   strcmp_eq line "READY" = true /\
   sink w1 = Printf (str "Connected!" ++ [10]) :: sink w) \/
  x = inr false.
Proof.
  unfold await_ack_step. intros H.
  apply bind_inv in H as (now & w2 & Hnow & H).
  injection Hnow as <- <-.
  destruct (elapsed (now_ms E (tick w)) start <? 5000).
  - apply bind_inv in H as (d & w3 & Hd & H).
    injection Hd as <- <-.
    destruct (rx_ready (tock w)) eqn:Hready.
    + destruct (read_after_has_data (tock w) Hready) as (t & b & r & Hrx & Hread).
      apply bind_inv in H as (c & w4 & Hc & H).
      rewrite Hread in Hc. injection Hc as <- <-.
      destruct (Z.eqb_spec b 10) as [->|Hb].
      * destruct (strcmp_eq line "READY") eqn:Hcmp.
        -- apply bind_inv in H as ([] & w5 & Hp & H).
           injection Hp as <-. injection H as <- <-.
           do 3 right. left. repeat split; try done.
           unfold trace. simpl. by rewrite map_app.
        -- apply bind_inv in H as ([] & w5 & Hp & H).
           injection Hp as <-. injection H as <- <-.
           do 2 right. left. repeat split; try done.
           unfold trace. simpl. by rewrite map_app.
      * apply bind_inv in H as ([] & w5 & Hp & H).
        injection Hp as <-. injection H as <- <-.
        right. left. exists b. repeat split; try done.
        unfold trace. simpl. by rewrite map_app.
    + apply bind_inv in H as ([] & w5 & Hp & H).
      injection Hp as <-. injection H as <- <-.
      left. done.
  - apply bind_inv in H as ([] & w5 & Hp & H).
    injection H as <- <-. do 4 right. done.
Qed.

Lemma await_ack_true E start fuel : forall line w w',
  await_ack E start fuel line w = (Some true, w') ->
  exists rcv l,
    trace w' = trace w ++ map Rx (rcv ++ l ++ [10]) /\
    strcmp_eq (line_of (if decide (rcv = []) then line else []) l) "READY" = true /\
    Forall (fun c => c <> 10) l /\
    (rcv = [] \/ last rcv = Some 10) /\
    sink w' = Printf (str "Connected!" ++ [10]) :: sink w.
Proof.
  unfold await_ack.
  induction fuel as [|n IH]; intros line w w' H; [done|].
  rewrite loop_S in H.
  destruct (await_ack_step E start n line w) as [[[line'|r]|] w1] eqn:Hstep;
    [| |done].
  - apply IH in H as (rcv & l & Htr & Hcmp & Hl & Hlast & Hsk).
    apply await_ack_step_cases in Hstep
      as [(Hx & Htr1 & Hsk1)|[(c & Hc & Hx & Htr1 & Hsk1)|[(Hx & Htr1 & Hsk1)|
          [(Hx & _)|Hx]]]]; try done.
    + injection Hx as ->. exists rcv, l. rewrite Htr, Htr1, Hsk, Hsk1. done.
    + injection Hx as ->.
      destruct (decide (rcv = [])) as [->|Hne].
      * exists [], (c :: l). rewrite Htr, Htr1, Hsk, Hsk1.
        split; [by rewrite <- app_assoc|]. split; [done|].
        split; [by constructor|]. split; [by left|done].
      * exists (c :: rcv), l. rewrite Htr, Htr1, Hsk, Hsk1.
        split; [by rewrite <- app_assoc|].
        split; [destruct (decide (c :: rcv = [])); done|].
        split; [done|]. split; [|done]. right.
        destruct Hlast as [?|Hlast]; [done|].
        destruct rcv; [done|]. exact Hlast.
    + injection Hx as ->. exists (10 :: rcv), l. rewrite Htr, Htr1, Hsk, Hsk1.
      split; [by rewrite <- app_assoc|].
      split. { destruct (decide (10 :: rcv = [])); [done|].
               by destruct (decide (rcv = [])). }
      split; [done|]. split; [|done]. right.
      destruct Hlast as [->|Hlast]; [done|].
      destruct rcv; [done|]. exact Hlast.
  - injection H as -> ->.
    apply await_ack_step_cases in Hstep
      as [(Hx & _)|[(c & Hc & Hx & _)|[(Hx & _)|
          [(_ & Htr1 & Hcmp & Hsk1)|Hx]]]]; try done.
    exists [], []. simpl. repeat split; try done. by left.
Qed.

(** The line buffer of the handshake: the characters since the last
    newline, carriage returns dropped, cut to 31. *)
Lemma line_of_take l : forall line,
  (length line <= 31)%nat ->
  line_of line l = take 31 (line ++ filter (fun c => c <> 13) l).
Proof.
  unfold line_of.
  induction l as [|c l IH]; intros line Hlen.
  - simpl. rewrite app_nil_r. symmetry. by apply take_ge.
  - simpl fold_left. unfold line_push at 2. simpl negb.
    destruct (Z.eqb_spec c 13) as [->|Hc]; simpl andb.
    + rewrite IH by done. by rewrite filter_cons_False by (intros H; by apply H).
    + rewrite filter_cons_True by done.
      destruct (Z.ltb_spec (Z.of_nat (length line)) 31) as [Hlt|Hge].
      * rewrite IH by (rewrite length_app; simpl; lia).
        by rewrite <- app_assoc.
      * rewrite IH by done.
        rewrite !take_app_le by lia. done.
Qed.

Lemma sent_some_quiet msgs {A B} (m : M A) (k : A -> M B) :
  keeps quiet m -> (forall a, keeps (sent_some msgs) (k a)) ->
  keeps (sent_some msgs) (m ≫= k).
Proof.
  intros Hm Hk w. unfold mbind, M_bind. specialize (Hm w). unfold quiet in Hm.
  destruct (m w) as [[a|] w1]; simpl in *.
  - destruct (Hk a w1) as [j Hj]. exists j. by rewrite Hj, Hm.
  - exists 0%nat. rewrite Hm. simpl. by rewrite app_nil_r.
Qed.

Lemma sent_some_end msgs {A} (m : M A) : keeps quiet m -> keeps (sent_some msgs) m.
Proof.
  intros Hm w. exists 0%nat. rewrite (Hm w). simpl. by rewrite app_nil_r.
Qed.

Lemma filter_is_tx_tx (l : list Z) : filter is_tx (map Tx l) = map Tx l.
Proof.
  induction l as [|c l IH]; [done|]. simpl.
  rewrite filter_cons_True by done. by rewrite IH.
Qed.

Lemma sent_some_write s msgs {B} (k : unit -> M B) :
  Forall (fun c => c <> 0) s -> (forall a, keeps (sent_some msgs) (k a)) ->
  keeps (sent_some (s :: msgs)) (uart_write_str s ≫= k).
Proof.
  intros Hs Hk w.
  destruct (uart_write_str_spec s w Hs) as (w1 & Hrun & Htr & _).
  rewrite (bind_spec _ _ _ _ _ Hrun).
  destruct (Hk tt w1) as [j Hj]. exists (S j).
  rewrite Hj. unfold sent at 1. rewrite Htr, filter_app, filter_is_tx_tx.
  fold (sent w). simpl. rewrite map_app, app_assoc. done.
Qed.

(** X15. Whatever the link and the keys do and however long it runs, the
    handshake sends nothing but its three messages, each whole, and in
    their order: the wake bytes, then RST, then SYNC. *)
Theorem handshake_sends_in_order E fuel w :
  exists k,
    sent (uart_handshake E fuel w).2 =
      sent w ++ map Tx (concat (take k handshake_msgs)).
Proof.
  revert w. change (keeps (sent_some handshake_msgs) (uart_handshake E fuel)).
  unfold uart_handshake, handshake_msgs.
  apply sent_some_quiet; [apply quiet_to_sink|intros _].
  apply sent_some_quiet; [apply quiet_uart_drain|intros _].
  apply sent_some_write; [repeat constructor; done|intros _].
  apply sent_some_quiet; [apply quiet_get_time_ms|intros start].
  apply sent_some_quiet; [apply quiet_await_wake|intros _].
  apply sent_some_write; [repeat constructor; done|intros _].
  apply sent_some_quiet; [apply quiet_get_time_ms|intros start'].
  apply sent_some_quiet; [apply quiet_await_ready|intros r].
  destruct r.
  - apply sent_some_quiet; [apply quiet_uart_drain|intros _].
    apply sent_some_write; [repeat constructor; done|intros _].
    apply sent_some_quiet; [apply quiet_get_time_ms|intros start''].
    apply sent_some_end, quiet_await_ack.
  - apply sent_some_end. by intros w0.
Qed.

(** X14. [receive_response] never sends anything but acknowledgements,
    whatever arrives and however long it runs. *)
Theorem receive_response_sends_only_acks E max_len fuel w :
  exists k,
    sent (receive_response E max_len fuel w).2 = sent w ++ replicate k (Tx 65).
Proof. apply acked_receive_response. Qed.

(** X16. The handshake reports a connection only when the bridge answered:
    when it returns success, the link log ends with SYNC sent and, after
    it, received lines of which the last, carriage returns dropped and
    cut to the 31 characters of the line buffer, is READY; and it has
    shown [Connected!]. *)
Theorem handshake_success_means_ready E fuel w w' :
  uart_handshake E fuel w = (Some true, w') ->
  exists before rcv l,
    trace w' = trace w ++ before ++ map Tx (str "SYNC" ++ [10]) ++
               map Rx (rcv ++ l ++ [10]) /\
    cstr (take 31 (filter (fun c => c <> 13) l)) = str "READY" /\
    Forall (fun c => c <> 10) l /\
    (rcv = [] \/ last rcv = Some 10) /\
    shown w' = shown w ++ [Printf (str "Connecting to ESP32..." ++ [10]);
                           Printf (str "Connected!" ++ [10])].
Proof.
  unfold uart_handshake. intros H.
  apply bind_inv in H as ([] & w1 & H1 & H). injection H1 as <-.
  apply bind_inv in H as ([] & w2 & H2 & H).
  apply (keeps_run went_on _ _ _ _ (went_on_uart_drain _ _ _)) in H2.
  apply bind_inv in H as ([] & w3 & H3 & H).
  apply (keeps_run went_on _ _ _ _ (went_on_uart_write_str _)) in H3.
  apply bind_inv in H as (s1 & w4 & H4 & H).
  apply (keeps_run went_on _ _ _ _ (went_on_get_time_ms _)) in H4.
  apply bind_inv in H as ([] & w5 & H5 & H).
  apply (keeps_run went_on _ _ _ _ (went_on_await_wake _ _ _ _)) in H5.
  apply bind_inv in H as ([] & w6 & H6 & H).
  apply (keeps_run went_on _ _ _ _ (went_on_uart_write_str _)) in H6.
  apply bind_inv in H as (s2 & w7 & H7 & H).
  apply (keeps_run went_on _ _ _ _ (went_on_get_time_ms _)) in H7.
  apply bind_inv in H as (r & w8 & H8 & H).
  apply (keeps_run went_on _ _ _ _ (went_on_await_ready _ _ _ _)) in H8.
  destruct r; [|done].
  apply bind_inv in H as ([] & w9 & H9 & H).
  apply (keeps_run went_on _ _ _ _ (went_on_uart_drain _ _ _)) in H9.
  apply bind_inv in H as ([] & w10 & H10 & H).
  destruct (uart_write_str_spec (str "SYNC" ++ [10]) w9 ltac:(repeat constructor; done))
    as (w10' & H10' & Htr10 & _ & Hsk10 & _).
  rewrite H10' in H10. injection H10 as <-.
  apply bind_inv in H as (s3 & w11 & H11 & H). injection H11 as <- <-.
  apply await_ack_true in H as (rcv & l & Htr & Hcmp & Hl & Hlast & Hsk).
  assert (went_on (mkWorld (S (tick w)) (rx w) (chan w)
            (Printf (str "Connecting to ESP32..." ++ [10]) :: sink w)
            (buf w) (stores w)) w9) as [[before Hbefore] Hsk9].
  { repeat (etransitivity; [eassumption|]). reflexivity. }
  exists before, rcv, l. split; [|split; [|split; [|split]]].
  - rewrite Htr. change (trace (tock w10')) with (trace w10').
    rewrite Htr10, Hbefore. rewrite <- !app_assoc. done.
  - assert (strcmp_eq (line_of [] l) "READY" = true) as Hcmp'
      by (destruct (decide (rcv = [])); exact Hcmp).
    rewrite line_of_take in Hcmp' by (simpl; lia).
    unfold strcmp_eq in Hcmp'. by apply bytes_eqb_eq in Hcmp'.
  - exact Hl.
  - exact Hlast.
  - unfold shown. rewrite Hsk. change (sink (tock w10')) with (sink w10').
    rewrite Hsk10, Hsk9. simpl. by rewrite <- app_assoc.
Qed.

(** X17. With ESC down on a silent link the handshake still drains and waits
    its 2 s for the wake answer, which do not look at the key; it then
    sends RST and gives up at the first poll of the wait for ESP_READY:
    it returns failure without sending SYNC and without a message. *)
Theorem handshake_aborted_by_esc E w :
  steady E -> running E -> (forall t, esc_key E t = true) -> rx w = [] ->
  exists n0 t_wake t_rst w',
    (forall fuel, (n0 <= fuel)%nat -> uart_handshake E fuel w = (Some false, w')) /\
    chan w' = rev (stamp t_rst (str "RST" ++ [10])) ++
              rev (stamp t_wake [10; 10; 10; 10; 10]) ++ chan w /\
    shown w' = shown w ++ [Printf (str "Connecting to ESP32..." ++ [10])] /\
    2000 <= (secs E t_rst - secs E t_wake) * 1000 /\
    tick w' = (7 + t_rst)%nat.
Proof.
  intros Hst Hrun Hesc Hrx.
  pose (w1 := mkWorld (S (tick w)) (rx w) (chan w)
               (Printf (str "Connecting to ESP32..." ++ [10]) :: sink w) (buf w) (stores w)).
  destruct (uart_drain_silent E Hst Hrun 100 w1 ltac:(lia) Hrx) as (n1 & t1 & H1 & Ht1 & _).
  pose (w2 := mkWorld (6 + t1) (rx w)
               (rev (stamp t1 [10; 10; 10; 10; 10]) ++ chan w) (sink w1) (buf w) (stores w)).
  destruct (await_wake_silent E Hst Hrun w2 (5 + t1) Hrx eq_refl)
    as (n2 & t2 & H2 & Ht2 & Hel2).
  pose (w3 := mkWorld (5 + t2) (rx w)
               (rev (stamp t2 (str "RST" ++ [10])) ++ chan w2) (sink w1) (buf w) (stores w)).
  exists (S (n1 + n2))%nat, t1, t2, (at_tick (7 + t2) w3).
  simpl in Ht1, Ht2.
  split; [|split; [|split; [|split]]].
  - intros fuel Hfuel. unfold uart_handshake.
    change (str "RST" ++ [10]) with [82; 83; 84; 10].
    erewrite bind_spec by reflexivity.
    erewrite bind_spec by (apply H1; lia).
    erewrite bind_spec by reflexivity.
    erewrite bind_spec by reflexivity.
    erewrite bind_spec by (apply H2; lia).
    erewrite bind_spec by reflexivity.
    erewrite bind_spec by reflexivity.
    assert (await_ready E (now_ms E (4 + t2)) fuel [] w3 =
            (Some ReadyEsc, at_tick (7 + t2) w3)) as H3.
    { destruct fuel as [|n]; [lia|]. unfold await_ready. rewrite loop_S.
      assert (await_ready_step E (now_ms E (4 + t2)) n [] w3 =
              (Some (inr ReadyEsc), at_tick (7 + t2) w3)) as ->; [|done].
      unfold await_ready_step. bind_step by reflexivity.
      change (tick w3) with (5 + t2)%nat.
      pose proof (steady_le E (4 + t2) (5 + t2) Hst ltac:(lia)).
      rewrite elapsed_exact by (try done; unfold two32; lia).
      replace (_ <? 15000) with true by lia.
      run. rewrite Hesc. reflexivity. }
    erewrite bind_spec by (exact H3). reflexivity.
  - reflexivity.
  - unfold shown. simpl. done.
  - pose proof (steady_le E t1 (5 + t1) Hst ltac:(lia)).
    pose proof (steady_le E (5 + t1) t2 Hst ltac:(lia)). lia.
  - reflexivity.
Qed.

(** ** The clamped length *)

(** *** The bytes read are the bytes that were to come *)

Lemma rcvd_cons w t r e s bf st :
  rcvd (mkWorld t r ((tick w, e) :: chan w) s bf st) =
  rcvd w ++ match e with Rx b => [b] | Tx _ => [] end.
Proof.
  unfold rcvd. rewrite trace_cons, omap_app. simpl. by destruct e.
Qed.

#[local] Instance reads_preorder : PreOrder reads.
Proof.
  split.
  - intros w. exists 0%nat. simpl. by rewrite drop_0, app_nil_r.
  - intros a b c (k1 & Hr1 & Ht1) (k2 & Hr2 & Ht2). exists (k1 + k2)%nat. split.
    + by rewrite Hr2, Hr1, drop_drop.
    + rewrite Ht2, Ht1, Hr1, <- app_assoc, <- map_app. f_equal. f_equal.
      rewrite <- (take_drop k1 (rx a)) at 3.
      rewrite take_app_ge by (rewrite length_take; lia).
      destruct (decide (k1 <= length (rx a))%nat) as [Hle|Hgt].
      * rewrite length_take, Nat.min_l by lia. do 2 f_equal. lia.
      * rewrite (drop_ge (rx a) k1) by lia. by rewrite !take_nil.
Qed.

#[local] Instance same_buf_preorder : PreOrder same_buf.
Proof. split; [by intros w|]. intros a b c ? ?. unfold same_buf in *. congruence. Qed.

Lemma reads_same w w' : rx w' = rx w -> chan w' = chan w -> reads w w'.
Proof.
  intros Hr Hc. exists 0%nat. rewrite drop_0. split; [done|].
  unfold rcvd, trace. rewrite Hc. simpl. by rewrite app_nil_r.
Qed.

Lemma reads_get_time_ms E : keeps reads (get_time_ms E).
Proof. intros w. by apply reads_same. Qed.
Lemma reads_uart_has_data : keeps reads uart_has_data.
Proof. intros w. by apply reads_same. Qed.
Lemma reads_isKeyPressed_ESC E : keeps reads (isKeyPressed_ESC E).
Proof. intros w. by apply reads_same. Qed.
Lemma reads_to_sink e : keeps reads (to_sink e).
Proof. intros w. by apply reads_same. Qed.
Lemma reads_buf_store i c : keeps reads (buf_store i c).
Proof. intros w. by apply reads_same. Qed.
Lemma reads_read_buf : keeps reads read_buf.
Proof. intros w. by apply reads_same. Qed.
Lemma reads_uart_write_char c : keeps reads (uart_write_char c).
Proof.
  intros w. exists 0%nat. rewrite drop_0. split; [done|].
  simpl. rewrite rcvd_cons. done.
Qed.
Lemma reads_uart_read_char : keeps reads uart_read_char.
Proof.
  intros w. unfold uart_read_char.
  destruct (rx w) as [|[t b] r] eqn:Hrx; [by apply reads_same|].
  destruct (t <=? tick w)%nat; [|by apply reads_same].
  exists 1%nat. simpl. rewrite Hrx, rcvd_cons. done.
Qed.

Create HintDb reads.
#[export] Hint Resolve reads_get_time_ms reads_uart_has_data
  reads_isKeyPressed_ESC reads_to_sink reads_buf_store reads_read_buf
  reads_uart_write_char reads_uart_read_char : reads.

Lemma same_buf_get_time_ms E : keeps same_buf (get_time_ms E). Proof. done. Qed.
Lemma same_buf_uart_has_data : keeps same_buf uart_has_data. Proof. done. Qed.
Lemma same_buf_isKeyPressed_ESC E : keeps same_buf (isKeyPressed_ESC E).
Proof. done. Qed.
Lemma same_buf_to_sink e : keeps same_buf (to_sink e). Proof. done. Qed.
Lemma same_buf_read_buf : keeps same_buf read_buf. Proof. done. Qed.
Lemma same_buf_uart_write_char c : keeps same_buf (uart_write_char c).
Proof. done. Qed.
Lemma same_buf_uart_read_char : keeps same_buf uart_read_char.
Proof.
  intros w. unfold same_buf, uart_read_char. destruct (rx w) as [|[t b] r]; [done|].
  by destruct (t <=? tick w)%nat.
Qed.

Create HintDb same_buf.
#[export] Hint Resolve same_buf_get_time_ms same_buf_uart_has_data
  same_buf_isKeyPressed_ESC same_buf_to_sink same_buf_read_buf
  same_buf_uart_write_char same_buf_uart_read_char : same_buf.

Ltac run_kept :=
  repeat first
    [ apply keeps_bind; [apply _| |intros ?]
    | apply keeps_if
    | apply keeps_loop; [apply _|intros ? ?]
    | match goal with |- keeps _ (match ?x with _ => _ end) => destruct x end
    | solve [apply keeps_ret; apply _]
    | solve [unfold scroll_add_line, scroll_add_text, redraw, nio_printf;
             auto with reads same_buf] ].

Lemma reads_receive_body E max_len expected_len fuel :
  keeps reads (receive_body E max_len expected_len fuel).
Proof.
  unfold receive_body, receive_chunks, wait_eot, wait_eot_step.
  run_kept.
  all: unfold receive_chunks_step, read_chunk, read_chunk_step.
  all: run_kept.
Qed.

Lemma omap_rx (l : list Z) :
  omap (fun e => match e with Rx b => Some b | Tx _ => None end) (map Rx l) = l.
Proof. induction l as [|x l IH]; [done|]. simpl. f_equal. exact IH. Qed.

Lemma rcvd_acked_chunks n : forall bs,
  (length bs <= n)%nat ->
  omap (fun e => match e with Rx b => Some b | Tx _ => None end)
       (acked_chunks n bs) = bs.
Proof.
  induction n as [|n IH]; intros bs Hn.
  - destruct bs; [done|simpl in Hn; lia].
  - destruct bs as [|b bs]; [done|].
    rewrite acked_chunks_S by done.
    rewrite omap_app, omap_rx. simpl omap.
    rewrite IH by (rewrite length_drop; simpl in *; lia).
    first [apply take_drop | simpl; f_equal; apply take_drop].
Qed.

Lemma same_buf_wait_eot E start fuel : keeps same_buf (wait_eot E start fuel).
Proof. unfold wait_eot, wait_eot_step. run_kept. Qed.

(** *** The buffer when the receiver returns *)

Lemma hoare_ret {A} (a : A) (P : list Z -> Prop) (Q : A -> list Z -> Prop) :
  (forall b, P b -> Q a b) -> hoare P (mret a) Q.
Proof. intros H w a' w' HP Hrun. injection Hrun as <- <-. by apply H. Qed.

Lemma hoare_bind {A B} (m : M A) (k : A -> M B) P R Q :
  hoare P m R -> (forall a, hoare (R a) (k a) Q) -> hoare P (m ≫= k) Q.
Proof.
  intros Hm Hk w b w' HP Hrun.
  apply bind_inv in Hrun as (a & w1 & H1 & H2).
  exact (Hk a w1 b w' (Hm w a w1 HP H1) H2).
Qed.

Lemma hoare_loop {S T} (body : nat -> S -> M (S + T))
  (Inv : S -> list Z -> Prop) (Q : T -> list Z -> Prop) :
  (forall n s, hoare (Inv s) (body n s)
     (fun x b => match x with inl s' => Inv s' b | inr r => Q r b end)) ->
  forall fuel s, hoare (Inv s) (loop body fuel s) Q.
Proof.
  intros Hb fuel. induction fuel as [|n IH]; intros s; [by intros w a w' _ H|].
  simpl. eapply hoare_bind; [apply Hb|].
  intros [s'|r]; [apply IH|]. by apply hoare_ret.
Qed.

Lemma hoare_weaken {A} (m : M A) (P P' : list Z -> Prop)
  (Q Q' : A -> list Z -> Prop) :
  hoare P' m Q' -> (forall b, P b -> P' b) -> (forall a b, Q' a b -> Q a b) ->
  hoare P m Q.
Proof. intros H HP HQ w a w' Hw Hrun. apply HQ, (H w a w'); auto. Qed.

(** A step that does not write the buffer. *)
Lemma hoare_kept {A} (m : M A) (P : list Z -> Prop) (Q : A -> list Z -> Prop) :
  keeps same_buf m -> (forall a b, P b -> Q a b) -> hoare P m Q.
Proof.
  intros Hk H w a w' HP Hrun. apply H.
  pose proof (keeps_run _ _ _ _ _ Hk Hrun) as Hb. unfold same_buf in Hb.
  by rewrite Hb.
Qed.

Lemma hoare_store i c (P : list Z -> Prop) (Q : unit -> list Z -> Prop) :
  (forall b, P b ->
     Q tt (if (0 <=? i) && (i <? Z.of_nat (length b))
           then <[Z.to_nat i := c]> b else b)) ->
  hoare P (buf_store i c) Q.
Proof.
  intros H w a w' HP Hrun. unfold buf_store in Hrun.
  injection Hrun as <- <-. simpl. by apply H.
Qed.

Lemma length_stored i c (b : list Z) :
  length (if (0 <=? i) && (i <? Z.of_nat (length b))
          then <[Z.to_nat i := c]> b else b) = length b.
Proof. destruct (_ && _); [apply length_insert|done]. Qed.

Lemma lookup_stored i c (b : list Z) :
  0 <= i < Z.of_nat (length b) ->
  (if (0 <=? i) && (i <? Z.of_nat (length b))
   then <[Z.to_nat i := c]> b else b) !! Z.to_nat i = Some c.
Proof.
  intros Hi. replace ((0 <=? i) && (i <? Z.of_nat (length b))) with true by lia.
  apply list_lookup_insert_eq. lia.
Qed.

(** A NUL at index [i] ends the string there at the latest. *)
Lemma cstr_nul_at (b : list Z) : forall i,
  b !! i = Some 0 -> (length (cstr b) <= i)%nat.
Proof.
  induction b as [|c b IH]; intros i Hi; [done|].
  destruct i as [|i]; simpl in *.
  - injection Hi as ->. simpl. lia.
  - destruct (c =? 0); simpl; [lia|]. specialize (IH i Hi). lia.
Qed.

Section Clamped.
Context (E : env) (cap : nat).

Ltac buf_kept := apply hoare_kept; [solve [unfold scroll_add_line, redraw; auto with same_buf]|].

Lemma read_chunk_hoare received chunk_target fuel chunk_got start :
  0 <= received < Z.of_nat cap -> 0 <= chunk_got <= chunk_target ->
  hoare (fun b => length b = cap)
    (read_chunk E received chunk_target fuel (chunk_got, start))
    (fun r b => length b = cap /\
       match r with
       | ChunkEnd got _ => 0 <= got <= chunk_target
       | ChunkEOT => True
       | ChunkCancelled => b !! Z.to_nat received = Some 0
       end).
Proof.
  intros Hrec Hgot. unfold read_chunk.
  eapply hoare_weaken;
    [apply (hoare_loop _ (fun st b => length b = cap /\ 0 <= st.1 <= chunk_target)
              (fun r b => length b = cap /\
                 match r with
                 | ChunkEnd got _ => 0 <= got <= chunk_target
                 | ChunkEOT => True
                 | ChunkCancelled => b !! Z.to_nat received = Some 0
                 end))
    | intros b Hb; split; [exact Hb|exact Hgot]
    | intros a b H; exact H].
  clear Hgot. intros n [got0 start0]. cbn [fst].
  clear chunk_got start. rename got0 into chunk_got, start0 into start.
  unfold read_chunk_step.
  destruct (Z.ltb_spec chunk_got chunk_target) as [Hlt|Hge];
    [|apply hoare_ret; tauto].
  eapply hoare_bind; [buf_kept; intros ? ? H; exact H|]. intros now.
  destruct (elapsed now start <? 120000); [|apply hoare_ret; tauto].
  eapply hoare_bind; [buf_kept; intros ? ? H; exact H|]. intros d.
  destruct d.
  - eapply hoare_bind; [buf_kept; intros ? ? H; exact H|]. intros c.
    destruct (c =? EOT_CHAR); [apply hoare_ret; tauto|].
    eapply hoare_bind with (R := fun _ b => length b = cap /\ 0 <= chunk_got <= chunk_target).
    { apply hoare_store. intros b [Hb ?]. by rewrite length_stored. }
    intros ?. eapply hoare_bind; [buf_kept; intros ? ? H; exact H|]. intros start'.
    apply hoare_ret. simpl. intros b [? ?]. split; [done|lia].
  - eapply hoare_bind; [buf_kept; intros ? ? H; exact H|]. intros k.
    destruct k; [|apply hoare_ret; tauto].
    eapply hoare_bind; [buf_kept; intros ? ? H; exact H|]. intros ?.
    eapply hoare_bind with
      (R := fun _ b => length b = cap /\ b !! Z.to_nat received = Some 0).
    { apply hoare_store. intros b [Hb ?]. rewrite length_stored. split; [done|].
      apply lookup_stored. lia. }
    intros ?. eapply hoare_bind; [buf_kept; intros ? ? H; exact H|]. intros ?.
    apply hoare_ret. tauto.
Qed.

Lemma receive_chunks_hoare expected_len fuel received start :
  0 <= received <= expected_len -> expected_len < Z.of_nat cap ->
  hoare (fun b => length b = cap)
    (receive_chunks E expected_len fuel (received, start))
    (fun r b => length b = cap /\
       exists i, 0 <= i <= expected_len /\
         match r with
         | BodyDone got => got = i
         | BodyCancelled => b !! Z.to_nat i = Some 0
         end).
Proof.
  intros Hrec Hcap. unfold receive_chunks.
  eapply hoare_weaken;
    [apply (hoare_loop _ (fun st b => length b = cap /\ 0 <= st.1 <= expected_len)
              (fun r b => length b = cap /\
                 exists i, 0 <= i <= expected_len /\
                   match r with
                   | BodyDone got => got = i
                   | BodyCancelled => b !! Z.to_nat i = Some 0
                   end))
    | intros b Hb; split; [exact Hb|exact Hrec]
    | intros a b H; exact H].
  intros n [received0 start0]. cbn [fst].
  clear received start Hrec. rename received0 into received, start0 into start.
  unfold receive_chunks_step.
  destruct (Z.ltb_spec received expected_len) as [Hlt|Hge].
  2:{ apply hoare_ret. intros b [? ?]. split; [done|]. by exists received. }
  set (chunk_target := if expected_len - received >? CHUNK_SIZE
                       then CHUNK_SIZE else expected_len - received).
  assert (0 <= chunk_target <= expected_len - received) as Ht.
  { unfold chunk_target, CHUNK_SIZE. case_match; lia. }
  eapply hoare_bind with
    (R := fun r b => (length b = cap /\ 0 <= received <= expected_len) /\
       match r with
       | ChunkEnd got _ => 0 <= got <= chunk_target
       | ChunkEOT => True
       | ChunkCancelled => b !! Z.to_nat received = Some 0
       end).
  { intros w a w' [Hb Hr] Hrun. split.
    - split; [|done].
      by apply (read_chunk_hoare received chunk_target n 0 start
                  ltac:(lia) ltac:(lia) w a w' Hb Hrun).
    - by apply (read_chunk_hoare received chunk_target n 0 start
                  ltac:(lia) ltac:(lia) w a w' Hb Hrun). }
  intros [got start'| |].
  - eapply hoare_bind; [buf_kept; intros ? ? H; exact H|]. intros ?.
    apply hoare_ret. simpl. intros b [[? ?] ?]. split; [done|lia].
  - apply hoare_ret. intros b [[? ?] _]. split; [done|]. by exists received.
  - apply hoare_ret. intros b [[? ?] ?]. split; [done|]. exists received.
    split; [lia|done].
Qed.

(** However the reception ends, when it returns there is a NUL in the
    buffer at an index that is at most the clamped length. *)
Lemma receive_body_hoare max_len expected_len fuel :
  let el := if expected_len >=? max_len then max_len - 1 else expected_len in
  0 <= el < Z.of_nat cap ->
  hoare (fun b => length b = cap) (receive_body E max_len expected_len fuel)
    (fun _ b => length b = cap /\
       exists i, 0 <= i <= el /\ b !! Z.to_nat i = Some 0).
Proof.
  intros el Hel. unfold receive_body. fold el.
  eapply hoare_bind; [buf_kept; intros ? ? H; exact H|]. intros ?.
  eapply hoare_bind; [buf_kept; intros ? ? H; exact H|]. intros start.
  eapply hoare_bind;
    [apply (receive_chunks_hoare el fuel 0 start); lia|].
  intros [received|]; [|apply hoare_ret; tauto].
  eapply hoare_bind with
    (R := fun _ b => length b = cap /\
            exists i, 0 <= i <= el /\ b !! Z.to_nat i = Some 0).
  { apply hoare_store. intros b (Hb & i & Hi & ->). rewrite length_stored.
    split; [done|]. exists i. split; [done|]. apply lookup_stored. lia. }
  intros ?. eapply hoare_bind; [buf_kept; intros ? ? H; exact H|]. intros start'.
  eapply hoare_bind.
  { apply hoare_kept; [apply same_buf_wait_eot|]. intros ? ? H. exact H. }
  intros ?. eapply hoare_bind; [buf_kept; intros ? ? H; exact H|]. intros response.
  eapply hoare_bind.
  { apply hoare_kept; [unfold scroll_add_text; auto with same_buf|].
    intros ? ? H. exact H. }
  intros ?. eapply hoare_bind; [buf_kept; intros ? ? H; exact H|]. intros ?.
  eapply hoare_bind; [buf_kept; intros ? ? H; exact H|]. intros ?.
  eapply hoare_bind; [buf_kept; intros ? ? H; exact H|]. intros ?.
  apply hoare_ret. tauto.
Qed.

End Clamped.

(** C3, amended.  When the declared length [L] is at least the capacity
    [max_len] of the buffer, the receiver goes on exactly as for a
    declared length of [max_len - 1]: every store stays inside the
    buffer and a string it returns has at most [max_len - 1] bytes, but
    the chunks it acknowledges are those of the clamped length, not of
    the declared one.  When the [max_len - 1] body bytes arrive in time
    it stores them and the NUL, returns true and has sent the
    acknowledgement of the header and one for each chunk of those bytes;
    after the last of them it only reads: what it reads while it waits
    for the terminator is a prefix of what follows on the link, neither
    stored nor acknowledged, and the rest stays unread. *)
Theorem receive_clamped_to_capacity E max_len fuel0 w L w1 :
  wait_for_len_or_error E fuel0 w = (Some L, w1) ->
  1 <= max_len -> max_len <= L ->
  Z.of_nat (length (buf w1)) = max_len ->
  in_bounds max_len w ->
  (forall fuel, (fuel0 <= fuel)%nat ->
     receive_response E max_len fuel w =
       receive_body E max_len (max_len - 1) fuel w1 /\
     in_bounds max_len (receive_response E max_len fuel w).2 /\
     forall b w', receive_response E max_len fuel w = (Some b, w') ->
       Z.of_nat (length (cstr (buf w'))) <= max_len - 1) /\
  (steady E -> running E -> (forall t, esc_key E t = false) ->
   forall items rest,
     rx w1 = items ++ rest ->
     Z.of_nat (length items) = max_len - 1 ->
     timely E (tick w1) items ->
     exists n0 w' k,
       (forall fuel, (n0 <= fuel)%nat ->
          receive_response E max_len fuel w = (Some true, w')) /\
       buf w' = map snd items ++ [0] /\
       sent w' = sent w1 ++ replicate (1 + chunk_count (length items)) (Tx 65) /\
       trace w' = trace w1 ++ Tx 65 ::
                  acked_chunks (length items) (map snd items) ++
                  map Rx (map snd (take k rest)) /\
       rx w' = drop k rest).
Proof.
  intros Hhdr Hmax HL Hcap Hw.
  assert (forall fuel, (fuel0 <= fuel)%nat ->
            receive_response E max_len fuel w = receive_body E max_len L fuel w1) as Hresp.
  { intros fuel Hfuel. unfold receive_response.
    rewrite (bind_spec _ _ _ _ _
               (wait_for_len_or_error_mono E fuel0 fuel w L w1 Hfuel Hhdr)).
    cbv beta.
    replace (L <? 0) with false by lia. replace (L =? 0) with false by lia.
    reflexivity. }
  assert (forall fuel, receive_body E max_len L fuel w1 =
                       receive_body E max_len (max_len - 1) fuel w1) as Hclamp.
  { intros fuel. unfold receive_body.
    replace (L >=? max_len) with true by lia.
    replace (max_len - 1 >=? max_len) with false by lia. reflexivity. }
  split.
  - intros fuel Hfuel. split; [by rewrite Hresp, Hclamp|]. split.
    + by apply (receive_response_bounds E max_len fuel Hmax w).
    + intros b w' Hrun. rewrite Hresp in Hrun by done.
      destruct (receive_body_hoare E (length (buf w1)) max_len L fuel
                  ltac:(replace (L >=? max_len) with true by lia; lia)
                  w1 b w' eq_refl Hrun) as (_ & i & Hi & Hnul).
      replace (L >=? max_len) with true in Hi by lia.
      pose proof (cstr_nul_at _ _ Hnul). lia.
  - intros Hst Hrun Hesc items rest Hrx Hlen Hitems.
    destruct (receive_body_timely E max_len L w1 items rest Hst Hrun Hesc)
      as (n0 & w' & dropped & Hbody & Htr & Htake & Hlb & _);
      [lia | done | replace (L >=? max_len) with true by lia; lia | done | lia |].
    destruct (keeps_run _ _ _ _ _ (reads_receive_body E max_len L n0)
                (Hbody n0 ltac:(lia))) as (k0 & Hrx' & Hrcvd).
    assert (rcvd w' = rcvd w1 ++ map snd items ++ dropped) as Hrcvd'.
    { unfold rcvd. rewrite Htr, omap_app. f_equal. simpl omap.
      rewrite omap_app, omap_rx.
      by rewrite rcvd_acked_chunks by (rewrite length_map; lia). }
    rewrite Hrcvd' in Hrcvd. apply app_inv_head in Hrcvd.
    assert (length items <= k0)%nat as Hk0.
    { apply (f_equal length) in Hrcvd.
      rewrite length_app, !length_map, length_take in Hrcvd. lia. }
    rewrite Hrx in Hrcvd, Hrx'.
    rewrite take_app_ge, map_app in Hrcvd by done.
    apply app_inv_head in Hrcvd.
    rewrite drop_app_ge in Hrx' by done.
    exists (Nat.max fuel0 n0), w', (k0 - length items)%nat.
    split; [|split; [|split; [|split]]].
    + intros fuel Hfuel. rewrite Hresp by lia. apply Hbody. lia.
    + rewrite <- Htake. symmetry. apply take_ge. lia.
    + rewrite (sent_app_trace _ _ _ Htr).
      rewrite filter_cons_True by done.
      rewrite filter_app, filter_is_tx_rx, app_nil_r.
      rewrite sent_acked_chunks by (rewrite length_map; lia).
      rewrite length_map. reflexivity.
    + rewrite Htr, Hrcvd. reflexivity.
    + exact Hrx'.
Qed.

(** ** The scrollback *)

Module DisplayFacts.
Import Display.

Section Console.
Context (CONSOLE_COLS CONSOLE_ROWS : Z).

Abbreviation cols := (Z.to_nat CONSOLE_COLS).
Abbreviation add_line := (scroll_add_line CONSOLE_COLS).

Lemma cstr_row_of line : cstr (row_of CONSOLE_COLS line) = take cols (cstr line).
Proof.
  unfold row_of, strncpy.
  pose proof (cstr_nonzero line) as Hnz.
  destruct (decide (cols <= length (cstr line))%nat) as [Hle|Hgt].
  - rewrite take_app_le by lia. rewrite cstr_app_nul; [done|].
    by apply Forall_take.
  - rewrite take_app_ge by lia. rewrite (take_ge (cstr line)) by lia.
    rewrite take_replicate, <- app_assoc.
    destruct ((cols - length (cstr line)) `min` cols)%nat as [|k] eqn:Hk; [lia|].
    simpl. by apply cstr_app_nul.
Qed.

Lemma shift_rows_cons (t : list Z) r :
  shift_rows (t :: r) = r ++ [default t (last r)].
Proof.
  unfold shift_rows. f_equal.
  destruct r as [|t' r] using rev_ind; [done|].
  rewrite app_comm_cons, !last_snoc. done.
Qed.

(** One line more: the oldest goes when the 1000 rows are in use. *)
Lemma scroll_add_line_rows line sb :
  wf sb ->
  wf (add_line line sb) /\
  rows (add_line line sb) =
    drop (length (rows sb) + 1 - 1000) (rows sb ++ [take cols (cstr line)]) /\
  line_count (add_line line sb) = Z.min SCROLLBACK_LINES (line_count sb + 1) /\
  scroll_offset (add_line line sb) = scroll_offset sb.
Proof.
  intros [Hlen Hc]. unfold scroll_add_line, rows, SCROLLBACK_LINES in *.
  change (Z.to_nat 1000) with 1000%nat in *.
  destruct (Z.ltb_spec (line_count sb) 1000) as [Hlt|Hge]; simpl.
  - split; [|split; [|split; [lia|done]]].
    + split; simpl; [by rewrite length_insert|]. unfold SCROLLBACK_LINES. lia.
    + rewrite length_map, length_take.
      replace (_ + 1 - 1000)%nat with 0%nat by lia. rewrite drop_0.
      replace (Z.to_nat (line_count sb + 1)) with (S (Z.to_nat (line_count sb))) by lia.
      erewrite take_S_r by (apply list_lookup_insert_eq; lia).
      rewrite take_insert_ge by lia. rewrite map_app. simpl.
      by rewrite cstr_row_of.
  - assert (line_count sb = 1000) as Hc1000 by lia. rewrite Hc1000.
    change (Z.to_nat 1000) with 1000%nat. change (Z.to_nat (1000 - 1)) with 999%nat.
    destruct (lines sb) as [|t0 tl] eqn:Ht; [simpl in Hlen; lia|].
    rewrite shift_rows_cons. simpl in Hlen.
    assert (length tl = 999%nat) as Hr by lia.
    rewrite insert_app_r_alt by lia. rewrite Hr, Nat.sub_diag. simpl.
    split; [|split; [|split; [lia|done]]].
    + split; cbn [lines line_count]; [|unfold SCROLLBACK_LINES; lia].
      rewrite length_app. cbn [length]. unfold SCROLLBACK_LINES. lia.
    + rewrite !take_ge by (rewrite ?length_app; simpl; lia).
      rewrite length_map. cbn [length]. rewrite Hr.
      change (1000 + 1 - 1000)%nat with 1%nat.
      rewrite map_app. cbn [map drop]. by rewrite cstr_row_of.
Qed.

Abbreviation add_lines := (add_lines CONSOLE_COLS).

Lemma add_lines_rows ls : forall sb,
  wf sb ->
  wf (add_lines ls sb) /\
  rows (add_lines ls sb) =
    drop (length (rows sb) + length ls - 1000)
         (rows sb ++ map (fun l => take cols (cstr l)) ls) /\
  line_count (add_lines ls sb) =
    Z.min SCROLLBACK_LINES (line_count sb + Z.of_nat (length ls)) /\
  scroll_offset (add_lines ls sb) = scroll_offset sb.
Proof.
  induction ls as [|l ls IH]; intros sb Hwf.
  - simpl. rewrite app_nil_r, Nat.add_0_r.
    assert (length (rows sb) <= 1000)%nat.
    { unfold rows. rewrite length_map, length_take.
      destruct Hwf as [? ?]. unfold SCROLLBACK_LINES in *. lia. }
    replace (length (rows sb) - 1000)%nat with 0%nat by lia.
    pose proof (wf_line_count _ Hwf). unfold SCROLLBACK_LINES in *.
    split; [done|]. split; [done|]. split; [lia|done].
  - simpl.
    destruct (scroll_add_line_rows l sb Hwf) as (Hwf1 & Hr1 & Hc1 & Ho1).
    destruct (IH _ Hwf1) as (Hwf2 & Hr2 & Hc2 & Ho2).
    split; [done|]. split; [|split; [|congruence]].
    + rewrite Hr2, Hr1.
      assert (length (rows sb) <= 1000)%nat as Hle.
      { unfold rows. rewrite length_map, length_take.
        destruct Hwf as [? ?]. unfold SCROLLBACK_LINES in *. lia. }
      rewrite length_drop, length_app. simpl length.
      set (n := length (rows sb)) in *.
      set (x := take cols (cstr l)).
      set (m := map _ ls).
      rewrite <- drop_app_le by (rewrite length_app; simpl; lia).
      rewrite <- (app_assoc (rows sb) [x] m). simpl.
      rewrite drop_drop. f_equal. lia.
    + rewrite Hc2, Hc1. unfold SCROLLBACK_LINES. lia.
Qed.

Lemma length_rows sb : wf sb -> length (rows sb) = Z.to_nat (line_count sb).
Proof.
  intros [Hl Hc]. unfold rows, SCROLLBACK_LINES in *.
  rewrite length_map, length_take. lia.
Qed.

Abbreviation nul_ended := (map (fun l : list Z => l ++ [0])).

Lemma add_lines_app a b sb :
  add_lines (a ++ b) sb = add_lines b (add_lines a sb).
Proof. unfold add_lines. by rewrite fold_left_app. Qed.

(** The loop of [scroll_add_text]: the lines it adds are the text to
    come, less its newlines, after what [line] holds. *)
Lemma add_text_loop_lines fuel : forall text line sb,
  0 < CONSOLE_COLS ->
  Forall (fun c => c <> 0) line -> (length line <= cols)%nat ->
  (2 * length text + (if decide (cols <= length line)%nat then 1 else 0) + 1
     <= fuel)%nat ->
  exists ls line',
    add_text_loop CONSOLE_COLS fuel text line sb =
      Some (line', add_lines (nul_ended ls) sb) /\
    concat ls ++ line' = line ++ filter (fun c => c <> 10) (cstr text) /\
    Forall (fun l => Forall (fun c => c <> 0) l /\ (length l <= cols)%nat) ls /\
    (Forall (fun c => c <> 10) (cstr text) ->
     Forall (fun l => length l = cols) ls) /\
    Forall (fun c => c <> 0) line' /\ (length line' <= cols)%nat.
Proof.
  induction fuel as [|n IH]; intros text line sb Hcols Hnz Hlen Hfuel; [lia|].
  destruct text as [|c r].
  { exists [], line. simpl. rewrite app_nil_r. repeat split; try done; auto. }
  simpl add_text_loop. simpl cstr.
  destruct (Z.eqb_spec c 0) as [->|Hc0].
  { exists [], line. simpl. rewrite app_nil_r. repeat split; try done; auto. }
  simpl length in Hfuel.
  destruct (Z.eqb_spec c 10) as [->|Hc10]; simpl orb.
  - destruct (IH r [] (add_line (line ++ [0]) sb) Hcols ltac:(constructor)
                ltac:(simpl; lia)) as (ls & line' & Hrun & Hcat & Hls & Hfull & Hnz' & Hlen').
    { simpl. destruct (decide (cols <= 0)%nat); lia. }
    exists (line :: ls), line'. split; [exact Hrun|].
    split; [|split; [|split; [|split]]]; try done; auto.
    + simpl. rewrite <- app_assoc, Hcat. simpl.
      rewrite filter_cons_False by (intros H; by apply H). done.
    + intros H. inversion H; subst. done.
  - destruct (Z.geb_spec (Z.of_nat (length line)) CONSOLE_COLS) as [Hge|Hlt].
    + destruct (IH (c :: r) [] (add_line (line ++ [0]) sb) Hcols ltac:(constructor)
                  ltac:(simpl; lia)) as (ls & line' & Hrun & Hcat & Hls & Hfull & Hnz' & Hlen').
      { simpl. destruct (decide (cols <= 0)%nat); [lia|].
        destruct (decide (cols <= length line)%nat); lia. }
      exists (line :: ls), line'. split; [exact Hrun|].
      split; [|split; [|split; [|split]]]; try done; auto.
      * simpl. rewrite <- app_assoc, Hcat. simpl.
        destruct (Z.eqb_spec c 0); [done|]. done.
      * intros H. constructor; [lia|]. apply Hfull. simpl.
        destruct (Z.eqb_spec c 0); [done|]. done.
    + destruct (IH r (line ++ [c]) sb Hcols) as (ls & line' & Hrun & Hcat & Hls & Hfull & Hnz' & Hlen').
      { apply Forall_app. split; [done|]. by repeat constructor. }
      { rewrite length_app. simpl. lia. }
      { destruct (decide (cols <= length (line ++ [c]))%nat); lia. }
      exists ls, line'. split; [exact Hrun|].
      split; [|split; [|split; [|split]]]; try done; auto.
      * rewrite Hcat, <- app_assoc. simpl.
        rewrite filter_cons_True by done. done.
      * intros H. apply Hfull. by inversion H.
Qed.
Lemma add_text_loop_mono n : forall m text line sb r,
  (n <= m)%nat ->
  add_text_loop CONSOLE_COLS n text line sb = Some r ->
  add_text_loop CONSOLE_COLS m text line sb = Some r.
Proof.
  induction n as [|n IH]; intros m text line sb r Hle H; [done|].
  destruct m as [|m]; [lia|]. simpl in *.
  destruct text as [|c t]; [done|].
  destruct (c =? 0); [done|].
  destruct ((c =? 10) || (Z.of_nat (length line) >=? CONSOLE_COLS));
    apply IH; (lia || done).
Qed.

Lemma nul_ended_rows ls :
  Forall (fun l => Forall (fun c => c <> 0) l /\ (length l <= cols)%nat) ls ->
  map (fun l => take cols (cstr l)) (nul_ended ls) = ls.
Proof.
  induction 1 as [|l ls [Hnz Hlen] _ IH]; [done|].
  simpl. rewrite IH. f_equal.
  rewrite cstr_app_nul by done. by apply take_ge.
Qed.

(** [scroll_add_text] as a whole: the lines added, in order. *)
Lemma scroll_add_text_lines prefix text sb :
  0 < CONSOLE_COLS -> wf sb ->
  let head := match prefix with
              | Some p => take cols (cstr p)
              | None => []
              end in
  exists ls,
    (forall fuel, (2 * length text + 2 <= fuel)%nat ->
       scroll_add_text CONSOLE_COLS prefix text fuel sb =
         Some (add_lines (nul_ended ls) sb)) /\
    concat ls = head ++ filter (fun c => c <> 10) (cstr text) /\
    Forall (fun l => Forall (fun c => c <> 0) l /\ (length l <= cols)%nat) ls /\
    (Forall (fun c => c <> 10) (cstr text) ->
     Forall (fun l => length l = cols) (removelast ls)).
Proof.
  intros Hcols Hwf head.
  set (line := match prefix with
               | Some p =>
                   let plen := Z.of_nat (length (cstr p)) in
                   let plen := if plen >? CONSOLE_COLS then CONSOLE_COLS else plen in
                   take (Z.to_nat plen) (cstr p)
               | None => []
               end).
  assert (line = head) as Hline.
  { unfold line, head. destruct prefix as [p|]; [|done]. cbv zeta.
    destruct (Z.gtb_spec (Z.of_nat (length (cstr p))) CONSOLE_COLS); [done|].
    rewrite !take_ge by lia. done. }
  assert (Forall (fun c => c <> 0) head /\ (length head <= cols)%nat) as [Hnz Hlen].
  { unfold head. destruct prefix as [p|]; [|split; [constructor|simpl; lia]].
    split; [apply Forall_take, cstr_nonzero|]. rewrite length_take. lia. }
  destruct (add_text_loop_lines (2 * length text + 2) text head sb Hcols Hnz Hlen)
    as (ls & line' & Hrun & Hcat & Hls & Hfull & Hnz' & Hlen').
  { destruct (decide (cols <= length head)%nat); lia. }
  exists (ls ++ if decide (line' = []) then [] else [line']).
  split; [|split; [|split]].
  - intros fuel Hfuel. unfold scroll_add_text. fold line. rewrite Hline.
    rewrite (add_text_loop_mono _ fuel _ _ _ _ Hfuel Hrun).
    f_equal. rewrite map_app, add_lines_app.
    destruct (decide (line' = [])) as [->|Hne]; [done|].
    destruct line'; [done|]. done.
  - rewrite concat_app, <- Hcat. f_equal.
    destruct (decide (line' = [])) as [->|Hne]; [done|]. simpl. by rewrite app_nil_r.
  - apply Forall_app. split; [done|].
    destruct (decide (line' = [])); repeat constructor; done.
  - intros H. specialize (Hfull H).
    destruct (decide (line' = [])).
    + rewrite app_nil_r. revert Hfull. clear. intros H.
      induction H as [|x l Hx Hl IH]; [constructor|].
      destruct l; [constructor|]. simpl in *. constructor; done.
    + rewrite removelast_last. done.
Qed.

End Console.
End DisplayFacts.

Module RedrawFacts.
Import Display.

Lemma redraw_rows_window ROWS sb start n : forall i,
  0 <= i ->
  redraw_rows ROWS n i start sb =
    map (fun j => start + i + Z.of_nat j)
        (seq 0 (Nat.min n (Z.to_nat (Z.min (VISIBLE_LINES ROWS - i)
                                           (line_count sb - start - i))))).
Proof.
  induction n as [|n IH]; intros i Hi; [done|].
  simpl redraw_rows.
  destruct (Z.ltb_spec i (VISIBLE_LINES ROWS)) as [H1|H1];
    destruct (Z.ltb_spec (start + i) (line_count sb)) as [H2|H2]; simpl andb; cbv iota.
  - rewrite IH by lia.
    replace (Z.to_nat (Z.min (VISIBLE_LINES ROWS - i) (line_count sb - start - i)))
      with (S (Z.to_nat (Z.min (VISIBLE_LINES ROWS - (i + 1))
                               (line_count sb - start - (i + 1))))) by lia.
    rewrite <- Nat.succ_min_distr. simpl seq. simpl map. f_equal; [lia|].
    rewrite <- seq_shift, map_map. apply map_ext. intros j. lia.
  - replace (Z.to_nat _) with 0%nat by lia. by rewrite Nat.min_0_r.
  - replace (Z.to_nat _) with 0%nat by lia. by rewrite Nat.min_0_r.
  - replace (Z.to_nat _) with 0%nat by lia. by rewrite Nat.min_0_r.
Qed.

Lemma redraw_lines_window ROWS sb :
  redraw_lines ROWS sb =
    map (fun j => redraw_start ROWS sb + Z.of_nat j)
        (seq 0 (Z.to_nat (Z.min (VISIBLE_LINES ROWS)
                                (line_count sb - redraw_start ROWS sb)))).
Proof.
  unfold redraw_lines. rewrite redraw_rows_window by lia.
  rewrite Nat.min_r by lia.
  replace (VISIBLE_LINES ROWS - 0) with (VISIBLE_LINES ROWS) by lia.
  replace (line_count sb - redraw_start ROWS sb - 0)
    with (line_count sb - redraw_start ROWS sb) by lia.
  apply map_ext. intros j. lia.
Qed.

Lemma redraw_start_nonneg ROWS sb : 0 <= redraw_start ROWS sb.
Proof. unfold redraw_start. cbv zeta. case_match; lia. Qed.

End RedrawFacts.

(** X20. Whatever the scroll position, [redraw] reads only rows in use, at
    most [VISIBLE_LINES] of them, in order; with the position in its
    range these are the [VISIBLE_LINES] rows that end [scroll_offset]
    rows above the newest. *)
Theorem redraw_reads_rows_in_use ROWS sb :
  Display.wf sb ->
  Forall (fun k => 0 <= k < Display.line_count sb /\
                   is_Some (Display.lines sb !! Z.to_nat k))
         (Display.redraw_lines ROWS sb) /\
  Z.of_nat (length (Display.redraw_lines ROWS sb)) <=
    Z.max 0 (Display.VISIBLE_LINES ROWS) /\
  (0 <= Display.VISIBLE_LINES ROWS ->
   0 <= Display.scroll_offset sb <=
     Display.line_count sb - Display.VISIBLE_LINES ROWS ->
   Display.redraw_lines ROWS sb =
     map (fun j => Display.line_count sb - Display.scroll_offset sb -
                   Display.VISIBLE_LINES ROWS + Z.of_nat j)
         (seq 0 (Z.to_nat (Display.VISIBLE_LINES ROWS)))).
Proof.
  intros [Hlen Hcnt]. unfold Display.SCROLLBACK_LINES in *.
  rewrite RedrawFacts.redraw_lines_window.
  pose proof (RedrawFacts.redraw_start_nonneg ROWS sb) as Hs.
  split; [|split].
  - apply Forall_forall. intros k Hk.
    apply list_elem_of_fmap in Hk as (j & -> & Hj).
    apply elem_of_seq in Hj.
    split; [lia|]. apply lookup_lt_is_Some. lia.
  - rewrite length_map, length_seq. lia.
  - intros HV Hoff.
    assert (Display.redraw_start ROWS sb =
            Display.line_count sb - Display.scroll_offset sb -
            Display.VISIBLE_LINES ROWS) as ->.
    { unfold Display.redraw_start. cbv zeta. case_match; lia. }
    f_equal. f_equal. lia.
Qed.

(** X18. The scrollback keeps the newest 1000 lines, each cut to
    [CONSOLE_COLS] characters, in the order they were added; the scroll
    position is left alone. *)
Theorem scrollback_keeps_newest COLS ls sb :
  Display.wf sb ->
  let sb' := Display.add_lines COLS ls sb in
  Display.wf sb' /\
  Display.rows sb' =
    drop (length (Display.rows sb) + length ls - 1000)
         (Display.rows sb ++ map (fun l => take (Z.to_nat COLS) (cstr l)) ls) /\
  Display.line_count sb' =
    Z.min Display.SCROLLBACK_LINES (Display.line_count sb + Z.of_nat (length ls)) /\
  Display.scroll_offset sb' = Display.scroll_offset sb.
Proof. intros Hwf. apply DisplayFacts.add_lines_rows. exact Hwf. Qed.

(** X19. [scroll_add_text] loses nothing but the newlines: the lines it adds,
    put end to end, are the prefix (cut to the width) and the text
    without its newlines; none is wider than the console, and in a text
    without newlines every line but the last is full. *)
Theorem scroll_add_text_wraps COLS prefix text sb :
  0 < COLS -> Display.wf sb ->
  exists ls sb',
    (forall fuel, (2 * length text + 2 <= fuel)%nat ->
       Display.scroll_add_text COLS prefix text fuel sb = Some sb') /\
    Display.wf sb' /\
    Display.rows sb' =
      drop (length (Display.rows sb) + length ls - 1000) (Display.rows sb ++ ls) /\
    concat ls =
      match prefix with
      | Some p => take (Z.to_nat COLS) (cstr p)
      | None => []
      end ++ filter (fun c => c <> 10) (cstr text) /\
    Forall (fun l => (length l <= Z.to_nat COLS)%nat) ls /\
    (Forall (fun c => c <> 10) (cstr text) ->
     Forall (fun l => length l = Z.to_nat COLS) (removelast ls)) /\
    Display.scroll_offset sb' = Display.scroll_offset sb.
Proof.
  intros Hcols Hwf.
  destruct (DisplayFacts.scroll_add_text_lines COLS prefix text sb Hcols Hwf)
    as (ls & Hrun & Hcat & Hls & Hfull).
  destruct (DisplayFacts.add_lines_rows COLS (map (fun l => l ++ [0]) ls) sb Hwf)
    as (Hwf' & Hrows & _ & Hoff).
  exists ls, (Display.add_lines COLS (map (fun l => l ++ [0]) ls) sb).
  split; [exact Hrun|]. split; [exact Hwf'|].
  split; [|split; [exact Hcat|split; [|split; [exact Hfull|exact Hoff]]]].
  - rewrite Hrows, length_map. by rewrite DisplayFacts.nul_ended_rows.
  - eapply Forall_impl; [exact Hls|]. intros l [_ H]. exact H.
Qed.

(** X21. The display of a response: the lines of the reply and a blank line
    are added and the scroll position ends in its range.  While the 1000
    rows are not exceeded, a reply that took a screen of rows or more
    (the blank line counted) is shown from its first line: [redraw]
    starts at the row that was the first free one, and that row is the
    first line of the reply.  A reply of fewer rows is shown from the
    bottom.  When the rows added exceed the 1000 and the reply took more
    than a screen, the rows have moved up and [redraw] starts below the
    first line of the reply. *)
Theorem show_response_scrolls_to_reply COLS ROWS response sb :
  4 <= COLS -> Display.wf sb ->
  exists ls sb',
    (forall fuel, (2 * length response + 2 <= fuel)%nat ->
       Display.show_response COLS ROWS response fuel sb = Some sb') /\
    Display.rows sb' =
      drop (length (Display.rows sb) + length ls + 1 - 1000)
           (Display.rows sb ++ ls ++ [[]]) /\
    concat ls = str "AI: " ++ filter (fun c => c <> 10) (cstr response) /\
    ls <> [] /\
    0 <= Display.scroll_offset sb' <=
      Z.max 0 (Display.line_count sb' - Display.VISIBLE_LINES ROWS) /\
    ((length (Display.rows sb) + length ls + 1 <= 1000)%nat ->
     Display.VISIBLE_LINES ROWS <= Z.of_nat (length ls + 1) ->
     Display.redraw_start ROWS sb' = Display.line_count sb /\
     Display.rows sb' !! Z.to_nat (Display.redraw_start ROWS sb') = head ls) /\
    (Z.of_nat (length ls + 1) < Display.VISIBLE_LINES ROWS ->
     Display.scroll_offset sb' = 0) /\
    ((1000 < length (Display.rows sb) + length ls + 1)%nat ->
     Display.VISIBLE_LINES ROWS < Z.of_nat (length ls + 1) ->
     ((length ls + 1 <= 1000)%nat ->
      Display.rows sb' !! (1000 - (length ls + 1))%nat = head ls) /\
     1000 - Z.of_nat (length ls + 1) < Display.redraw_start ROWS sb').
Proof.
  intros Hcols Hwf.
  destruct (DisplayFacts.scroll_add_text_lines COLS (Some (str "AI: ")) response sb
              ltac:(lia) Hwf) as (ls & Hrun & Hcat & Hls & _).
  set (sb1 := Display.add_lines COLS (map (fun l => l ++ [0]) ls) sb) in *.
  destruct (DisplayFacts.add_lines_rows COLS (map (fun l => l ++ [0]) ls) sb Hwf)
    as (Hwf1 & Hrows1 & Hcnt1 & _). fold sb1 in Hwf1, Hrows1, Hcnt1.
  destruct (DisplayFacts.scroll_add_line_rows COLS [] sb1 Hwf1)
    as (Hwf2 & Hrows2 & Hcnt2 & _).
  set (sb2 := Display.scroll_add_line COLS [] sb1) in *.
  pose proof (Display.wf_line_count _ Hwf) as Hc.
  pose proof (Display.wf_line_count _ Hwf2) as Hc2.
  pose proof (DisplayFacts.length_rows sb Hwf) as Hlr.
  rewrite length_map in Hcnt1.
  unfold Display.SCROLLBACK_LINES in *.
  assert (concat ls = str "AI: " ++ filter (fun c => c <> 10) (cstr response)) as Hcat'.
  { rewrite Hcat. f_equal. apply take_ge. change (4 <= Z.to_nat COLS)%nat. lia. }
  assert (ls <> []) as Hne by (intros ->; done).
  assert (forall off,
    Display.rows (Display.mkScroll (Display.lines sb2) (Display.line_count sb2) off) =
      drop (length (Display.rows sb) + length ls + 1 - 1000)
           (Display.rows sb ++ ls ++ [[]])) as Hrows.
  { intros off. unfold Display.rows at 1. cbn [Display.lines Display.line_count].
    fold (Display.rows sb2). rewrite Hrows2, Hrows1.
    rewrite length_map, DisplayFacts.nul_ended_rows by done.
    rewrite length_drop, length_app.
    simpl cstr. rewrite take_nil.
    rewrite <- drop_app_le by (rewrite length_app; lia).
    rewrite drop_drop, <- app_assoc. f_equal. lia. }
  eexists ls, _. split; [|split; [|split; [|split; [|split; [|split; [|split]]]]]].
  - intros fuel Hfuel. unfold Display.show_response.
    rewrite (Hrun fuel Hfuel). cbv zeta. fold sb2. reflexivity.
  - apply Hrows.
  - exact Hcat'.
  - exact Hne.
  - cbn [Display.scroll_offset Display.line_count].
    repeat case_match; lia.
  - intros Hfit HV.
    assert (Display.redraw_start ROWS
              (Display.mkScroll (Display.lines sb2) (Display.line_count sb2)
                 (let response_lines := Display.line_count sb2 - Display.line_count sb in
                  let target_offset := response_lines - Display.VISIBLE_LINES ROWS in
                  let max_offset := Display.line_count sb2 - Display.VISIBLE_LINES ROWS in
                  let max_offset := if max_offset <? 0 then 0 else max_offset in
                  let target_offset :=
                    if target_offset >? max_offset then max_offset else target_offset in
                  if target_offset <? 0 then 0 else target_offset)) =
            Display.line_count sb) as Hstart.
    { unfold Display.redraw_start. cbn [Display.scroll_offset Display.line_count].
      cbv zeta. repeat case_match; lia. }
    split; [exact Hstart|].
    cbv zeta in Hstart. cbv zeta. rewrite Hstart, Hrows.
    replace (length (Display.rows sb) + length ls + 1 - 1000)%nat with 0%nat by lia.
    rewrite drop_0. rewrite lookup_app_r by lia.
    replace (Z.to_nat (Display.line_count sb) - length (Display.rows sb))%nat
      with 0%nat by lia.
    destruct ls; done.
  - cbn [Display.line_count Display.scroll_offset]. intros HV.
    repeat case_match; lia.
  - intros Hover HV. split.
    + intros Hn. rewrite Hrows, lookup_drop, lookup_app_r by lia.
      replace (length (Display.rows sb) + length ls + 1 - 1000 +
               (1000 - (length ls + 1)) - length (Display.rows sb))%nat
        with 0%nat by lia.
      destruct ls; done.
    + unfold Display.redraw_start. cbn [Display.scroll_offset Display.line_count].
      repeat case_match; lia.
Qed.

(** X22. The scroll keys in [main], from a scroll position in
    [0, max(0, line_count - VISIBLE_LINES)] (0 with a screen of lines or
    fewer, as when [main] starts).  Up, newly pressed, moves the window
    one row towards the oldest line while there is a line above it, and
    Down then restores the state; Down, newly pressed, moves it one row
    back while the position is not 0, and Up then restores the state.  At
    the top Up does nothing, at the bottom Down does nothing, with a
    screen of lines or fewer neither does anything, and a key held down
    from the pass before does nothing.  The position stays in that
    range. *)
Theorem scroll_keys_move_the_window ROWS sb :
  0 <= Display.scroll_offset sb <=
    Z.max 0 (Display.line_count sb - Display.VISIBLE_LINES ROWS) ->
  let up := Display.scroll_up ROWS true false sb in
  let down := Display.scroll_down true false sb in
  (Display.scroll_offset sb <
     Display.line_count sb - Display.VISIBLE_LINES ROWS ->
   Display.redraw_start ROWS up = Display.redraw_start ROWS sb - 1 /\
   Display.scroll_down true false up = sb) /\
  (Display.line_count sb - Display.VISIBLE_LINES ROWS <=
     Display.scroll_offset sb -> up = sb) /\
  (0 < Display.scroll_offset sb ->
   Display.redraw_start ROWS down = Display.redraw_start ROWS sb + 1 /\
   Display.scroll_up ROWS true false down = sb) /\
  (Display.scroll_offset sb = 0 -> down = sb) /\
  (Display.line_count sb <= Display.VISIBLE_LINES ROWS ->
   up = sb /\ down = sb) /\
  Display.scroll_up ROWS true true sb = sb /\
  Display.scroll_down true true sb = sb /\
  0 <= Display.scroll_offset up <=
    Z.max 0 (Display.line_count up - Display.VISIBLE_LINES ROWS) /\
  0 <= Display.scroll_offset down <=
    Z.max 0 (Display.line_count down - Display.VISIBLE_LINES ROWS).
Proof.
  intros Hoff up down. subst up down. destruct sb as [ls lc off].
  unfold Display.scroll_up, Display.scroll_down, Display.redraw_start.
  cbn [Display.scroll_offset Display.line_count Display.lines] in *.
  simpl andb.
  split; [|split; [|split; [|split; [|split; [|split; [done|split; [done|split]]]]]]].
  - intros Hlt. replace (off <? lc - Display.VISIBLE_LINES ROWS) with true by lia.
    cbn [Display.scroll_offset Display.line_count Display.lines].
    replace (off + 1 >? 0) with true by lia.
    split; [repeat case_match; lia|]. f_equal. lia.
  - intros Hge. replace (off <? lc - Display.VISIBLE_LINES ROWS) with false by lia.
    done.
  - intros Hpos. replace (off >? 0) with true by lia.
    cbn [Display.scroll_offset Display.line_count Display.lines].
    replace (off - 1 <? lc - Display.VISIBLE_LINES ROWS) with true by lia.
    split; [repeat case_match; lia|]. f_equal. lia.
  - intros ->. done.
  - intros Hfew. assert (off = 0) as -> by lia.
    replace (0 <? lc - Display.VISIBLE_LINES ROWS) with false by lia. done.
  - destruct (off <? lc - Display.VISIBLE_LINES ROWS) eqn:Hlt;
      cbn [Display.scroll_offset Display.line_count]; lia.
  - destruct (off >? 0) eqn:Hgt; cbn [Display.scroll_offset Display.line_count]; lia.
Qed.

(** X27. main shows a line while it waits for the reply ([scroll_add_line]) and
    takes it away again by lowering [line_count].  Below 1000 lines that
    restores the scrollback; with the 1000 rows in use the line added has
    pushed the oldest line out, which stays lost, and the count is 999
    afterwards.  The scroll position is not touched. *)
Theorem thinking_indicator_removal COLS line sb :
  Display.wf sb ->
  let sb1 := Display.scroll_add_line COLS line sb in
  let sb2 := Display.remove_indicator sb1 in
  Display.wf sb2 /\
  last (Display.rows sb1) = Some (take (Z.to_nat COLS) (cstr line)) /\
  Display.rows sb2 =
    (if Display.line_count sb <? Display.SCROLLBACK_LINES
     then Display.rows sb else drop 1 (Display.rows sb)) /\
  Display.line_count sb2 =
    Z.min (Display.SCROLLBACK_LINES - 1) (Display.line_count sb) /\
  Display.scroll_offset sb2 = Display.scroll_offset sb.
Proof.
  intros Hwf sb1 sb2.
  destruct (DisplayFacts.scroll_add_line_rows COLS line sb Hwf)
    as ([Hlen1 Hc1] & Hrows & Hcount & Hoff).
  fold sb1 in Hlen1, Hc1, Hrows, Hcount, Hoff.
  pose proof (DisplayFacts.length_rows sb Hwf) as Hlr.
  destruct Hwf as [Hlen Hc].
  unfold Display.SCROLLBACK_LINES in *.
  assert (Display.line_count sb1 > 0) as Hpos by lia.
  assert (sb2 = Display.mkScroll (Display.lines sb1) (Display.line_count sb1 - 1)
                  (Display.scroll_offset sb1)) as Hsb2.
  { unfold sb2, Display.remove_indicator.
    destruct (Z.gtb_spec (Display.line_count sb1) 0); [done|lia]. }
  rewrite drop_app_le in Hrows by lia.
  assert (length (Display.rows sb1) = Z.to_nat (Display.line_count sb1)) as Hl1.
  { unfold Display.rows. rewrite length_map, length_take.
    change (Z.to_nat 1000) with 1000%nat in Hlen1. lia. }
  assert (Display.rows sb2 =
          drop (length (Display.rows sb) + 1 - 1000) (Display.rows sb)) as Hrows2.
  { rewrite Hsb2. unfold Display.rows at 1. simpl.
    rewrite Hrows, length_app in Hl1. simpl in Hl1.
    replace (Z.to_nat (Display.line_count sb1 - 1))
      with (length (drop (length (Display.rows sb) + 1 - 1000) (Display.rows sb))) by lia.
    rewrite <- (take_app_length (drop _ (Display.rows sb))
                  [take (Z.to_nat COLS) (cstr line)]) at 2.
    rewrite <- Hrows.
    generalize dependent (length (drop (length (Display.rows sb) + 1 - 1000) (Display.rows sb))).
    intros k Hk. unfold Display.rows. rewrite List.firstn_map, take_take.
    f_equal. f_equal. lia. }
  split; [|split; [|split; [|split]]].
  - rewrite Hsb2. split; simpl; [done|]. unfold Display.SCROLLBACK_LINES. lia.
  - rewrite Hrows. apply last_snoc.
  - rewrite Hrows2.
    destruct (Z.ltb_spec (Display.line_count sb) 1000) as [Hlt|Hge].
    + replace (length (Display.rows sb) + 1 - 1000)%nat with 0%nat by lia. done.
    + replace (length (Display.rows sb) + 1 - 1000)%nat with 1%nat by lia. done.
  - rewrite Hsb2. simpl. lia.
  - rewrite Hsb2. simpl. done.
Qed.

(** ** The input line *)

Module KeyboardFacts.
Import Keyboard.

Lemma key_char_nonzero shift i :
  (i < KEY_MAP_SIZE)%nat -> key_char shift i <> 0.
Proof.
  intros Hi. unfold key_char.
  assert (Forall (fun p : Z * Z => p.1 <> 0 /\ p.2 <> 0) key_map) as Hall.
  { apply (bool_decide_unpack _). vm_compute. exact I. }
  destruct (lookup_lt_is_Some_2 key_map i Hi) as [[n s] Hl]. rewrite Hl.
  apply (Forall_lookup_1 _ _ _ _ Hall) in Hl. simpl in Hl.
  destruct shift; tauto.
Qed.

(** One character more at the end of the string the buffer holds. *)
Lemma append_char buf0 c :
  c <> 0 -> (length (cstr buf0) + 1 < length buf0)%nat ->
  cstr (<[S (length (cstr buf0)) := 0]> (<[length (cstr buf0) := c]> buf0)) =
    cstr buf0 ++ [c].
Proof.
  intros Hc Hlen.
  destruct (cstr_split buf0 ltac:(lia)) as (r & Hr).
  set (s := cstr buf0) in *. rewrite Hr.
  rewrite insert_app_r_alt by lia. rewrite Nat.sub_diag. simpl.
  replace (S (length s)) with (length s + 1)%nat by lia.
  rewrite insert_app_r_alt by lia.
  replace (length s + 1 - length s)%nat with 1%nat by lia.
  destruct r as [|x r].
  { rewrite Hr, length_app in Hlen. simpl in Hlen. lia. }
  simpl. change (s ++ c :: 0 :: r) with (s ++ [c] ++ 0 :: r).
  rewrite app_assoc. apply cstr_app_nul.
  apply Forall_app. split; [apply cstr_nonzero|by repeat constructor].
Qed.

Lemma key_step_spec shift pressed st i :
  wf st -> (i < KEY_MAP_SIZE)%nat ->
  let st' := key_step shift pressed st i in
  wf st' /\
  cstr (input_buffer st') =
    take 255 (cstr (input_buffer st) ++ typed_on shift pressed (key_was_pressed st) [i]) /\
  key_was_pressed st' = <[i := pressed i]> (key_was_pressed st) /\
  (pressed i && negb (default false (key_was_pressed st !! i)) = false -> 
   input_buffer st' = input_buffer st /\ input_len st' = input_len st /\
   redraws st' = redraws st).
Proof.
  intros [Hsz Hlen Hstr Hk] Hi. unfold key_step, typed_on, MAX_INPUT_LEN in *.
  change (Z.to_nat 256) with 256%nat in *.
  cbv zeta.
  assert (length (cstr (input_buffer st)) <= 255)%nat as Hl255 by lia.
  rewrite filter_cons, filter_nil.
  destruct (pressed i && negb (default false (key_was_pressed st !! i))) eqn:Hp.
  - destruct (decide (true = true)) as [_|]; [|done]. simpl map.
    destruct (Z.ltb_spec (input_len st) (256 - 1)) as [Hlt|Hge]; simpl andb; cbv iota;
      cbn [input_buffer input_len key_was_pressed redraws].
    + assert (Z.to_nat (input_len st) = length (cstr (input_buffer st))) as E1 by lia.
      replace (Z.to_nat (input_len st + 1)) with (S (length (cstr (input_buffer st)))) by lia.
      rewrite E1.
      pose proof (append_char (input_buffer st) (key_char shift i)
                    (key_char_nonzero shift i Hi) ltac:(lia)) as Happ.
      split; [|split; [|split; [done|done]]].
      * split; cbn [input_buffer input_len key_was_pressed].
        -- by rewrite !length_insert.
        -- unfold MAX_INPUT_LEN. lia.
        -- rewrite Happ, length_app. simpl. lia.
        -- by rewrite length_insert.
      * rewrite Happ. symmetry. apply take_ge. rewrite length_app. simpl. lia.
    + split; [|split; [|split; [done|done]]].
      * split; cbn [input_buffer input_len key_was_pressed]; try done.
        by rewrite length_insert.
      * rewrite take_app_le by lia. symmetry. apply take_ge. cbn [input_buffer]. lia.
  - destruct (decide (false = true)) as [|_]; [done|]. simpl map.
    simpl andb. cbv iota.
    split; [|split; [|split; [done|done]]].
    + split; cbn [input_buffer input_len key_was_pressed]; try done.
      by rewrite length_insert.
    + rewrite app_nil_r. symmetry. apply take_ge. cbn [input_buffer]. lia.
Qed.

Lemma take_255_app (a b c : list Z) :
  take 255 (take 255 (a ++ b) ++ c) = take 255 (a ++ b ++ c).
Proof.
  destruct (decide (length (a ++ b) <= 255)%nat) as [Hle|Hgt].
  - rewrite (take_ge (a ++ b)) by done. by rewrite <- app_assoc.
  - rewrite take_app_le by (rewrite length_take; lia).
    rewrite take_take, Nat.min_id.
    rewrite (app_assoc a b c). rewrite (take_app_le (a ++ b)) by lia. done.
Qed.

Lemma typed_on_ext shift pressed was was' l :
  (forall i, i ∈ l -> was !! i = was' !! i) ->
  typed_on shift pressed was l = typed_on shift pressed was' l.
Proof.
  intros H. unfold typed_on. f_equal.
  induction l as [|i l IH]; [done|].
  rewrite !filter_cons. rewrite (H i) by left.
  rewrite IH; [done|]. intros j Hj. apply H. by right.
Qed.

Lemma keys_pass_spec shift pressed n : forall a st,
  wf st -> (a + n <= KEY_MAP_SIZE)%nat ->
  let st' := fold_left (key_step shift pressed) (seq a n) st in
  wf st' /\
  cstr (input_buffer st') =
    take 255 (cstr (input_buffer st) ++
              typed_on shift pressed (key_was_pressed st) (seq a n)) /\
  key_was_pressed st' =
    take a (key_was_pressed st) ++ map pressed (seq a n) ++
    drop (a + n) (key_was_pressed st).
Proof.
  induction n as [|n IH]; intros a st Hwf Han.
  - simpl. split; [done|]. split.
    + unfold typed_on. simpl. rewrite app_nil_r. symmetry. apply take_ge.
      destruct Hwf as [? ? ? ?]. unfold MAX_INPUT_LEN in *. lia.
    + rewrite Nat.add_0_r. by rewrite take_drop.
  - simpl seq. simpl fold_left.
    destruct (key_step_spec shift pressed st a Hwf ltac:(lia)) as (Hwf1 & Hs1 & Hk1 & _).
    destruct (IH (S a) _ Hwf1 ltac:(lia)) as (Hwf2 & Hs2 & Hk2).
    cbv zeta. split; [done|]. split.
    + rewrite Hs2, Hs1, take_255_app. f_equal. f_equal.
      change (a :: seq (S a) n) with ([a] ++ seq (S a) n).
      unfold typed_on at 3. rewrite filter_app, map_app.
      fold (typed_on shift pressed (key_was_pressed st) [a]).
      fold (typed_on shift pressed (key_was_pressed st) (seq (S a) n)).
      f_equal. apply typed_on_ext. intros j Hj.
      apply elem_of_seq in Hj. rewrite Hk1.
      apply list_lookup_insert_ne. lia.
    + rewrite Hk2, Hk1.
      pose proof (wf_keys _ Hwf) as Hlen.
      rewrite drop_insert_lt by lia.
      erewrite take_S_r by (apply list_lookup_insert_eq; lia).
      rewrite take_insert_ge by lia.
      rewrite <- app_assoc. simpl. replace (a + S n)%nat with (S (a + n)) by lia. done.
Qed.

(** A pass in which no key is newly down changes nothing but the flags. *)
Lemma keys_pass_idle shift pressed n : forall a st,
  (forall i, (a <= i < a + n)%nat ->
     pressed i && negb (default false (key_was_pressed st !! i)) = false) ->
  let st' := fold_left (key_step shift pressed) (seq a n) st in
  input_buffer st' = input_buffer st /\ input_len st' = input_len st /\
  redraws st' = redraws st.
Proof.
  induction n as [|n IH]; intros a st Hidle; [done|].
  simpl seq. simpl fold_left. cbv zeta.
  assert (key_step shift pressed st a =
          mkInput (input_buffer st) (input_len st)
                  (<[a := pressed a]> (key_was_pressed st)) (redraws st)) as Hstep.
  { unfold key_step. rewrite (Hidle a) by lia. done. }
  rewrite Hstep.
  destruct (IH (S a) (mkInput (input_buffer st) (input_len st)
                  (<[a := pressed a]> (key_was_pressed st)) (redraws st)))
    as (H1 & H2 & H3).
  - intros i Hi. cbn [key_was_pressed].
    rewrite list_lookup_insert_ne by lia. apply Hidle. lia.
  - rewrite H1, H2, H3. done.
Qed.

Lemma backspace_string buf0 :
  (0 < length (cstr buf0) < length buf0)%nat ->
  cstr (<[(length (cstr buf0) - 1)%nat := 0]> buf0) = removelast (cstr buf0).
Proof.
  intros Hlen.
  destruct (cstr_split buf0 ltac:(lia)) as (r & Hr).
  pose proof (cstr_nonzero buf0) as Hnz.
  destruct (cstr buf0) as [|x s] using rev_ind; [simpl in Hlen; lia|].
  clear IHs. rewrite Hr. rewrite removelast_last.
  rewrite length_app. simpl.
  replace (length s + 1 - 1)%nat with (length s + 0)%nat by lia.
  rewrite <- app_assoc. rewrite insert_app_r. simpl.
  apply cstr_app_nul. apply Forall_app in Hnz. tauto.
Qed.

End KeyboardFacts.

(** X23. A pass over the keys appends to the input line the characters of the
    keys that are down and were not at the pass before, in the order of
    the table, as long as the line has fewer than 255 characters; the
    buffer keeps its size, its terminating NUL and its length field, and
    every flag takes the state of its key. *)
Theorem regular_keys_types shift pressed st :
  Keyboard.wf st ->
  let st' := Keyboard.regular_keys shift pressed st in
  Keyboard.wf st' /\
  cstr (Keyboard.input_buffer st') =
    take 255 (cstr (Keyboard.input_buffer st) ++
              Keyboard.typed shift pressed (Keyboard.key_was_pressed st)) /\
  Keyboard.key_was_pressed st' = map pressed (seq 0 Keyboard.KEY_MAP_SIZE).
Proof.
  intros Hwf.
  destruct (KeyboardFacts.keys_pass_spec shift pressed Keyboard.KEY_MAP_SIZE 0 st
              Hwf ltac:(lia)) as (Hwf' & Hs & Hk).
  split; [exact Hwf'|]. split; [exact Hs|].
  unfold Keyboard.regular_keys. rewrite Hk.
  rewrite take_0, drop_ge by (rewrite (Keyboard.wf_keys _ Hwf); simpl; lia).
  by rewrite app_nil_r.
Qed.

(** X24. A key held down types once: a second pass with the same keys down,
    with or without shift, leaves the input line as it is and does not
    redraw. *)
Theorem held_keys_type_once shift shift' pressed st :
  Keyboard.wf st ->
  let st1 := Keyboard.regular_keys shift pressed st in
  let st2 := Keyboard.regular_keys shift' pressed st1 in
  Keyboard.input_buffer st2 = Keyboard.input_buffer st1 /\
  Keyboard.input_len st2 = Keyboard.input_len st1 /\
  Keyboard.redraws st2 = Keyboard.redraws st1.
Proof.
  intros Hwf st1 st2. subst st2 st1. unfold Keyboard.regular_keys.
  destruct (KeyboardFacts.keys_pass_spec shift pressed Keyboard.KEY_MAP_SIZE 0 st
              Hwf ltac:(lia)) as (_ & _ & Hk).
  apply (KeyboardFacts.keys_pass_idle shift' pressed Keyboard.KEY_MAP_SIZE 0).
  intros i Hi. rewrite Hk. rewrite take_0, app_nil_l.
  rewrite lookup_app_l by (rewrite length_map, length_seq; lia).
  rewrite list_lookup_fmap, lookup_seq_lt by lia. simpl.
  by destruct (pressed i).
Qed.

(** X25. Backspace, newly pressed, takes the last character off the input
    line and keeps the buffer well formed; on an empty line it does
    nothing. *)
Theorem backspace_removes_last st :
  Keyboard.wf st ->
  let st' := Keyboard.backspace true false st in
  Keyboard.wf st' /\
  cstr (Keyboard.input_buffer st') = removelast (cstr (Keyboard.input_buffer st)) /\
  (Keyboard.input_len st = 0 -> st' = st).
Proof.
  intros [Hsz Hlen Hstr Hk]. unfold Keyboard.backspace, Keyboard.MAX_INPUT_LEN in *.
  change (Z.to_nat 256) with 256%nat in *. simpl andb.
  destruct (Z.gtb_spec (Keyboard.input_len st) 0) as [Hpos|Hzero]; cbv zeta.
  - replace (Z.to_nat (Keyboard.input_len st - 1))
      with (length (cstr (Keyboard.input_buffer st)) - 1)%nat by lia.
    pose proof (KeyboardFacts.backspace_string (Keyboard.input_buffer st) ltac:(lia))
      as Hb.
    split; [|split; [exact Hb|lia]].
    split; cbn [Keyboard.input_buffer Keyboard.input_len Keyboard.key_was_pressed].
    + by rewrite length_insert.
    + unfold Keyboard.MAX_INPUT_LEN. lia.
    + rewrite Hb.
      destruct (cstr (Keyboard.input_buffer st)) as [|x s] using rev_ind;
        [simpl in *; lia|].
      rewrite removelast_last. rewrite length_app in Hstr. simpl in Hstr. lia.
    + done.
  - split; [done|]. split; [|done].
    destruct (cstr (Keyboard.input_buffer st)); [done|simpl in Hstr; lia].
Qed.

(** ** Witnesses of the further properties *)

Lemma history_keeps_all_below_capacity_witness :
  History.count chat_history = 2 /\
  History.stored chat_history = map History.turn_of chat /\
  History.freed chat_history = [].
Proof.
  apply (history_keeps_all_below_capacity chat). vm_compute. lia.
Defined.

Lemma json_escape_round_trip_witness :
  exists out w',
    json_escape_to_uart false [104; 105; 34; 10] (boot [] 0) = (Some tt, w') /\
    trace w' = map Tx out /\
    json_unescape out = Some [104; 105; 34; 10].
Proof.
  destruct (json_escape_round_trip false [104; 105; 34; 10] (boot [] 0))
    as (out & w' & Hrun & Htr & _ & _ & Hback).
  - repeat constructor.
  - exists out, w'. split; [exact Hrun|]. split; [exact Htr|].
    apply Hback. repeat constructor.
Defined.

Lemma wake_esp32_returns_witness :
  exists n0 w' dropped,
    (forall fuel, (n0 <= fuel)%nat ->
       wake_esp32 E_quiet fuel (boot [] 0) = (Some tt, w')) /\
    trace w' = map Tx [10; 10; 10] ++ map Rx dropped.
Proof.
  destruct (wake_esp32_returns E_quiet (boot [] 0) ms_clock_steady ms_clock_running)
    as (n0 & w' & dropped & Hrun & Htr & _).
  exists n0, w', dropped. split; [exact Hrun | exact Htr].
Defined.

Lemma send_request_writes_one_line_witness :
  exists n0 w' dropped,
    (forall fuel, (n0 <= fuel)%nat ->
       send_request E_quiet false chat_history (str "why?") fuel (boot [] 0) =
         (Some tt, w')) /\
    trace w' = map Tx [10; 10; 10] ++ map Rx dropped ++
               map Tx (request_line chat_history (str "why?") ++ [10]) /\
    Forall (fun c => 32 <= c <= 126) (request_line chat_history (str "why?")).
Proof.
  destruct (send_request_writes_one_line E_quiet false chat_history (str "why?")
              (boot [] 0) ms_clock_steady ms_clock_running)
    as (n0 & w' & dropped & Hrun & Htr & _ & _ & _ & Hline).
  - split; [reflexivity | vm_compute; split; discriminate].
  - unfold strings, is_string. apply (bool_decide_unpack _). vm_compute. exact I.
  - unfold is_string. apply (bool_decide_unpack _). vm_compute. exact I.
  - exists n0, w', dropped. split; [exact Hrun|]. split; [exact Htr|].
    apply Hline. apply (bool_decide_unpack _). vm_compute. exact I.
Defined.

Lemma request_carries_prompt_twice_witness :
  exists n0 w' dropped before,
    (forall fuel, (n0 <= fuel)%nat ->
       send_request E_quiet false
         (History.history_add (str "user") (str "why?") chat_history)
         (str "why?") fuel (boot [] 0) = (Some tt, w')) /\
    trace w' = map Tx [10; 10; 10] ++ map Rx dropped ++
               map Tx (json_open ++ before ++
                       turn_json (History.mkTurn (str "user") (str "why?")) ++
                       prompt_open ++ escaped (str "why?") ++ [34] ++
                       str "}" ++ [10]).
Proof.
  apply (request_carries_prompt_twice E_quiet false chat_history (str "why?")
           (boot [] 0) ms_clock_steady ms_clock_running).
  - split; [reflexivity | vm_compute; split; discriminate].
  - unfold strings, is_string. apply (bool_decide_unpack _). vm_compute. exact I.
  - unfold is_string. apply (bool_decide_unpack _). vm_compute. exact I.
Defined.

Lemma scrollback_keeps_newest_witness :
  Display.rows (Display.add_lines screen_cols [str "one"; str "two"]
                  (Display.scroll_init screen_cols)) = [str "one"; str "two"].
Proof.
  destruct (scrollback_keeps_newest screen_cols [str "one"; str "two"]
              (Display.scroll_init screen_cols)) as (_ & Hrows & _).
  - split; [reflexivity | vm_compute; split; discriminate].
  - rewrite Hrows. reflexivity.
Defined.

Lemma scroll_add_text_wraps_witness :
  exists ls sb',
    (forall fuel, (10 <= fuel)%nat ->
       Display.scroll_add_text screen_cols (Some (str "AI: ")) (str "hi" ++ [10; 33])
         fuel (Display.scroll_init screen_cols) = Some sb') /\
    concat ls = str "AI: hi!" /\
    Forall (fun l => (length l <= 53)%nat) ls.
Proof.
  destruct (scroll_add_text_wraps screen_cols (Some (str "AI: ")) (str "hi" ++ [10; 33])
              (Display.scroll_init screen_cols))
    as (ls & sb' & Hrun & _ & _ & Hcat & Hlen & _).
  - reflexivity.
  - split; [reflexivity | vm_compute; split; discriminate].
  - exists ls, sb'. split; [exact Hrun|]. split; [exact Hcat | exact Hlen].
Defined.

Lemma redraw_reads_rows_in_use_witness :
  Display.redraw_lines screen_rows scrolled =
    map (fun j => 15 + Z.of_nat j) (seq 0 20).
Proof.
  destruct (redraw_reads_rows_in_use screen_rows scrolled) as (_ & _ & Hwin).
  - split; [reflexivity | vm_compute; split; discriminate].
  - apply Hwin; vm_compute; [discriminate | split; discriminate].
Defined.

Lemma show_response_scrolls_to_reply_witness :
  exists ls sb',
    (forall fuel, (6 <= fuel)%nat ->
       Display.show_response screen_cols screen_rows (str "hi") fuel
         (Display.scroll_init screen_cols) = Some sb') /\
    concat ls = str "AI: hi" /\
    0 <= Display.scroll_offset sb' <=
      Z.max 0 (Display.line_count sb' - Display.VISIBLE_LINES screen_rows).
Proof.
  destruct (show_response_scrolls_to_reply screen_cols screen_rows (str "hi")
              (Display.scroll_init screen_cols))
    as (ls & sb' & Hrun & _ & Hcat & _ & Hoff & _).
  - vm_compute. discriminate.
  - split; [reflexivity | vm_compute; split; discriminate].
  - exists ls, sb'. split; [exact Hrun|]. split; [exact Hcat | exact Hoff].
Defined.

Lemma scroll_keys_move_the_window_witness :
  Display.scroll_up screen_rows true false
    (Display.add_lines screen_cols
       [str "=== Renspired ==="; str "Type and press Enter. ESC to exit."; []]
       (Display.scroll_init screen_cols)) =
  Display.add_lines screen_cols
    [str "=== Renspired ==="; str "Type and press Enter. ESC to exit."; []]
    (Display.scroll_init screen_cols) /\
  Display.scroll_down true false (Display.scroll_up screen_rows true false scrolled) =
    scrolled.
Proof.
  split.
  - destruct (scroll_keys_move_the_window screen_rows
                (Display.add_lines screen_cols
                   [str "=== Renspired ==="; str "Type and press Enter. ESC to exit."; []]
                   (Display.scroll_init screen_cols)))
      as (_ & _ & _ & _ & Hfew & _).
    + vm_compute. split; discriminate.
    + apply Hfew. vm_compute. discriminate.
  - destruct (scroll_keys_move_the_window screen_rows scrolled) as ((_ & Hback) & _).
    + vm_compute. split; discriminate.
    + vm_compute. reflexivity.
    + exact Hback.
Defined.

Lemma regular_keys_types_witness :
  cstr (Keyboard.input_buffer
          (Keyboard.regular_keys false key_h Keyboard.input_init)) = str "h".
Proof.
  destruct (regular_keys_types false key_h Keyboard.input_init) as (_ & Hs & _).
  - split; [reflexivity | vm_compute; split; discriminate | reflexivity | reflexivity].
  - rewrite Hs. vm_compute. reflexivity.
Defined.

Lemma held_keys_type_once_witness :
  Keyboard.input_buffer
    (Keyboard.regular_keys true key_h
       (Keyboard.regular_keys false key_h Keyboard.input_init)) =
  Keyboard.input_buffer (Keyboard.regular_keys false key_h Keyboard.input_init).
Proof.
  destruct (held_keys_type_once false true key_h Keyboard.input_init) as (Hb & _).
  - split; [reflexivity | vm_compute; split; discriminate | reflexivity | reflexivity].
  - exact Hb.
Defined.

Lemma backspace_removes_last_witness :
  cstr (Keyboard.input_buffer
          (Keyboard.backspace true false
             (Keyboard.regular_keys false key_h Keyboard.input_init))) = [].
Proof.
  destruct (backspace_removes_last
              (Keyboard.regular_keys false key_h Keyboard.input_init))
    as (_ & Hs & _).
  - split; vm_compute; try reflexivity. split; discriminate.
  - rewrite Hs. vm_compute. reflexivity.
Defined.

Lemma receive_response_times_out_witness :
  exists n0 w',
    (forall fuel, (n0 <= fuel)%nat ->
       receive_response E_quiet 16 fuel (boot [] 16) = (Some false, w')) /\
    shown w' = [AddLine (str "[Timeout waiting for response]"); Redraw].
Proof.
  destruct (receive_response_times_out E_quiet 16 (boot [] 16)
              ms_clock_steady ms_clock_running (fun _ => eq_refl) eq_refl)
    as (n0 & w' & Hrun & Hshown & _).
  exists n0, w'. split; [exact Hrun | exact Hshown].
Defined.

Lemma receive_response_cancelled_by_esc_witness :
  exists w',
    (forall fuel, (1 <= fuel)%nat ->
       receive_response (E_esc_at 0) 16 fuel (boot stalled_reply 16) =
         (Some false, w')) /\
    shown w' = [AddLine (str "[Cancelled]"); Redraw].
Proof.
  destruct (receive_response_cancelled_by_esc (E_esc_at 0) 16 (boot stalled_reply 16)
              ms_clock_steady (fun _ => eq_refl))
    as (w' & Hrun & Hshown & _).
  exists w'. split; [exact Hrun | exact Hshown].
Defined.

Lemma receive_response_shows_error_line_witness :
  exists w',
    (forall fuel, (9 <= fuel)%nat ->
       receive_response E_quiet 16 fuel (boot error_reply 16) = (Some false, w')) /\
    shown w' = [AddText (str "[") (str "ERR:oops"); AddLine (str "]"); Redraw].
Proof.
  destruct (receive_response_shows_error_line E_quiet 16 (boot error_reply 16)
              (arrived error_reply) (str "oops") []
              ms_clock_steady (fun _ => eq_refl))
    as (w' & Hrun & Hshown & _).
  - vm_compute. reflexivity.
  - vm_compute. reflexivity.
  - unfold available. apply (bool_decide_unpack _). vm_compute. exact I.
  - apply (bool_decide_unpack _). vm_compute. exact I.
  - vm_compute. reflexivity.
  - exists w'. split; [exact Hrun | exact Hshown].
Defined.

Lemma malformed_length_is_empty_reply_witness :
  exists w',
    (forall fuel, (8 <= fuel)%nat ->
       receive_response E_quiet 16 fuel (boot malformed_reply 16) = (Some true, w')) /\
    shown w' = [AddLine (str "AI: (empty response)"); Redraw].
Proof.
  destruct (malformed_length_is_empty_reply E_quiet 16 (boot malformed_reply 16)
              (arrived malformed_reply) (str "abc") []
              ms_clock_steady (fun _ => eq_refl))
    as (w' & Hrun & Hshown & _).
  - vm_compute. reflexivity.
  - vm_compute. reflexivity.
  - unfold available. apply (bool_decide_unpack _). vm_compute. exact I.
  - apply (bool_decide_unpack _). vm_compute. exact I.
  - vm_compute. repeat split; discriminate.
  - vm_compute. reflexivity.
  - exists w'. split; [exact Hrun | exact Hshown].
Defined.


Lemma header_length_is_read_witness :
  exists w',
    (forall fuel, (8 <= fuel)%nat ->
       wait_for_len_or_error E_quiet fuel (boot full_reply 300) = (Some 200, w')) /\
    rx w' = arrived (replicate 200 120 ++ [EOT_CHAR]).
Proof.
  destruct (header_length_is_read E_quiet (boot full_reply 300)
              (arrived (str "LEN:200" ++ [10])) 200
              (arrived (replicate 200 120 ++ [EOT_CHAR]))
              ms_clock_steady (fun _ => eq_refl))
    as (w' & Hrun & Hrx & _).
  - vm_compute. split; discriminate.
  - vm_compute. reflexivity.
  - vm_compute. reflexivity.
  - unfold available. apply (bool_decide_unpack _). vm_compute. exact I.
  - vm_compute. reflexivity.
  - exists w'. split; [exact Hrun | exact Hrx].
Defined.

Lemma handshake_success_means_ready_witness :
  exists before rcv l,
    trace (uart_handshake E_quiet 400 (power_on answering 0)).2 =
      before ++ map Tx (str "SYNC" ++ [10]) ++ map Rx (rcv ++ l ++ [10]) /\
    cstr (take 31 (filter (fun c => c <> 13) l)) = str "READY".
Proof.
  destruct (handshake_success_means_ready E_quiet 400 (power_on answering 0)
              (uart_handshake E_quiet 400 (power_on answering 0)).2)
    as (before & rcv & l & Htr & Hready & _).
  - vm_compute. reflexivity.
  - exists before, rcv, l. split; [exact Htr | exact Hready].
Defined.

Lemma handshake_aborted_by_esc_witness :
  exists n0 w',
    (forall fuel, (n0 <= fuel)%nat ->
       uart_handshake (E_esc_at 0) fuel (boot [] 0) = (Some false, w')) /\
    shown w' = [Printf (str "Connecting to ESP32..." ++ [10])].
Proof.
  destruct (handshake_aborted_by_esc (E_esc_at 0) (boot [] 0)
              ms_clock_steady ms_clock_running (fun _ => eq_refl) eq_refl)
    as (n0 & t_wake & t_rst & w' & Hrun & _ & Hshown & _).
  exists n0, w'. split; [exact Hrun | exact Hshown].
Defined.

Lemma thinking_indicator_removal_witness :
  Display.rows
    (Display.remove_indicator
       (Display.scroll_add_line screen_cols (str "[Thinking...]")
          (Display.add_lines screen_cols [str "You: hi"]
             (Display.scroll_init screen_cols)))) = [str "You: hi"].
Proof.
  destruct (thinking_indicator_removal screen_cols (str "[Thinking...]")
              (Display.add_lines screen_cols [str "You: hi"]
                 (Display.scroll_init screen_cols))) as (_ & _ & Hrows & _).
  - split; [reflexivity | vm_compute; split; discriminate].
  - rewrite Hrows. reflexivity.
Defined.

Lemma header_wait_skips_other_lines_witness :
  exists w',
    (forall fuel, (16 <= fuel)%nat ->
       wait_for_len_or_error E_quiet fuel
         (boot (str "boot ok" ++ [10; 10] ++ str "LEN:42" ++ [10] ++ str "hi") 300)
       = (Some 42, w')) /\
    rx w' = arrived (str "hi").
Proof.
  destruct (header_wait_skips_other_lines E_quiet
              (boot (str "boot ok" ++ [10; 10] ++ str "LEN:42" ++ [10] ++ str "hi") 300)
              [str "boot ok"; []]
              (arrived (str "boot ok" ++ [10; 10] ++ str "LEN:42" ++ [10])) 42
              (arrived (str "hi"))
              ms_clock_steady (fun _ => eq_refl))
    as (w' & Hrun & Hrx & _).
  - vm_compute. split; discriminate.
  - vm_compute. reflexivity.
  - vm_compute. reflexivity.
  - apply (bool_decide_unpack _). vm_compute. exact I.
  - unfold available. apply (bool_decide_unpack _). vm_compute. exact I.
  - vm_compute. reflexivity.
  - exists w'. split; [exact Hrun | exact Hrx].
Defined.

Lemma receive_clamped_to_capacity_witness :
  exists n0 w' k,
    (forall fuel, (n0 <= fuel)%nat ->
       receive_response E_quiet 8 fuel (boot full_reply 8) = (Some true, w')) /\
    buf w' = replicate 7 120 ++ [0] /\
    sent w' = [Tx 65; Tx 65] /\
    rx w' = drop k (arrived (replicate 193 120 ++ [EOT_CHAR])).
Proof.
  destruct (receive_clamped_to_capacity E_quiet 8 100 (boot full_reply 8) 200
              (after_header E_quiet 100 (boot full_reply 8)))
    as [_ Htimely].
  - vm_compute. reflexivity.
  - lia.
  - lia.
  - vm_compute. reflexivity.
  - constructor.
  - destruct (Htimely ms_clock_steady ms_clock_running (fun _ => eq_refl)
                (arrived (replicate 7 120))
                (arrived (replicate 193 120 ++ [EOT_CHAR])))
      as (n0 & w' & k & Hrun & Hbuf & Hsent & _ & Hrx).
    + vm_compute. reflexivity.
    + vm_compute. reflexivity.
    + vm_compute. repeat split; try reflexivity; discriminate.
    + exists n0, w', k. split; [exact Hrun|]. split; [exact Hbuf|].
      split; [exact Hsent|exact Hrx].
Defined.
